(** * AI Inbox Zero: the classification / caching / automation pipeline

    A shallow embedding of the Python sources

      - [ai_agent.py]       ([rate_limit], [EmailAnalyzer])
      - [db_manager.py]     ([DatabaseManager])
      - [fast_scan.py]      ([FastEmailScanner])
      - [ultimate_app.py]   ([calculate_priority], [apply_autopilot_rules],
                             [process_email])
      - [working_app.py]    ([calculate_priority], [apply_autopilot],
                             [process_email_with_analytics])
      - [enterprise_app.py] ([scan_inbox])

    Conventions.  Python [str] is [string] (a sequence of 8-bit characters;
    [str.lower] is modelled on the ASCII letters, which is all the pattern
    and keyword tables contain).  Python dicts read with [.get(key, default)]
    are records with optional fields.  Clock readings and durations are
    integers (milliseconds).  Everything the code obtains from the outside
    (the Groq API, SQLite, the Gmail gateway, the clock) is an explicit
    argument, and everything it does to the outside is recorded in a list
    of events. *)

From stdpp Require Import gmap strings list pretty.
From Stdlib Require Import Ascii ZArith Lia.

Open Scope Z_scope.

(* ===================================================================== *)
(** * Python string primitives                                            *)
(* ===================================================================== *)

Module Py.

(** [c.lower()] for one character: ['A'..'Z'] move to ['a'..'z']. *)
Definition lower_char (c : ascii) : ascii :=
  let n := nat_of_ascii c in
  if (Nat.leb 65 n && Nat.leb n 90)%bool then ascii_of_nat (n + 32) else c.

(** [s.lower()] *)
Fixpoint lower (s : string) : string :=
  match s with
  | EmptyString => EmptyString
  | String c s' => String (lower_char c) (lower s')
  end.

(** [needle in hay] *)
Fixpoint contains (needle hay : string) : bool :=
  String.prefix needle hay ||
  match hay with
  | EmptyString => false
  | String _ hay' => contains needle hay'
  end.

(** [any(k in s for k in ks)] *)
Definition any_in (ks : list string) (s : string) : bool :=
  existsb (fun k => contains k s) ks.

(** [s1 == s2] *)
Definition str_eq (s1 s2 : string) : bool := bool_decide (s1 = s2).

(** [w] occurs in [s] up to the case of ASCII letters. *)
Definition occurs_ci (w s : string) : Prop :=
  exists pre mid post,
    s = pre +:+ mid +:+ post /\ lower mid = lower w.

End Py.

(* ===================================================================== *)
(** * Shared data                                                         *)
(* ===================================================================== *)

(** A message as [GmailService._get_email_details] builds it: the keys
    ['id'], ['sender'], ['subject'], ['snippet'], ['body'], ['thread_id']
    are always present. *)
Record Message := mkMessage {
  msg_id : string;
  msg_sender : string;
  msg_subject : string;
  msg_snippet : string;
  msg_body : string;
  msg_thread_id : string
}.

(** The dict returned by [EmailAnalyzer.analyze_email].  A key that the
    dict may lack is an optional field; callers read it with [.get]. *)
Record AiResult := mkAiResult {
  ar_category : option string;
  ar_priority : option string;
  ar_reply : option string;
  ar_reasoning : option string;
  ar_needs_reply : option bool;
  ar_is_fallback : option bool
}.

(** [d.get(key, default)] *)
Definition get {A} (o : option A) (dflt : A) : A := default dflt o.

(** Truthiness of [d.get(key)] for a boolean and for a string value. *)
Definition truthy_bool (o : option bool) : bool := get o false.
Definition truthy_str (o : option string) : bool :=
  match o with
  | Some s => negb (Py.str_eq s "")
  | None => false
  end.

(** Outcome of one call into the Gmail gateway: it returns (with the
    boolean the gateway reports) or an exception escapes it. *)
Inductive GwOutcome := GwReturns (ok : bool) | GwRaises.

(** What the outside world sees of a run. *)
Inductive event :=
| EvApiCall (sender subject : string)          (* Groq chat completion *)
| EvSleep (ms : Z)                             (* time.sleep *)
| EvDbWrite (id : string) (attempt : nat)      (* INSERT OR REPLACE tried *)
| EvArchive (id : string) (o : GwOutcome)      (* gmail archive_email *)
| EvTrash (id : string) (o : GwOutcome)        (* gmail delete_email *)
| EvDraft (to subject : string) (o : GwOutcome). (* create_draft_reply *)

(** Classes of events. *)
Definition is_api_call (e : event) : bool :=
  match e with EvApiCall _ _ => true | _ => false end.

(** A call of the gateway's archive or delete operation. *)
Definition is_gateway_action (e : event) : bool :=
  match e with EvArchive _ _ | EvTrash _ _ => true | _ => false end.

(** An archive or delete that the gateway carried through. *)
Definition action_done (e : event) : bool :=
  match e with
  | EvArchive _ (GwReturns _) | EvTrash _ (GwReturns _) => true
  | _ => false
  end.

Definition is_draft (e : event) : bool :=
  match e with EvDraft _ _ _ => true | _ => false end.

(* ===================================================================== *)
(** * ai_agent.py                                                         *)
(* ===================================================================== *)

Module AiAgent.

(** ** [rate_limit(calls, period)] *)

(** The first half of [wrapper]: read the clock, prune [calls_made],
    and decide how long to sleep.  [None] is the [IndexError] of
    [calls_made[0]] on an empty list (only reachable when [calls <= 0]). *)
Definition wrapper_enter (calls period now : Z) (calls_made : list Z)
  : option (list Z * option Z) :=
  let pruned := filter (fun c => now - period < c) calls_made in
  if Z.of_nat (length pruned) >=? calls then
    match pruned with
    | c0 :: _ => Some (pruned, Some (period - (now - c0)))
    | [] => None
    end
  else Some (pruned, None).

(** The second half: [calls_made.append(time.time())]. *)
Definition wrapper_append (stamp : Z) (calls_made : list Z) : list Z :=
  calls_made ++ [stamp].

(** ** [EmailAnalyzer] *)

Definition no_reply_patterns : list string :=
  ["no-reply"; "noreply"; "donotreply"; "do-not-reply";
   "notifications"; "automated"; "mailer-daemon"]%string.

Definition _is_no_reply_sender (sender : string) : bool :=
  let sender_lower := Py.lower sender in
  existsb (fun pattern => Py.contains pattern sender_lower) no_reply_patterns.

(** What happens between building the prompt and returning from
    [_parse_response]: either the parsed dict comes back or an exception
    is raised (network failure, malformed completion, ...). *)
Inductive ApiOutcome := ApiParsed (r : AiResult) | ApiRaises.

(** The fallback branch.  [ack_reply sender subject] stands for the
    acknowledgment letter the f-string builds from the sender's display
    name and the subject. *)
Definition _generate_fallback_response (ack_reply : string -> string -> string)
           (sender subject body : string) : AiResult :=
  let subject_lower := Py.lower subject in
  if Py.any_in ["newsletter"; "unsubscribe"; "promotion"]%string subject_lower
  then {| ar_category := Some "Newsletter"%string;
          ar_priority := Some "Medium"%string;
          ar_reply := Some "No reply needed"%string;
          ar_reasoning := Some "Fallback due to API unavailability"%string;
          ar_needs_reply := Some false;
          ar_is_fallback := Some true |}
  else {| ar_category := Some "Personal"%string;
          ar_priority := Some "Medium"%string;
          ar_reply := Some (ack_reply sender subject);
          ar_reasoning := Some "Fallback due to API unavailability"%string;
          ar_needs_reply := Some true;
          ar_is_fallback := Some true |}.

Definition no_reply_result : AiResult :=
  {| ar_category := Some "Newsletter"%string;
     ar_priority := Some "Low"%string;
     ar_reply := Some "No reply needed"%string;
     ar_reasoning := Some "Automated no-reply sender"%string;
     ar_needs_reply := Some false;
     ar_is_fallback := None |}.

(** [analyze_email(sender, subject, body)]: the dict returned and the
    API requests made.  [api] answers the request, should one be made.
    The [rate_limit] decorator around it only delays the call (see
    [RateLimit]); it does not change what is returned. *)
Definition analyze_email (ack_reply : string -> string -> string)
           (api : string -> string -> string -> ApiOutcome)
           (sender subject body : string) : AiResult * list event :=
  if _is_no_reply_sender sender then (no_reply_result, [])
  else
    match api sender subject body with
    | ApiParsed r => (r, [EvApiCall sender subject])
    | ApiRaises =>
        (_generate_fallback_response ack_reply sender subject body,
         [EvApiCall sender subject])
    end.

End AiAgent.

(* ===================================================================== *)
(** * db_manager.py                                                       *)
(* ===================================================================== *)

Module DbManager.

(** One row of [email_history], keyed by [email_id].  The timestamp
    columns are left out. *)
Record Row := mkRow {
  row_sender : string;
  row_subject : string;
  row_body_snippet : string;
  row_category : string;
  row_priority : string;
  row_ai_response : AiResult;
  row_clean_reply : string;
  row_needs_reply : bool;
  row_sent : bool;
  row_archived : bool;
  row_deleted : bool;
  row_thread_id : string;
  row_is_fallback : bool
}.

(** The values bound by the INSERT of [save_email_analysis]; the columns
    not listed take their defaults. *)
Definition new_row (email_data : Message) (ai_result : AiResult) : Row :=
  {| row_sender := msg_sender email_data;
     row_subject := msg_subject email_data;
     row_body_snippet := msg_snippet email_data;
     row_category := get (ar_category ai_result) "Unknown"%string;
     row_priority := get (ar_priority ai_result) "Medium"%string;
     row_ai_response := ai_result;
     row_clean_reply := get (ar_reply ai_result) ""%string;
     row_needs_reply := get (ar_needs_reply ai_result) false;
     row_sent := false;
     row_archived := false;
     row_deleted := false;
     row_thread_id := msg_thread_id email_data;
     row_is_fallback := get (ar_is_fallback ai_result) false |}.

(** What one attempt at the INSERT does. *)
Inductive WriteOutcome :=
| WriteOk                (* committed *)
| WriteLocked            (* sqlite3.OperationalError, 'locked' in message *)
| WriteOperational       (* any other sqlite3.OperationalError *)
| WriteOtherError.       (* any other exception *)

(** The [for attempt in range(max_retries)] loop; [todo] counts the
    iterations left and [attempt] is the loop variable. *)
Fixpoint save_attempts (outcome : nat -> WriteOutcome) (max_retries : nat)
         (todo attempt : nat) (db : gmap string Row)
         (email_id : string) (r : Row)
  : bool * gmap string Row * list event :=
  match todo with
  | O => (false, db, [])
  | S todo' =>
      match outcome attempt with
      | WriteOk => (true, <[email_id := r]> db, [EvDbWrite email_id attempt])
      | WriteLocked =>
          if (attempt <? max_retries - 1)%nat then
            let '(ok, db', evs) :=
              save_attempts outcome max_retries todo' (S attempt) db email_id r in
            (ok, db',
             EvDbWrite email_id attempt
               :: EvSleep (500 * (Z.of_nat attempt + 1)) :: evs)
          else (false, db, [EvDbWrite email_id attempt])
      | WriteOperational | WriteOtherError =>
          (false, db, [EvDbWrite email_id attempt])
      end
  end.

Definition max_retries : nat := 3.

Definition save_email_analysis (outcome : nat -> WriteOutcome)
           (db : gmap string Row) (email_id : string)
           (email_data : Message) (ai_result : AiResult)
  : bool * gmap string Row * list event :=
  save_attempts outcome max_retries max_retries 0 db email_id
                (new_row email_data ai_result).

(** What the SELECT does. *)
Inductive ReadOutcome :=
| ReadOk                 (* the query ran *)
| ReadRaises.            (* connecting or querying raised *)

Definition get_email_analysis (q : ReadOutcome) (db : gmap string Row)
           (email_id : string) : option Row :=
  match q with
  | ReadOk => db !! email_id
  | ReadRaises => None
  end.

End DbManager.

(* ===================================================================== *)
(** * fast_scan.py                                                        *)
(* ===================================================================== *)

Module FastScan.
Import DbManager.

(** The outside world as one task meets it. *)
Record TaskEnv := mkTaskEnv {
  te_read : ReadOutcome;
  te_api : string -> string -> string -> AiAgent.ApiOutcome;
  te_write : nat -> WriteOutcome;
  te_draft : GwOutcome
}.

(** The ['status'] of the dict a task returns. *)
Inductive Status := StProcessed | StCached | StError.

Record TaskResult := mkTaskResult {
  tr_status : Status;
  tr_email_id : string
}.

Section Scanner.
Variable ack_reply : string -> string -> string.

Definition process_single_email (env : TaskEnv) (db : gmap string Row)
           (email : Message)
  : TaskResult * gmap string Row * list event :=
  let email_id := msg_id email in
  match get_email_analysis (te_read env) db email_id with
  | Some _ => (mkTaskResult StCached email_id, db, [])
  | None =>
      let '(ai_result, ev_ai) :=
        AiAgent.analyze_email ack_reply (te_api env)
          (msg_sender email) (msg_subject email) (msg_body email) in
      let '(_, db', ev_db) :=
        save_email_analysis (te_write env) db email_id email ai_result in
      if truthy_bool (ar_needs_reply ai_result)
         && truthy_str (ar_reply ai_result)
      then
        let ev_draft :=
          [EvDraft (msg_sender email) (msg_subject email) (te_draft env)] in
        match te_draft env with
        | GwReturns _ =>
            (mkTaskResult StProcessed email_id, db',
             ev_ai ++ ev_db ++ ev_draft)
        | GwRaises =>
            (mkTaskResult StError email_id, db',
             ev_ai ++ ev_db ++ ev_draft)
        end
      else (mkTaskResult StProcessed email_id, db', ev_ai ++ ev_db)
  end.

Record ScanReport := mkScanReport {
  processed : Z;
  cached : Z;
  errors : Z;
  total : Z
}.

(** The [for future in as_completed(...)] loop. *)
Definition count_result (results : ScanReport) (result : TaskResult)
  : ScanReport :=
  match tr_status result with
  | StProcessed =>
      mkScanReport (processed results + 1) (cached results)
                   (errors results) (total results)
  | StCached =>
      mkScanReport (processed results) (cached results + 1)
                   (errors results) (total results)
  | StError =>
      mkScanReport (processed results) (cached results)
                   (errors results + 1) (total results)
  end.

Definition tally (completed : list TaskResult) (results : ScanReport)
  : ScanReport :=
  fold_left count_result completed results.

(** The tasks of one batch, run one after the other in submission
    order against the shared store; [envs i] is what task [i] meets.
    Each event is tagged with the id of the message it belongs to. *)
Fixpoint run_tasks (envs : nat -> TaskEnv) (i : nat) (db : gmap string Row)
         (emails : list Message)
  : list TaskResult * gmap string Row * list (string * event) :=
  match emails with
  | [] => ([], db, [])
  | email :: rest =>
      let '(res, db1, evs) := process_single_email (envs i) db email in
      let '(ress, db2, evss) := run_tasks envs (S i) db1 rest in
      (res :: ress, db2, map (fun e => (msg_id email, e)) evs ++ evss)
  end.

(** [scan_parallel]: [emails] is what [fetch_unread_emails] returned. *)
Definition scan_parallel (envs : nat -> TaskEnv) (db : gmap string Row)
           (emails : list Message)
  : ScanReport * gmap string Row * list (string * event) :=
  let total := Z.of_nat (length emails) in
  if total =? 0 then (mkScanReport 0 0 0 0, db, [])
  else
    let '(completed, db', evs) := run_tasks envs 0 db emails in
    (tally completed (mkScanReport 0 0 0 total), db', evs).

(** Several scans in a row over the same store. *)
Fixpoint run_scans (envs : nat -> nat -> TaskEnv) (k : nat)
         (db : gmap string Row) (batches : list (list Message))
  : list ScanReport * gmap string Row * list (string * event) :=
  match batches with
  | [] => ([], db, [])
  | emails :: rest =>
      let '(rep, db1, evs) := scan_parallel (envs k) db emails in
      let '(reps, db2, evss) := run_scans envs (S k) db1 rest in
      (rep :: reps, db2, evs ++ evss)
  end.

End Scanner.

(** How many API requests a log holds for the message [x]. *)
Definition api_calls_for (x : string) (log : list (string * event)) : nat :=
  length (filter (fun p => p.1 = x /\ is_api_call p.2 = true) log).

End FastScan.

(* ===================================================================== *)
(** * Runs of the rate limiter                                            *)
(* ===================================================================== *)

Module RateLimit.
Import AiAgent.

(** One pass through [wrapper] by a worker that is alone in it.  The worker
    arrives when the clock reads [now]; [time.sleep(d)] returns no earlier
    than [d] later, and the timestamp is read [lag] after that.  The result
    is the new [calls_made], the timestamp appended (the moment the wrapped
    call is let through) and the sleep, if there was one. *)
Definition acquire (calls period now : Z) (lag : nat) (calls_made : list Z)
  : option (list Z * Z * list event) :=
  match wrapper_enter calls period now calls_made with
  | None => None
  | Some (pruned, None) =>
      let stamp := now + Z.of_nat lag in
      Some (wrapper_append stamp pruned, stamp, [])
  | Some (pruned, Some sleep_time) =>
      let stamp := now + sleep_time + Z.of_nat lag in
      Some (wrapper_append stamp pruned, stamp, [EvSleep sleep_time])
  end.

(** One acquisition as seen from outside: when the worker arrived, what
    sleeps it was put through, and the timestamp it was let through at. *)
Record Pass := mkPass {
  arrived : Z;
  slept : list event;
  stamp_of : Z
}.

(** Acquisitions made one after the other: each element of [arrivals] is
    the gap between the previous timestamp and the next arrival, and the
    lag of that acquisition.  Returns the passes in order. *)
Fixpoint run_sequential (calls period clock : Z) (calls_made : list Z)
         (arrivals : list (nat * nat)) : option (list Pass) :=
  match arrivals with
  | [] => Some []
  | (gap, lag) :: rest =>
      let now := clock + Z.of_nat gap in
      match acquire calls period now lag calls_made with
      | None => None
      | Some (calls_made', stamp, events) =>
          match run_sequential calls period stamp calls_made' rest with
          | None => None
          | Some passes => Some (mkPass now events stamp :: passes)
          end
      end
  end.

(** How many of [stamps] fall in the window [(t - period, t]]. *)
Definition in_window (period t : Z) (stamps : list Z) : Z :=
  Z.of_nat (length (filter (fun s => t - period < s /\ s <= t) stamps)).

(** How many of [stamps] are later than [x]. *)
Definition count_after (x : Z) (stamps : list Z) : nat :=
  length (filter (fun c => x < c) stamps).

(** What holds between two acquisitions: [clock] is the latest reading,
    [calls_made] the limiter's list and [history] every timestamp it has
    ever appended. *)
Record limiter_inv (calls period clock : Z) (calls_made history : list Z)
  : Prop := mkLimiterInv {
  inv_past : forall h, h ∈ history -> h <= clock;
  inv_recent : forall x, clock - period <= x ->
                         count_after x calls_made = count_after x history;
  inv_kept : forall x, clock - period <= x ->
                       filter (fun c => x < c) calls_made
                       = filter (fun c => x < c) history;
  inv_window : forall t, in_window period t history <= calls
}.

(** What an acquisition does when the worker arrives at [now] and
    [earlier] holds the timestamps given out so far: with [calls] of them
    still inside the window it sleeps until the oldest of these leaves the
    window, and otherwise it does not sleep. *)
Definition sleeps_as_needed (calls period now : Z) (earlier : list Z)
           (events : list event) (stamp : Z) : Prop :=
  let recent := filter (fun s => now - period < s) earlier in
  if Z.of_nat (length recent) >=? calls
  then exists oldest,
         head recent = Some oldest
         /\ 0 < period - (now - oldest)
         /\ events = [EvSleep (period - (now - oldest))]
         /\ now + (period - (now - oldest)) <= stamp
  else events = [] /\ now <= stamp.

(** Workers sharing the limiter.  [calls_made] is read and written without
    a lock, so another worker can run between the two halves of [wrapper]. *)
Inductive action :=
| Enter (worker : nat) (now : Z)       (* prune, test, start sleeping *)
| Append (worker : nat) (stamp : Z).   (* wake up, append time.time() *)

Record Shared := mkShared {
  sh_clock : Z;                        (* latest clock reading *)
  sh_calls_made : list Z;
  sh_waking : gmap nat Z;              (* worker -> earliest wake-up time *)
  sh_stamps : list Z                   (* every timestamp appended so far *)
}.

(** One scheduling step; [None] when the step cannot happen (the clock
    would run backwards, the worker is in the wrong half, it would wake up
    early) or when [wrapper] raises. *)
Definition step (calls period : Z) (a : action) (s : Shared) : option Shared :=
  match a with
  | Enter w now =>
      if bool_decide (sh_clock s <= now /\ sh_waking s !! w = None) then
        match wrapper_enter calls period now (sh_calls_made s) with
        | None => None
        | Some (pruned, sl) =>
            Some (mkShared now pruned
                    (<[w := now + default 0 sl]> (sh_waking s)) (sh_stamps s))
        end
      else None
  | Append w stamp =>
      match sh_waking s !! w with
      | Some wake =>
          if bool_decide (sh_clock s <= stamp /\ wake <= stamp) then
            Some (mkShared stamp (wrapper_append stamp (sh_calls_made s))
                    (delete w (sh_waking s)) (sh_stamps s ++ [stamp]))
          else None
      | None => None
      end
  end.

Fixpoint run_interleaved (calls period : Z) (sched : list action) (s : Shared)
  : option Shared :=
  match sched with
  | [] => Some s
  | a :: rest =>
      match step calls period a s with
      | None => None
      | Some s' => run_interleaved calls period rest s'
      end
  end.

Definition idle (clock : Z) : Shared := mkShared clock [] ∅ [].

(** The schedule in which worker 0 makes the acquisitions of
    [run_sequential] alone. *)
Fixpoint alone (calls period clock : Z) (calls_made : list Z)
         (arrivals : list (nat * nat)) : list action :=
  match arrivals with
  | [] => []
  | (gap, lag) :: rest =>
      let now := clock + Z.of_nat gap in
      match acquire calls period now lag calls_made with
      | None => []
      | Some (calls_made', stamp, _) =>
          Enter 0 now :: Append 0 stamp
            :: alone calls period stamp calls_made' rest
      end
  end.

End RateLimit.

(* ===================================================================== *)
(** * ultimate_app.py                                                     *)
(* ===================================================================== *)

(** What one message's processing meets in the front-ends: the Groq API
    and the Gmail gateway ([gw_archive k] answers the [k]-th call of
    [archive_email] made for the message). *)
Record AppEnv := mkAppEnv {
  ae_api : string -> string -> string -> AiAgent.ApiOutcome;
  gw_archive : nat -> GwOutcome;
  gw_trash : GwOutcome;
  gw_draft : GwOutcome
}.

(** An entry of [EMAIL_CACHE] (without its timestamp). *)
Record CacheEntry := mkCacheEntry {
  ce_sender : string;
  ce_subject : string;
  ce_category : string;
  ce_reply : string;
  ce_priority : string;
  ce_autopilot_action : option string
}.

(** [category == name] for a category read with [.get('category')]. *)
Definition cat_is (category : option string) (name : string) : bool :=
  match category with
  | Some c => Py.str_eq c name
  | None => false
  end.

Module UltimateApp.

Definition urgent_keywords : list string :=
  ["urgent"; "asap"; "immediate"; "deadline"; "critical"; "overdue";
   "security"; "alert"; "verify"; "password"; "login"]%string.

Definition calculate_priority (email_data : Message) (ai_result : AiResult)
  : string :=
  let score := 0 in
  let subject_lower := Py.lower (msg_subject email_data) in
  let score := if Py.any_in urgent_keywords subject_lower
               then score + 30 else score in
  let cat := get (ar_category ai_result) ""%string in
  let score :=
    if Py.str_eq cat "Important" then score + 40
    else if Py.str_eq cat "Personal" then score + 20
    else if Py.str_eq cat "Spam" then score - 50
    else score in
  let ai_prio := get (ar_priority ai_result) "Low"%string in
  let score :=
    if Py.str_eq ai_prio "High" then score + 30
    else if Py.str_eq ai_prio "Medium" then score + 15
    else score in
  if score >=? 50 then "HIGH"%string
  else if score >=? 25 then "MEDIUM"%string
  else "LOW"%string.

(** [AUTO_PILOT_SETTINGS]: ['enabled'] and the ['rules'] dict, whose
    entries are read with [rules.get]. *)
Record AutoPilotSettings := mkAutoPilotSettings {
  enabled : bool;
  archive_newsletters : option bool;
  delete_spam : option bool;
  archive_low_priority : option bool
}.

Definition apply_autopilot_rules (settings : AutoPilotSettings) (env : AppEnv)
           (email_id : string) (category : option string) (priority : string)
  : option string * list event :=
  if negb (enabled settings) then (None, [])
  else if truthy_bool (archive_newsletters settings)
          && cat_is category "Newsletter" then
    match gw_archive env 0%nat with
    | GwReturns ok =>
        (Some "Archived (Newsletter)"%string,
         [EvArchive email_id (GwReturns ok)])
    | GwRaises => (None, [EvArchive email_id GwRaises])
    end
  else if truthy_bool (delete_spam settings) && cat_is category "Spam" then
    match gw_trash env with
    | GwReturns ok =>
        (Some "Deleted (Spam)"%string, [EvTrash email_id (GwReturns ok)])
    | GwRaises => (None, [EvTrash email_id GwRaises])
    end
  else if truthy_bool (archive_low_priority settings)
          && Py.str_eq priority "LOW"
          && negb (cat_is category "Important" || cat_is category "Personal")
  then
    match gw_archive env 0%nat with
    | GwReturns ok =>
        (Some "Archived (Low Prio)"%string,
         [EvArchive email_id (GwReturns ok)])
    | GwRaises => (None, [EvArchive email_id GwRaises])
    end
  else (None, []).

(** The draft request of [process_email]; evaluating [ai_res['reply']]
    raises [KeyError] before any request when the key is missing, and the
    bare [except] swallows whatever is raised. *)
Definition request_draft (env : AppEnv) (email : Message) (ai_res : AiResult)
  : list event :=
  match ar_reply ai_res with
  | Some _ => [EvDraft (msg_sender email) (msg_subject email) (gw_draft env)]
  | None => []
  end.

(** [process_email]: the dict returned ([None] for a snoozed message; the
    boolean is its ['cached'] entry), the new [EMAIL_CACHE], the events.
    The counters of [ANALYTICS_DATA] are left out. *)
Definition process_email (ack_reply : string -> string -> string)
           (settings : AutoPilotSettings) (env : AppEnv)
           (snoozed : gset string) (cache : gmap string CacheEntry)
           (email : Message)
  : option (CacheEntry * bool) * gmap string CacheEntry * list event :=
  let email_id := msg_id email in
  if bool_decide (email_id ∈ snoozed) then (None, cache, [])
  else
    match cache !! email_id with
    | Some entry => (Some (entry, true), cache, [])
    | None =>
        let '(ai_res, ev_ai) :=
          AiAgent.analyze_email ack_reply (ae_api env)
            (msg_sender email) (msg_subject email) (msg_snippet email) in
        let priority := calculate_priority email ai_res in
        let '(auto_action, ev_auto) :=
          apply_autopilot_rules settings env email_id
            (ar_category ai_res) priority in
        let ev_draft :=
          if truthy_bool (ar_needs_reply ai_res) && negb (truthy_str auto_action)
          then request_draft env email ai_res else [] in
        let data :=
          {| ce_sender := msg_sender email;
             ce_subject := msg_subject email;
             ce_category := get (ar_category ai_res) "Unknown"%string;
             ce_reply := get (ar_reply ai_res) "No reply needed"%string;
             ce_priority := priority;
             ce_autopilot_action := auto_action |} in
        (Some (data, false), <[email_id := data]> cache,
         ev_ai ++ ev_auto ++ ev_draft)
    end.

End UltimateApp.

(* ===================================================================== *)
(** * working_app.py                                                      *)
(* ===================================================================== *)

Module WorkingApp.

Definition urgent_keywords : list string :=
  ["urgent"; "asap"; "immediate"; "deadline"; "important"; "critical"]%string.

(** The [for word in urgent_keywords] loop. *)
Definition keyword_points (subject_lower : string) : Z :=
  fold_left (fun priority_score word =>
               if Py.contains word subject_lower
               then priority_score + 15 else priority_score)
            urgent_keywords 0.

Definition calculate_priority (email_data : Message) (ai_result : AiResult)
  : string :=
  let subject_lower := Py.lower (msg_subject email_data) in
  let priority_score := keyword_points subject_lower in
  let category := get (ar_category ai_result) ""%string in
  let priority_score :=
    if Py.str_eq category "Important" then priority_score + 40
    else if Py.str_eq category "Personal" then priority_score + 20
    else priority_score in
  let priority_score :=
    if cat_is (ar_priority ai_result) "High" then priority_score + 30
    else if cat_is (ar_priority ai_result) "Medium" then priority_score + 15
    else priority_score in
  if priority_score >=? 50 then "HIGH"%string
  else if priority_score >=? 20 then "MEDIUM"%string
  else "LOW"%string.

(** [AUTO_PILOT_SETTINGS]: a flat dict; the three rule keys are read with
    [.get(key, default)]. *)
Record AutoPilotSettings := mkAutoPilotSettings {
  enabled : bool;
  auto_archive_newsletters : option bool;
  auto_delete_spam : option bool;
  auto_archive_low_priority : option bool
}.

(** The local state of the [try] block of [apply_autopilot]. *)
Record Pilot := mkPilot {
  action_taken : option string;
  pilot_events : list event;
  archive_calls : nat;
  raised : bool
}.

Definition call_archive (env : AppEnv) (email_id label : string) (p : Pilot)
  : Pilot :=
  let o := gw_archive env (archive_calls p) in
  match o with
  | GwReturns _ =>
      mkPilot (Some label) (pilot_events p ++ [EvArchive email_id o])
              (S (archive_calls p)) false
  | GwRaises =>
      mkPilot (action_taken p) (pilot_events p ++ [EvArchive email_id o])
              (S (archive_calls p)) true
  end.

Definition call_trash (env : AppEnv) (email_id label : string) (p : Pilot)
  : Pilot :=
  let o := gw_trash env in
  match o with
  | GwReturns _ =>
      mkPilot (Some label) (pilot_events p ++ [EvTrash email_id o])
              (archive_calls p) false
  | GwRaises =>
      mkPilot (action_taken p) (pilot_events p ++ [EvTrash email_id o])
              (archive_calls p) true
  end.

(** A statement of the [try] block: skipped once an exception is under way. *)
Definition stmt (cond : bool) (body : Pilot -> Pilot) (p : Pilot) : Pilot :=
  if raised p then p else if cond then body p else p.

Definition apply_autopilot (settings : AutoPilotSettings) (env : AppEnv)
           (email_id : string) (category : option string) (priority : string)
  : option string * list event :=
  if negb (enabled settings) then (None, [])
  else
    let p := mkPilot None [] 0 false in
    let p := stmt (get (auto_archive_newsletters settings) true
                   && cat_is category "Newsletter")
                  (call_archive env email_id "Auto-archived (Newsletter)") p in
    let p := stmt (get (auto_delete_spam settings) true
                   && cat_is category "Spam")
                  (call_trash env email_id "Auto-deleted (Spam)") p in
    let p := stmt (get (auto_archive_low_priority settings) false
                   && Py.str_eq priority "LOW"
                   && negb (cat_is category "Important"
                            || cat_is category "Personal"))
                  (call_archive env email_id "Auto-archived (Low Priority)") p in
    (action_taken p, pilot_events p).

(** What the [try] block keeps true: an action is on record as soon as one
    gateway call has gone through. *)
Definition pilot_ok (p : Pilot) : Prop :=
  existsb action_done (pilot_events p) = true ->
  truthy_str (action_taken p) = true.

Definition request_draft (env : AppEnv) (email : Message) (ai_result : AiResult)
  : list event :=
  match ar_reply ai_result with
  | Some _ => [EvDraft (msg_sender email) (msg_subject email) (gw_draft env)]
  | None => []
  end.

(** [process_email_with_analytics] *)
Definition process_email_with_analytics
           (ack_reply : string -> string -> string)
           (settings : AutoPilotSettings) (env : AppEnv)
           (snoozed : gset string) (cache : gmap string CacheEntry)
           (email : Message)
  : option (CacheEntry * bool) * gmap string CacheEntry * list event :=
  let email_id := msg_id email in
  if bool_decide (email_id ∈ snoozed) then (None, cache, [])
  else
    match cache !! email_id with
    | Some cached =>
        (Some (mkCacheEntry (msg_sender email) (msg_subject email)
                 (ce_category cached) (ce_reply cached) (ce_priority cached)
                 (ce_autopilot_action cached), true),
         cache, [])
    | None =>
        let '(ai_result, ev_ai) :=
          AiAgent.analyze_email ack_reply (ae_api env)
            (msg_sender email) (msg_subject email) (msg_snippet email) in
        let priority := calculate_priority email ai_result in
        let '(autopilot_action, ev_auto) :=
          apply_autopilot settings env email_id
            (ar_category ai_result) priority in
        let data :=
          {| ce_sender := msg_sender email;
             ce_subject := msg_subject email;
             ce_category := get (ar_category ai_result) "Unknown"%string;
             ce_reply := get (ar_reply ai_result) "No reply needed"%string;
             ce_priority := priority;
             ce_autopilot_action := autopilot_action |} in
        let ev_draft :=
          if truthy_bool (ar_needs_reply ai_result)
             && negb (truthy_str autopilot_action)
          then request_draft env email ai_result else [] in
        (Some (data, false), <[email_id := data]> cache,
         ev_ai ++ ev_auto ++ ev_draft)
    end.

End WorkingApp.

(* ===================================================================== *)
(** * enterprise_app.py                                                   *)
(* ===================================================================== *)

Module EnterpriseApp.

(** The messages [manager.broadcast] is asked to send. *)
Inductive Broadcast :=
| ScanStarted
| ScanProgress (total processed : Z)
| ScanCompleted (count : Z)
| ScanFailed.

(** What a scan does to the outside; [holding] is the value of
    [app.state.processing] at that moment. *)
Inductive scan_event :=
| SeBroadcast (b : Broadcast) (holding : bool)
| SeFetch (max_results : Z) (holding : bool)
| SeTask (i : nat) (holding : bool)        (* a worker of the pool *)
| SePoolDone (holding : bool).             (* the pool has shut down *)

(** The result of one [future.result()]: the task's return value is
    truthy, or falsy ([None]), or the call raises. *)
Inductive FutureOutcome := FutTruthy | FutFalsy | FutRaises.

Record ScanEnv := mkScanEnv {
  se_broadcast_raises : Broadcast -> bool;
  se_fetch : option (list Message);        (* [None]: the fetch raises *)
  se_future : nat -> FutureOutcome
}.

Record AppState := mkAppState { processing : bool }.

Inductive Response :=
| AlreadyProcessing
| Success (emails_found emails_processed : Z)
| Http500.

(** Computations of the handler: state and log are threaded, and [None]
    in the first component means an exception (a subclass of [Exception])
    is propagating. *)
Definition M (A : Type) : Type :=
  AppState -> list scan_event -> option A * AppState * list scan_event.

Definition ret {A} (a : A) : M A := fun st log => (Some a, st, log).
Definition raise {A} : M A := fun st log => (None, st, log).
Definition bind {A B} (m : M A) (k : A -> M B) : M B :=
  fun st log =>
    match m st log with
    | (Some a, st', log') => k a st' log'
    | (None, st', log') => (None, st', log')
    end.
Definition try_except {A} (body handler : M A) : M A :=
  fun st log =>
    match body st log with
    | (Some a, st', log') => (Some a, st', log')
    | (None, st', log') => handler st' log'
    end.

#[local] Instance M_ret : MRet M := @ret.
#[local] Instance M_bind : MBind M := fun A B k m => bind m k.

Definition set_processing (b : bool) : M unit :=
  fun _ log => (Some tt, mkAppState b, log).

Definition broadcast (env : ScanEnv) (b : Broadcast) : M unit :=
  fun st log =>
    let log' := log ++ [SeBroadcast b (processing st)] in
    if se_broadcast_raises env b then (None, st, log') else (Some tt, st, log').

Definition fetch_unread_emails (env : ScanEnv) (max_results : Z)
  : M (list Message) :=
  fun st log =>
    (se_fetch env, st, log ++ [SeFetch max_results (processing st)]).

(** The list comprehension of [executor.submit]: one worker per message,
    started inside the [with ThreadPoolExecutor] block. *)
Definition submit_all (n : nat) : M unit :=
  fun st log =>
    (Some tt, st, log ++ map (fun i => SeTask i (processing st)) (seq 0 n)).

(** The [for i, future in enumerate(futures, 1)] loop; [i] is the index of
    the next future, counted from 0.  When [future.result()] raises, the
    [with] block is left, which waits for the workers still running, and
    only then does the exception reach the handler. *)
Fixpoint collect (env : ScanEnv) (total : Z) (todo : nat) (i : nat)
         (processed_count : Z) : M Z :=
  match todo with
  | O => mret processed_count
  | S todo' =>
      match se_future env i with
      | FutRaises => raise
      | FutTruthy =>
          broadcast env (ScanProgress total (Z.of_nat i + 1)) ;;
          collect env total todo' (S i) (processed_count + 1)
      | FutFalsy =>
          broadcast env (ScanProgress total (Z.of_nat i + 1)) ;;
          collect env total todo' (S i) processed_count
      end
  end.

(** The [with ThreadPoolExecutor(...) as executor] block: however its body
    ends, leaving the block shuts the pool down, which waits for every
    worker submitted; an exception of the body goes on after that. *)
Definition with_pool {A} (body : M A) : M A :=
  fun st log =>
    let '(r, st', log') := body st log in
    (r, st', log' ++ [SePoolDone (processing st')]).

(** The event happened while the flag was up.  The broadcasts are the
    awaits of the handler, where another request can be served. *)
Definition under_flag (e : scan_event) : bool :=
  match e with
  | SeBroadcast _ holding | SeFetch _ holding | SeTask _ holding
  | SePoolDone holding => holding
  end.

(** The broadcast that ends a scan, made after the flag has come down. *)
Definition closing_broadcast (e : scan_event) : bool :=
  match e with
  | SeBroadcast (ScanCompleted _) holding | SeBroadcast ScanFailed holding =>
      negb holding
  | _ => false
  end.

Definition is_task (e : scan_event) : bool :=
  match e with SeTask _ _ => true | _ => false end.

(** [scan_inbox] *)
Definition scan_inbox (env : ScanEnv) (max_emails : Z) : M Response :=
  fun st log =>
    if processing st then (Some AlreadyProcessing, st, log)
    else
      try_except
        (set_processing true ;;
         broadcast env ScanStarted ;;
         raw_emails ← fetch_unread_emails env max_emails ;
         match raw_emails with
         | [] =>
             set_processing false ;;
             broadcast env (ScanCompleted 0) ;;
             mret (Success 0 0)
         | _ :: _ =>
             let n := Z.of_nat (length raw_emails) in
             broadcast env (ScanProgress n 0) ;;
             processed_count ←
               with_pool (submit_all (length raw_emails) ;;
                          collect env n (length raw_emails) 0%nat 0) ;
             set_processing false ;;
             broadcast env (ScanCompleted processed_count) ;;
             mret (Success n processed_count)
         end)
        (set_processing false ;;
         broadcast env ScanFailed ;;
         mret Http500)
        st log.

End EnterpriseApp.

(* ===================================================================== *)
(** * The priority scorer as the specification words it                   *)
(* ===================================================================== *)

Module ScorerSpec.

Definition urgency_keywords : list string :=
  ["urgent"; "asap"; "immediate"; "deadline"; "critical"; "overdue";
   "security"; "alert"; "verify"; "password"; "login"]%string.

Definition keyword_bonus (subject : string) : Z :=
  if existsb (fun k => Py.contains k (Py.lower subject)) urgency_keywords
  then 30 else 0.

Definition category_bonus (category : string) : Z :=
  if Py.str_eq category "Important" then 40
  else if Py.str_eq category "Personal" then 20
  else if Py.str_eq category "Spam" then -50
  else 0.

Definition hint_bonus (hint : string) : Z :=
  if Py.str_eq hint "High" then 30
  else if Py.str_eq hint "Medium" then 15
  else 0.

Definition weighted_sum (subject category hint : string) : Z :=
  keyword_bonus subject + category_bonus category + hint_bonus hint.

Definition bucket (total : Z) : string :=
  if 50 <=? total then "HIGH"%string
  else if 25 <=? total then "MEDIUM"%string
  else "LOW"%string.

Definition score (subject category hint : string) : string :=
  bucket (weighted_sum subject category hint).

(** The older scheme: 15 points for each keyword found, no penalty for
    spam, and a lower floor for the middle bucket. *)
Definition variant_keywords : list string :=
  ["urgent"; "asap"; "immediate"; "deadline"; "important"; "critical"]%string.

Definition variant_keyword_bonus (subject : string) : Z :=
  15 * Z.of_nat (length (filter (fun k => Py.contains k (Py.lower subject) = true)
                                variant_keywords)).

Definition variant_category_bonus (category : string) : Z :=
  if Py.str_eq category "Important" then 40
  else if Py.str_eq category "Personal" then 20
  else 0.

Definition variant_bucket (total : Z) : string :=
  if 50 <=? total then "HIGH"%string
  else if 20 <=? total then "MEDIUM"%string
  else "LOW"%string.

(** An absent hint counts for nothing, like any hint other than High and
    Medium. *)
Definition variant_score (subject category : string) (hint : option string)
  : string :=
  variant_bucket (variant_keyword_bonus subject
                  + variant_category_bonus category
                  + hint_bonus (default "Low"%string hint)).

End ScorerSpec.

(* ===================================================================== *)
(** * Concrete inputs used by the examples                                *)
(* ===================================================================== *)

Module Examples.

Definition ack : string -> string -> string := fun _ _ => "Thank you"%string.

Definition message (id sender subject : string) : Message :=
  mkMessage id sender subject "" "" "".

Definition verdict (category priority reply : string) (needs_reply : bool)
  : AiResult :=
  mkAiResult (Some category) (Some priority) (Some reply) None
             (Some needs_reply) None.

(** An API that classifies everything as important and wants a reply. *)
Definition api_important : string -> string -> string -> AiAgent.ApiOutcome :=
  fun _ _ _ => AiAgent.ApiParsed (verdict "Important" "High" "On it." true).

(** An API that classifies everything as spam and (wrongly) asks for a reply. *)
Definition api_spam : string -> string -> string -> AiAgent.ApiOutcome :=
  fun _ _ _ => AiAgent.ApiParsed (verdict "Spam" "Low" "Interesting" true).

Definition all_rules_on : WorkingApp.AutoPilotSettings :=
  WorkingApp.mkAutoPilotSettings true (Some true) (Some true) (Some true).

Definition ultimate_rules_on : UltimateApp.AutoPilotSettings :=
  UltimateApp.mkAutoPilotSettings true (Some true) (Some true) (Some true).

(** A gateway on which every call goes through. *)
Definition gateway_ok
           (api : string -> string -> string -> AiAgent.ApiOutcome) : AppEnv :=
  mkAppEnv api (fun _ => GwReturns true) (GwReturns true) (GwReturns true).

(** A batch of twenty messages with the ids A, B, ..., T. *)
Definition nth_message (i : nat) : Message :=
  mkMessage (String (ascii_of_nat (65 + i)) EmptyString)
            "alice@example.com" "Hello" "" "" "".

Definition batch20 : list Message := map nth_message (seq 0 20).

Definition task_ok : FastScan.TaskEnv :=
  FastScan.mkTaskEnv DbManager.ReadOk api_important
                     (fun _ => DbManager.WriteOk) (GwReturns true).

(** Every attempt to write finds the database locked. *)
Definition task_locked : FastScan.TaskEnv :=
  FastScan.mkTaskEnv DbManager.ReadOk api_important
                     (fun _ => DbManager.WriteLocked) (GwReturns true).

(** The lookup raises inside [get_email_analysis]. *)
Definition task_read_fails : FastScan.TaskEnv :=
  FastScan.mkTaskEnv DbManager.ReadRaises api_important
                     (fun _ => DbManager.WriteOk) (GwReturns true).

(** Task 7 of the batch (message H) cannot write; the others can. *)
Definition one_locked (i : nat) : FastScan.TaskEnv :=
  if Nat.eqb i 7 then task_locked else task_ok.

(** Two workers in the limiter at once, with one call allowed a minute. *)
Definition race : list RateLimit.action :=
  [RateLimit.Enter 1 0; RateLimit.Enter 2 1;
   RateLimit.Append 1 2; RateLimit.Append 2 3].

(** The configuration of [analyze_email], 30 calls a minute: 29 calls one
    millisecond apart, then two workers in the limiter at once. *)
Definition burst : list RateLimit.action :=
  RateLimit.alone 30 60000 0 [] (replicate 29 (1%nat, 0%nat))
  ++ [RateLimit.Enter 1 30; RateLimit.Enter 2 31;
      RateLimit.Append 1 32; RateLimit.Append 2 33].

(** The first scan runs undisturbed, the lookups of the second one fail. *)
Definition second_scan_cannot_read (k i : nat) : FastScan.TaskEnv :=
  if Nat.eqb k 0 then task_ok else task_read_fails.

(** In every scan the lookup of task 0 runs and those of the other tasks
    fail. *)
Definition other_lookups_fail (k i : nat) : FastScan.TaskEnv :=
  if Nat.eqb i 0 then task_ok else task_read_fails.

End Examples.


(* ===================================================================== *)
(** * More Python string primitives                                       *)
(* ===================================================================== *)

Module PyStr.

(** The line feed, ["\n"]. *)
Definition LF : ascii := ascii_of_nat 10.

(** The strings here are sequences of bytes; they stand for Python strings
    whose characters are all ASCII, which [ascii_only] says. *)
Fixpoint ascii_only (s : string) : bool :=
  match s with
  | EmptyString => true
  | String c s' => Nat.ltb (nat_of_ascii c) 128 && ascii_only s'
  end.

(** [c.isspace()] for an ASCII character: tab to carriage return, the four
    separators and the space. *)
Definition is_space (c : ascii) : bool :=
  let n := nat_of_ascii c in
  (Nat.leb 9 n && Nat.leb n 13) || (Nat.leb 28 n && Nat.leb n 32).

(** [s.lstrip()], [s.rstrip()], [s.strip()] *)
Fixpoint lstrip (s : string) : string :=
  match s with
  | EmptyString => EmptyString
  | String c s' => if is_space c then lstrip s' else s
  end.

Fixpoint rstrip (s : string) : string :=
  match s with
  | EmptyString => EmptyString
  | String c s' =>
      match rstrip s' with
      | EmptyString => if is_space c then EmptyString else String c EmptyString
      | r => String c r
      end
  end.

Definition strip (s : string) : string := rstrip (lstrip s).

(** [s.split(sep)] for a separator of one character. *)
Fixpoint split_char (sep : ascii) (s : string) : list string :=
  match s with
  | EmptyString => [EmptyString]
  | String c s' =>
      if Ascii.eqb c sep then EmptyString :: split_char sep s'
      else match split_char sep s' with
           | w :: ws => String c w :: ws
           | [] => [String c EmptyString]
           end
  end.

(** [s.split(sep, 1)] *)
Fixpoint split_once (sep : ascii) (s : string) : list string :=
  match s with
  | EmptyString => [EmptyString]
  | String c s' =>
      if Ascii.eqb c sep then [EmptyString; s']
      else match split_once sep s' with
           | w :: ws => String c w :: ws
           | [] => [String c EmptyString]
           end
  end.

(** [s.startswith(p)] *)
Definition startswith (p s : string) : bool := String.prefix p s.

(** [s.index(c)] and [s.rindex(c)]; [None] is the [ValueError]. *)
Fixpoint index_of (c : ascii) (s : string) : option nat :=
  match s with
  | EmptyString => None
  | String a s' => if Ascii.eqb a c then Some 0%nat else S <$> index_of c s'
  end.

Fixpoint rindex_of (c : ascii) (s : string) : option nat :=
  match s with
  | EmptyString => None
  | String a s' =>
      match rindex_of c s' with
      | Some i => Some (S i)
      | None => if Ascii.eqb a c then Some 0%nat else None
      end
  end.

(** [s[start:stop]] for indices within the string. *)
Definition slice (start stop : nat) (s : string) : string :=
  String.substring start (stop - start) s.

(** No character of [s] is [c]. *)
Fixpoint free_of (c : ascii) (s : string) : bool :=
  match s with
  | EmptyString => true
  | String a s' => negb (Ascii.eqb a c) && free_of c s'
  end.

End PyStr.

(* ===================================================================== *)
(** * ai_agent.py: parsing the completion                                 *)
(* ===================================================================== *)

Module AiAgentParse.
Import PyStr.

(** [line.split(':', 1)[1].strip()]; [None] is the [IndexError] of a line
    without a colon. *)
Definition after_colon (line : string) : option string :=
  strip <$> (split_once ":" line !! 1%nat).

(** The [for line in lines] loop of [_parse_text_response] over the
    variables [category], [priority] and [reply]. *)
Fixpoint scan_lines (lines : list string) (vars : string * string * string)
  : option (string * string * string) :=
  match lines with
  | [] => Some vars
  | line :: rest =>
      let '(category, priority, reply) := vars in
      if startswith "Category:" line then
        match after_colon line with
        | Some v => scan_lines rest (v, priority, reply)
        | None => None
        end
      else if startswith "Priority:" line then
        match after_colon line with
        | Some v => scan_lines rest (category, v, reply)
        | None => None
        end
      else if startswith "Reply:" line then
        match after_colon line with
        | Some v => scan_lines rest (category, priority, v)
        | None => None
        end
      else scan_lines rest vars
  end.

(** [_parse_text_response]; [None] stands for an exception. *)
Definition _parse_text_response (response_text : string) : option AiResult :=
  match scan_lines (split_char LF response_text)
                   ("Personal"%string, "Medium"%string, response_text) with
  | Some (category, priority, reply) =>
      Some {| ar_category := Some category;
              ar_priority := Some priority;
              ar_reply := Some reply;
              ar_reasoning := Some "Parsed from text format"%string;
              ar_needs_reply := Some (negb (Py.contains "No reply needed" reply));
              ar_is_fallback := None |}
  | None => None
  end.

(** [data['needs_reply'] = "No reply needed" not in data['reply']] *)
Definition with_needs_reply (data : AiResult) (reply : string) : AiResult :=
  {| ar_category := ar_category data;
     ar_priority := ar_priority data;
     ar_reply := ar_reply data;
     ar_reasoning := ar_reasoning data;
     ar_needs_reply := Some (negb (Py.contains "No reply needed" reply));
     ar_is_fallback := ar_is_fallback data |}.

(** [_parse_response].  [loads] is [json.loads] followed by the reading of
    the keys this program uses; it answers [None] when the text is not
    JSON (the [except] branch takes over). *)
Definition _parse_response (loads : string -> option AiResult)
           (response_text sender subject : string) : option AiResult :=
  if Py.contains "{" response_text && Py.contains "}" response_text then
    match index_of "{" response_text, rindex_of "}" response_text with
    | Some start, Some last =>
        let json_str := slice start (last + 1) response_text in
        match loads json_str with
        | Some data =>
            match ar_category data, ar_reply data with
            | Some _, Some reply =>
                match ar_needs_reply data with
                | Some _ => Some data
                | None => Some (with_needs_reply data reply)
                end
            | _, _ => _parse_text_response response_text
            end
        | None => _parse_text_response response_text
        end
    | _, _ => _parse_text_response response_text
    end
  else _parse_text_response response_text.

(** The API of [analyze_email] taken apart: [complete] is the chat
    completion (its stripped text, or [None] when the request raises) and
    [loads] the JSON decoder. *)
Definition groq_api (complete : string -> string -> string -> option string)
           (loads : string -> option AiResult)
  : string -> string -> string -> AiAgent.ApiOutcome :=
  fun sender subject body =>
    match complete sender subject body with
    | Some response_text =>
        match _parse_response loads response_text sender subject with
        | Some r => AiAgent.ApiParsed r
        | None => AiAgent.ApiRaises
        end
    | None => AiAgent.ApiRaises
    end.

(** The text the module-level [analyze_email] builds from a result;
    [None] is the [KeyError] of a missing ['category'] or ['reply']. *)
Definition legacy_format (result : AiResult) : option string :=
  match ar_category result, ar_reply result with
  | Some category, Some reply =>
      Some ("Category: " +:+ category +:+ String LF
              (match ar_priority result with
               | Some priority => "Priority: " +:+ priority +:+ String LF EmptyString
               | None => EmptyString
               end +:+ "Reply: " +:+ reply))
  | _, _ => None
  end.

(** The module-level [analyze_email(sender, subject, body)]. *)
Definition legacy_analyze_email (ack_reply : string -> string -> string)
           (complete : string -> string -> string -> option string)
           (loads : string -> option AiResult)
           (sender subject body : string) : option string :=
  legacy_format
    (AiAgent.analyze_email ack_reply (groq_api complete loads)
       sender subject body).1.

End AiAgentParse.

(* ===================================================================== *)
(** * db_manager.py: the other operations                                 *)
(* ===================================================================== *)

Module DbOps.
Import DbManager.

(** What an UPDATE, a DELETE or an INSERT of one statement does. *)
Inductive UpdateOutcome :=
| UpdateOk               (* committed *)
| UpdateRaises.          (* connecting, executing or committing raised *)

(** [SET sent = 1], [SET archived = 1], [SET deleted = 1] on one row. *)
Definition set_sent (r : Row) : Row :=
  mkRow (row_sender r) (row_subject r) (row_body_snippet r) (row_category r)
        (row_priority r) (row_ai_response r) (row_clean_reply r)
        (row_needs_reply r) true (row_archived r) (row_deleted r)
        (row_thread_id r) (row_is_fallback r).

Definition set_archived (r : Row) : Row :=
  mkRow (row_sender r) (row_subject r) (row_body_snippet r) (row_category r)
        (row_priority r) (row_ai_response r) (row_clean_reply r)
        (row_needs_reply r) (row_sent r) true (row_deleted r)
        (row_thread_id r) (row_is_fallback r).

Definition set_deleted (r : Row) : Row :=
  mkRow (row_sender r) (row_subject r) (row_body_snippet r) (row_category r)
        (row_priority r) (row_ai_response r) (row_clean_reply r)
        (row_needs_reply r) (row_sent r) (row_archived r) true
        (row_thread_id r) (row_is_fallback r).

(** [UPDATE email_history SET ... WHERE email_id = ?]: the rows that match
    (one or none) are changed. *)
Definition mark_as_sent (q : UpdateOutcome) (db : gmap string Row)
           (email_id : string) : bool * gmap string Row :=
  match q with
  | UpdateOk => (true, alter set_sent email_id db)
  | UpdateRaises => (false, db)
  end.

Definition mark_as_archived (q : UpdateOutcome) (db : gmap string Row)
           (email_id : string) : bool * gmap string Row :=
  match q with
  | UpdateOk => (true, alter set_archived email_id db)
  | UpdateRaises => (false, db)
  end.

Definition mark_as_deleted (q : UpdateOutcome) (db : gmap string Row)
           (email_id : string) : bool * gmap string Row :=
  match q with
  | UpdateOk => (true, alter set_deleted email_id db)
  | UpdateRaises => (false, db)
  end.

(** The three operations under one name. *)
Inductive Mark := Sent | Archived | Deleted.

Definition mark (m : Mark)
  : UpdateOutcome -> gmap string Row -> string -> bool * gmap string Row :=
  match m with
  | Sent => mark_as_sent
  | Archived => mark_as_archived
  | Deleted => mark_as_deleted
  end.

(** The column that a mark sets. *)
Definition flag_of (m : Mark) (r : Row) : bool :=
  match m with
  | Sent => row_sent r
  | Archived => row_archived r
  | Deleted => row_deleted r
  end.

(** The columns that only the INSERT writes. *)
Definition written_once (r : Row)
  : string * string * string * string * string * AiResult * string * bool
    * string * bool :=
  (row_sender r, row_subject r, row_body_snippet r, row_category r,
   row_priority r, row_ai_response r, row_clean_reply r, row_needs_reply r,
   row_thread_id r, row_is_fallback r).

(** [get_recent_emails(limit, include_deleted)].  The table is ordered by
    its [processed_at] column, which the rows here do not carry:
    [recency] lists the ids of the table from the most recent on. *)
Definition get_recent_emails (q : ReadOutcome) (recency : list string)
           (db : gmap string Row) (limit : nat) (include_deleted : bool)
  : list (string * Row) :=
  match q with
  | ReadRaises => []
  | ReadOk =>
      take limit
        (filter (fun p => include_deleted = true \/ row_deleted p.2 = false)
                (omap (fun id => pair id <$> db !! id) recency))
  end.

(** [clear_all_data] *)
Definition clear_all_data (q : UpdateOutcome) (db : gmap string Row)
  : bool * gmap string Row :=
  match q with
  | UpdateOk => (true, ∅)
  | UpdateRaises => (false, db)
  end.

(** [get_preference(key, default)] and [set_preference(key, value)] on the
    table [user_preferences]. *)
Definition get_preference (q : ReadOutcome) (prefs : gmap string string)
           (key : string) (dflt : option string) : option string :=
  match q with
  | ReadOk =>
      match prefs !! key with
      | Some value => Some value
      | None => dflt
      end
  | ReadRaises => dflt
  end.

Definition set_preference (q : UpdateOutcome) (prefs : gmap string string)
           (key value : string) : bool * gmap string string :=
  match q with
  | UpdateOk => (true, <[key := value]> prefs)
  | UpdateRaises => (false, prefs)
  end.

End DbOps.

(* ===================================================================== *)
(** * The gateway as the routes use it                                    *)
(* ===================================================================== *)

(** What the routes ask of Gmail, with what came back. *)
Inductive mail_event :=
| MeSend (to subject reply : string) (o : GwOutcome)   (* send_email_reply *)
| MeArchive (id : string) (o : GwOutcome)              (* archive_email *)
| MeTrash (id : string) (o : GwOutcome)                (* delete_email *)
| MeMarkRead (id : string) (o : GwOutcome).            (* mark_as_read *)

(** The gateway during one request. *)
Record Gateway := mkGateway {
  gw_send_reply : string -> string -> string -> GwOutcome;
  gw_archive_email : string -> GwOutcome;
  gw_delete_email : string -> GwOutcome;
  gw_mark_as_read : string -> GwOutcome
}.

(** The gateway said yes. *)
Definition returned_true (o : GwOutcome) : bool :=
  match o with GwReturns true => true | _ => false end.

Definition call_succeeded (e : mail_event) : bool :=
  match e with
  | MeSend _ _ _ o | MeArchive _ o | MeTrash _ o | MeMarkRead _ o =>
      returned_true o
  end.

Definition is_send (e : mail_event) : bool :=
  match e with MeSend _ _ _ _ => true | _ => false end.

Definition is_archive (e : mail_event) : bool :=
  match e with MeArchive _ _ => true | _ => false end.

Definition is_trash (e : mail_event) : bool :=
  match e with MeTrash _ _ => true | _ => false end.

(** The message an event is about, where the call names one. *)
Definition event_id (e : mail_event) : option string :=
  match e with
  | MeSend _ _ _ _ => None
  | MeArchive id _ | MeTrash id _ | MeMarkRead id _ => Some id
  end.

(* ===================================================================== *)
(** * app.py: the routes that act on one message                          *)
(* ===================================================================== *)

Module AppRoutes.
Import DbManager DbOps.

(** [send_reply_route(message_id)] *)
Definition send_reply_route (gw : Gateway) (read : ReadOutcome)
           (update : UpdateOutcome) (db : gmap string Row)
           (message_id : string) : gmap string Row * list mail_event :=
  match get_email_analysis read db message_id with
  | None => (db, [])
  | Some email_data =>
      if negb (Py.str_eq (row_clean_reply email_data) "")
         && negb (row_sent email_data)
      then
        let o := gw_send_reply gw (row_sender email_data)
                   (row_subject email_data) (row_clean_reply email_data) in
        let sent := [MeSend (row_sender email_data) (row_subject email_data)
                       (row_clean_reply email_data) o] in
        if returned_true o then ((mark_as_sent update db message_id).2, sent)
        else (db, sent)
      else (db, [])
  end.

(** [archive_route(message_id)] and [delete_route(message_id)] *)
Definition archive_route (gw : Gateway) (update : UpdateOutcome)
           (db : gmap string Row) (message_id : string)
  : gmap string Row * list mail_event :=
  let o := gw_archive_email gw message_id in
  if returned_true o
  then ((mark_as_archived update db message_id).2, [MeArchive message_id o])
  else (db, [MeArchive message_id o]).

Definition delete_route (gw : Gateway) (update : UpdateOutcome)
           (db : gmap string Row) (message_id : string)
  : gmap string Row * list mail_event :=
  let o := gw_delete_email gw message_id in
  if returned_true o
  then ((mark_as_deleted update db message_id).2, [MeTrash message_id o])
  else (db, [MeTrash message_id o]).

End AppRoutes.

(* ===================================================================== *)
(** * enterprise_app.py: the endpoints that act on stored messages        *)
(* ===================================================================== *)

Module EnterpriseOps.
Import DbManager DbOps.

(** The body of a request to [/api/auto-pilot]. *)
Record AutoPilotRequest := mkAutoPilotRequest {
  archive_newsletters : bool;
  delete_spam : bool;
  auto_reply : bool
}.

(** The variables of [auto_pilot] while it loops; [failed] is set when an
    exception is on its way to the outer handler. *)
Record Pilot := mkPilot {
  store : gmap string Row;
  archived_count : Z;
  deleted_count : Z;
  replied_count : Z;
  log : list (string * mail_event);
  failed : bool
}.

(** [if gmail.delete_email(email_id): db.mark_as_deleted(email_id);
    deleted_count += 1] *)
Definition trash_and_mark (gw : Gateway) (update : string -> UpdateOutcome)
           (email_id : string) (p : Pilot) : Pilot :=
  let o := gw_delete_email gw email_id in
  let log' := log p ++ [(email_id, MeTrash email_id o)] in
  match o with
  | GwReturns true =>
      mkPilot (mark_as_deleted (update email_id) (store p) email_id).2
              (archived_count p) (deleted_count p + 1) (replied_count p)
              log' false
  | GwReturns false =>
      mkPilot (store p) (archived_count p) (deleted_count p)
              (replied_count p) log' false
  | GwRaises =>
      mkPilot (store p) (archived_count p) (deleted_count p)
              (replied_count p) log' true
  end.

(** The [try] block of the auto-reply; what is raised inside is caught. *)
Definition reply_and_mark (gw : Gateway) (update : string -> UpdateOutcome)
           (email_id : string) (email : Row) (p : Pilot) : Pilot :=
  let reply := row_clean_reply email in
  if negb (Py.str_eq reply "") && negb (Py.str_eq reply "No reply needed") then
    let o := gw_send_reply gw (row_sender email) (row_subject email) reply in
    let log' :=
      log p ++ [(email_id,
                 MeSend (row_sender email) (row_subject email) reply o)] in
    if returned_true o then
      mkPilot (mark_as_sent (update email_id) (store p) email_id).2
              (archived_count p) (deleted_count p) (replied_count p + 1)
              log' false
    else
      mkPilot (store p) (archived_count p) (deleted_count p)
              (replied_count p) log' false
  else p.

(** One round of the [for email in emails] loop; [email] is the row as it
    was read before the loop. *)
Definition pilot_round (req : AutoPilotRequest) (gw : Gateway)
           (update : string -> UpdateOutcome) (p : Pilot)
           (entry : string * Row) : Pilot :=
  let '(email_id, email) := entry in
  if failed p then p
  else
    let category := row_category email in
    let p :=
      if archive_newsletters req && Py.str_eq category "Newsletter"
      then trash_and_mark gw update email_id p else p in
    let p :=
      if failed p then p
      else if delete_spam req && Py.str_eq category "Spam"
      then trash_and_mark gw update email_id p else p in
    if failed p then p
    else if auto_reply req && row_needs_reply email && negb (row_sent email)
    then reply_and_mark gw update email_id email p else p.

Inductive PilotResponse :=
| PilotSuccess (archived deleted replied : Z)
| PilotHttp500.

(** [auto_pilot(pilot_req)] *)
Definition auto_pilot (req : AutoPilotRequest) (gw : Gateway)
           (read : ReadOutcome) (update : string -> UpdateOutcome)
           (recency : list string) (db : gmap string Row)
  : PilotResponse * gmap string Row * list (string * mail_event) :=
  let emails := get_recent_emails read recency db 100 false in
  let p := fold_left (pilot_round req gw update) emails
                     (mkPilot db 0 0 0 [] false) in
  (if failed p then PilotHttp500
   else PilotSuccess (archived_count p) (deleted_count p) (replied_count p),
   store p, log p).

(** The counters of [batch_action]. *)
Record Batch := mkBatch {
  batch_store : gmap string Row;
  success_count : Z;
  failed_count : Z;
  batch_log : list mail_event
}.

(** One round of the loop of [batch_action]; every exception raised in it
    is caught and counted as a failure. *)
Definition batch_round (action : string) (gw : Gateway)
           (update : string -> UpdateOutcome) (b : Batch)
           (email_id : string) : Batch :=
  if Py.str_eq action "archive" then
    let o := gw_archive_email gw email_id in
    if returned_true o then
      mkBatch (mark_as_archived (update email_id) (batch_store b) email_id).2
              (success_count b + 1) (failed_count b)
              (batch_log b ++ [MeArchive email_id o])
    else
      mkBatch (batch_store b) (success_count b) (failed_count b + 1)
              (batch_log b ++ [MeArchive email_id o])
  else if Py.str_eq action "delete" then
    let o := gw_delete_email gw email_id in
    if returned_true o then
      mkBatch (mark_as_deleted (update email_id) (batch_store b) email_id).2
              (success_count b + 1) (failed_count b)
              (batch_log b ++ [MeTrash email_id o])
    else
      mkBatch (batch_store b) (success_count b) (failed_count b + 1)
              (batch_log b ++ [MeTrash email_id o])
  else if Py.str_eq action "mark_read" then
    let o := gw_mark_as_read gw email_id in
    if returned_true o then
      mkBatch (batch_store b) (success_count b + 1) (failed_count b)
              (batch_log b ++ [MeMarkRead email_id o])
    else
      mkBatch (batch_store b) (success_count b) (failed_count b + 1)
              (batch_log b ++ [MeMarkRead email_id o])
  else
    mkBatch (batch_store b) (success_count b) (failed_count b + 1)
            (batch_log b).

(** The answer of [batch_action]: processed, success, failed. *)
Record BatchResponse := mkBatchResponse {
  br_processed : Z;
  br_success : Z;
  br_failed : Z
}.

Definition batch_action (email_ids : list string) (action : string)
           (gw : Gateway) (update : string -> UpdateOutcome)
           (db : gmap string Row)
  : BatchResponse * gmap string Row * list mail_event :=
  let b := fold_left (batch_round action gw update) email_ids
                     (mkBatch db 0 0 []) in
  (mkBatchResponse (success_count b + failed_count b)
                   (success_count b) (failed_count b),
   batch_store b, batch_log b).

Inductive SendResponse := SendOk | Http404 | Http400 | Http500.

(** [send_email(email_id)] *)
Definition send_email (gw : Gateway) (read : ReadOutcome)
           (update : UpdateOutcome) (db : gmap string Row)
           (email_id : string)
  : SendResponse * gmap string Row * list mail_event :=
  match get_email_analysis read db email_id with
  | None => (Http404, db, [])
  | Some email =>
      let reply := row_clean_reply email in
      if Py.str_eq reply "" || Py.str_eq reply "No reply needed"
      then (Http400, db, [])
      else
        let o := gw_send_reply gw (row_sender email) (row_subject email)
                               reply in
        let sent := [MeSend (row_sender email) (row_subject email) reply o] in
        if returned_true o
        then (SendOk, (mark_as_sent update db email_id).2, sent)
        else (Http500, db, sent)
  end.

(** A value of the JSON body of [/api/preferences], and [str(value)]. *)
Inductive JsonValue :=
| JBool (b : bool)
| JInt (n : Z)
| JStr (s : string)
| JNull
| JOther (text : string).   (* a float, a list or an object, with its str() *)

Definition py_str (v : JsonValue) : string :=
  match v with
  | JBool true => "True"%string
  | JBool false => "False"%string
  | JInt n => pretty n
  | JStr s => s
  | JNull => "None"%string
  | JOther text => text
  end.

(** [preferences[key]] for the items of the body in the order they came:
    the last value given for the key. *)
Fixpoint value_for (key : string) (preferences : list (string * JsonValue))
  : option JsonValue :=
  match preferences with
  | [] => None
  | (k, v) :: rest =>
      match value_for key rest with
      | Some w => Some w
      | None => if Py.str_eq k key then Some v else None
      end
  end.

(** [save_preferences(preferences)]: one [set_preference] per item, whose
    result is not looked at. *)
Definition save_preferences (update : string -> UpdateOutcome)
           (prefs : gmap string string)
           (preferences : list (string * JsonValue)) : gmap string string :=
  fold_left (fun prefs kv =>
               (set_preference (update kv.1) prefs kv.1 (py_str kv.2)).2)
            preferences prefs.

(** What [get_preferences] answers. *)
Record Preferences := mkPreferences {
  auto_draft : bool;
  auto_archive_newsletters : bool;
  auto_delete_spam : bool;
  max_emails_per_scan : Z;
  user_name : string
}.

(** [get_preferences]; [to_int] is Python's [int] on a string and
    [config_user_name] is [Config.USER_NAME].  [None] is the empty dict of
    the [except] branch. *)
Definition get_preferences (to_int : string -> option Z)
           (config_user_name : string) (read : string -> ReadOutcome)
           (prefs : gmap string string) : option Preferences :=
  let get_preference key dflt :=
    get_preference (read key) prefs key dflt in
  let flag key dflt :=
    Py.str_eq (default dflt (get_preference key (Some dflt))) "true" in
  match to_int (default "20"%string
                  (get_preference "max_emails_per_scan"%string
                                  (Some "20"%string))) with
  | Some n =>
      Some (mkPreferences
              (flag "auto_draft"%string "true"%string)
              (flag "auto_archive_newsletters"%string "false"%string)
              (flag "auto_delete_spam"%string "false"%string)
              n
              (default config_user_name
                 (get_preference "user_name"%string (Some config_user_name))))
  | None => None
  end.

(** [answer[key]] for the three flags of the answer of [get_preferences]. *)
Definition flag (answer : Preferences) (key : string) : option bool :=
  if Py.str_eq key "auto_draft" then Some (auto_draft answer)
  else if Py.str_eq key "auto_archive_newsletters"
  then Some (auto_archive_newsletters answer)
  else if Py.str_eq key "auto_delete_spam"
  then Some (auto_delete_spam answer)
  else None.

End EnterpriseOps.

(* ===================================================================== *)
(** * Reading the log of a batch                                          *)
(* ===================================================================== *)

Module BatchLog.
Import DbManager DbOps EnterpriseOps.

(** What one round keeps true of the counters, the log and the store. *)
Record batch_inv (db : gmap string Row) (b : Batch) : Prop := mkBatchInv {
  bi_success :
    success_count b
    = Z.of_nat (length (filter (fun e => call_succeeded e = true) (batch_log b)));
  bi_frame : forall x,
      (forall e, e ∈ batch_log b -> call_succeeded e = true ->
                 event_id e <> Some x) ->
      batch_store b !! x = db !! x;
  bi_written : forall x,
      written_once <$> batch_store b !! x = written_once <$> db !! x
}.

End BatchLog.

(* ===================================================================== *)
(** * Reading the log of the auto-pilot                                   *)
(* ===================================================================== *)

Module PilotLog.
Import DbManager DbOps EnterpriseOps.

(** The message [x] was moved to the trash, and a reply was sent for it. *)
Definition trashed (x : string) (l : list (string * mail_event)) : Prop :=
  (x, MeTrash x (GwReturns true)) ∈ l.

Definition replied (x : string) (l : list (string * mail_event)) : Prop :=
  exists to subject reply, (x, MeSend to subject reply (GwReturns true)) ∈ l.

(** How many calls of one kind the gateway accepted. *)
Definition accepted (kind : mail_event -> bool)
           (l : list (string * mail_event)) : Z :=
  Z.of_nat (length (filter (fun q => kind q.2 && call_succeeded q.2 = true) l)).

(** What the rules [req] allow the auto-pilot to ask of the gateway for
    the row [row] stored under [email_id]: the trash for a newsletter or
    for spam when the rule is on, and the stored reply, when it is a reply,
    for a row that needs one and has none sent. *)
Definition allowed (req : AutoPilotRequest) (email_id : string) (row : Row)
           (e : mail_event) : bool :=
  match e with
  | MeTrash id _ =>
      Py.str_eq id email_id
      && (archive_newsletters req && Py.str_eq (row_category row) "Newsletter"
          || delete_spam req && Py.str_eq (row_category row) "Spam")
  | MeSend to subject reply _ =>
      auto_reply req && row_needs_reply row && negb (row_sent row)
      && Py.str_eq to (row_sender row)
      && Py.str_eq subject (row_subject row)
      && Py.str_eq reply (row_clean_reply row)
      && negb (Py.str_eq reply "")
      && negb (Py.str_eq reply "No reply needed")
  | MeArchive _ _ | MeMarkRead _ _ => false
  end.

(** How the variables [p'] of the auto-pilot relate to earlier ones [p]
    when the rounds in between were for the entries [es] and added [new]
    to the log. *)
Record pilot_rel (req : AutoPilotRequest) (update : string -> UpdateOutcome)
       (es : list (string * Row)) (p p' : Pilot)
       (new : list (string * mail_event)) : Prop := mkPilotRel {
  rel_log : log p' = log p ++ new;
  rel_tags : Forall (fun q => exists row,
                       (q.1, row) ∈ es /\ allowed req q.1 row q.2 = true)
                    new;
  rel_archived : archived_count p' = archived_count p;
  rel_deleted : deleted_count p' = deleted_count p + accepted is_trash new;
  rel_replied : replied_count p' = replied_count p + accepted is_send new;
  rel_written : forall x,
      written_once <$> store p' !! x = written_once <$> store p !! x;
  rel_frame : forall x,
      (forall q, q ∈ new -> q.1 = x -> call_succeeded q.2 = false) ->
      store p' !! x = store p !! x;
  rel_flags : (forall x, update x = UpdateOk) ->
      forall x r, store p !! x = Some r ->
        exists r', store p' !! x = Some r'
          /\ (row_deleted r = true -> row_deleted r' = true)
          /\ (row_sent r = true -> row_sent r' = true)
          /\ (trashed x new -> row_deleted r' = true)
          /\ (replied x new -> row_sent r' = true)
}.

End PilotLog.
(* ===================================================================== *)
(** * gmail_service.py: reading the inbox                                 *)
(* ===================================================================== *)

Module GmailService.

(** One entry of [payload['headers']]. *)
Record Header := mkHeader {
  header_name : string;
  header_value : string
}.

(** One entry of [payload['parts']]: its ['mimeType'] and, when the key is
    there, its [['body']['data']]. *)
Record Part := mkPart {
  mimeType : string;
  part_data : option string
}.

(** The payload of a message; [parts] is [None] when the key ['parts'] is
    missing and [body_data] when ['body'] or its ['data'] is. *)
Record Payload := mkPayload {
  headers : list Header;
  parts : option (list Part);
  body_data : option string
}.

(** What [messages().get(..., format='full')] answers; the keys read with
    [.get] may be missing. *)
Record MsgDetails := mkMsgDetails {
  payload : Payload;
  snippet : option string;
  labelIds : option (list string);
  threadId : option string
}.

(** The dict that [_get_email_details] returns: the keys of [Message] and
    ['to'], ['date'], ['labels']. *)
Record Email := mkEmail {
  message : Message;
  email_to : string;
  email_date : string;
  email_labels : list string
}.

(** A call of [messages().get]: an answer, an [HttpError], or any other
    exception, among them the [KeyError] of an answer that lacks a key the
    code indexes. *)
Inductive GetOutcome :=
| GetOk (msg_details : MsgDetails)
| GetHttpError
| GetRaises.

(** A call of [messages().list] with the [maxResults] it was given: an
    answer with or without the key ['messages'], here the ids of its
    entries, or an exception. *)
Inductive ListOutcome :=
| ListOk (messages : option (list string))
| ListRaises.

(** The service: the two calls, and
    [base64.urlsafe_b64decode(data).decode('utf-8')], which raises on data
    that is not base64 or not UTF-8 ([None]). *)
Record Service := mkService {
  messages_list : Z -> ListOutcome;
  messages_get : string -> GetOutcome;
  decode : string -> option string
}.

(** [_get_header_value(headers, name)] *)
Fixpoint _get_header_value (headers : list Header) (name : string)
  : option string :=
  match headers with
  | [] => None
  | header :: rest =>
      if Py.str_eq (Py.lower (header_name header)) (Py.lower name)
      then Some (header_value header)
      else _get_header_value rest name
  end.

(** [value or dflt] for an optional string. *)
Definition or_else (value : option string) (dflt : string) : string :=
  match value with
  | Some s => if Py.str_eq s "" then dflt else s
  | None => dflt
  end.

(** The loop of [_get_email_body] over the parts, with the variable
    [body]; [None] is the exception of a failed decoding. *)
Fixpoint body_of_parts (decode : string -> option string)
         (parts : list Part) (body : string) : option string :=
  match parts with
  | [] => Some body
  | part :: rest =>
      if Py.str_eq (mimeType part) "text/plain" then
        match part_data part with
        | Some data => decode data                       (* break *)
        | None => body_of_parts decode rest body
        end
      else if Py.str_eq (mimeType part) "text/html" && Py.str_eq body "" then
        match part_data part with
        | Some data =>
            match decode data with
            | Some text => body_of_parts decode rest text
            | None => None
            end
        | None => body_of_parts decode rest body
        end
      else body_of_parts decode rest body
  end.

(** [_get_email_body(payload)] *)
Definition _get_email_body (decode : string -> option string)
           (payload : Payload) : option string :=
  match parts payload with
  | Some parts => body_of_parts decode parts ""
  | None =>
      match body_data payload with
      | Some data => decode data
      | None => Some ""%string
      end
  end.

(** What a call that may raise gives. *)
Inductive Raised (A : Type) :=
| Returned (a : A)
| Raises.
Arguments Returned {A} a.
Arguments Raises {A}.

(** [_get_email_details(message_id)]: the email, [None] after an
    [HttpError], or an exception that is not caught here. *)
Definition _get_email_details (service : Service) (message_id : string)
  : Raised (option Email) :=
  match messages_get service message_id with
  | GetHttpError => Returned None
  | GetRaises => Raises
  | GetOk msg_details =>
      let headers := headers (payload msg_details) in
      let subject := or_else (_get_header_value headers "Subject") "No Subject" in
      let sender := or_else (_get_header_value headers "From") "Unknown" in
      let to := or_else (_get_header_value headers "To") "" in
      let date := or_else (_get_header_value headers "Date") "" in
      match _get_email_body (decode service) (payload msg_details) with
      | None => Raises
      | Some body =>
          Returned (Some (mkEmail
            (mkMessage message_id sender subject
                       (default ""%string (snippet msg_details)) body
                       (default ""%string (threadId msg_details)))
            to date (default [] (labelIds msg_details))))
      end
  end.

(** One round of the loop of [fetch_unread_emails] over [email_data]. *)
Definition fetch_round (service : Service) (email_data : list Email)
           (msg_id : string) : list Email :=
  match _get_email_details service msg_id with
  | Returned (Some email) => email_data ++ [email]
  | Returned None => email_data
  | Raises => email_data                                 (* continue *)
  end.

(** [fetch_unread_emails(max_results)] *)
Definition fetch_unread_emails (service : Service) (max_results : Z)
  : list Email :=
  match messages_list service max_results with
  | ListOk messages =>
      fold_left (fetch_round service) (default [] messages) []
  | ListRaises => []
  end.

(** The email that reading a message gives, when it gives one. *)
Definition readable (service : Service) (msg_id : string) : option Email :=
  match _get_email_details service msg_id with
  | Returned (Some email) => Some email
  | _ => None
  end.

(** The ids that the listing gave. *)
Definition listed (service : Service) (max_results : Z) : list string :=
  match messages_list service max_results with
  | ListOk (Some messages) => messages
  | _ => []
  end.

End GmailService.

(* ===================================================================== *)
(** * migrate_history.py                                                  *)
(* ===================================================================== *)

Module MigrateHistory.
Import PyStr AiAgentParse DbManager.

(** One value of [history.json]: a dict read with [.get]. *)
Record HistoryEntry := mkHistoryEntry {
  h_ai_response : option string;
  h_clean_reply : option string
}.

(** The loop [for line in ai_response.split('\n')] with its [break];
    [None] is the [IndexError] of a line without a colon. *)
Fixpoint category_of_lines (lines : list string) (category : string)
  : option string :=
  match lines with
  | [] => Some category
  | line :: rest =>
      if startswith "Category:" line then after_colon line     (* break *)
      else category_of_lines rest category
  end.

(** "Extract category from response" *)
Definition extract_category (ai_response : string) : option string :=
  if Py.contains "Category:" ai_response
  then category_of_lines (split_char LF ai_response) "Unknown"
  else Some "Unknown"%string.

(** The dict [ai_result] built for one entry.  [needs_reply] is the truth
    value of [clean_reply and 'No reply needed' not in clean_reply]. *)
Definition migrated_result (email_data : HistoryEntry) : option AiResult :=
  let ai_response := default ""%string (h_ai_response email_data) in
  let clean_reply := default ""%string (h_clean_reply email_data) in
  match extract_category ai_response with
  | None => None
  | Some category =>
      let needs_reply :=
        negb (Py.str_eq clean_reply "")
        && negb (Py.contains "No reply needed" clean_reply) in
      Some (mkAiResult (Some category) (Some "Medium"%string)
              (Some (if Py.str_eq clean_reply "" then "No reply needed"%string
                     else clean_reply))
              (Some "Migrated from history.json"%string)
              (Some needs_reply) None)
  end.

(** The dict [email_info]; it has no ['id'] and no ['body'], which the
    save does not read. *)
Definition email_info : Message :=
  mkMessage "" "unknown@example.com" "Migrated Email" "" "" "".

(** The variables of the loop over the history. *)
Record Migration := mkMigration {
  m_db : gmap string Row;
  migrated : Z;
  skipped : Z
}.

(** One round of [for email_id, email_data in history.items()].  An entry
    that is not a dict of strings is [None]: reading it raises, and the
    [except] counts it as skipped. *)
Definition migrate_round (write : string -> nat -> WriteOutcome)
           (m : Migration) (item : string * option HistoryEntry)
  : Migration :=
  let '(email_id, email_data) := item in
  match email_data ≫= migrated_result with
  | None => mkMigration (m_db m) (migrated m) (skipped m + 1)
  | Some ai_result =>
      let '(success, db', _) :=
        save_email_analysis (write email_id) (m_db m) email_id email_info
                            ai_result in
      if success then mkMigration db' (migrated m + 1) (skipped m)
      else mkMigration db' (migrated m) (skipped m + 1)
  end.

(** What opening and loading [history.json] gives. *)
Inductive HistoryFile :=
| NoFile
| Unreadable
| Loaded (history : list (string * option HistoryEntry)).

(** [migrate_json_to_sqlite()]: the counters it logs, if it gets there,
    the store, and whether it renames the file after the answer [answer]
    to its question. *)
Definition migrate_json_to_sqlite (file : HistoryFile)
           (write : string -> nat -> WriteOutcome) (answer : string)
           (db : gmap string Row)
  : option (Z * Z) * gmap string Row * bool :=
  match file with
  | NoFile => (None, db, false)
  | Unreadable => (None, db, false)
  | Loaded history =>
      let m := fold_left (migrate_round write) history (mkMigration db 0 0) in
      (Some (migrated m, skipped m), m_db m,
       Py.str_eq (Py.lower answer) "y")
  end.

End MigrateHistory.

(* ===================================================================== *)
(** * ultimate_app.py: snoozing, quick actions and the home page          *)
(* ===================================================================== *)

Module UltimateOps.
Import UltimateApp.

(** [timedelta(days=1)], in milliseconds. *)
Definition one_day : Z := 86400000.

(** One round of the loop of [check_snoozed_emails] over
    [SNOOZED_EMAILS] and [woken_count]. *)
Definition check_round (now : Z) (st : gmap string Z * Z)
           (item : string * Z) : gmap string Z * Z :=
  let '(snoozed, woken_count) := st in
  let '(email_id, wake_time) := item in
  if now >=? wake_time then (delete email_id snoozed, woken_count + 1)
  else st.

(** [check_snoozed_emails()]: the count it returns, the new
    [SNOOZED_EMAILS], and whether it called [save_data].  The loop runs
    over a copy of the items; their order does not matter to what it
    leaves. *)
Definition check_snoozed_emails (now : Z) (snoozed : gmap string Z)
  : Z * gmap string Z * bool :=
  let '(snoozed', woken_count) :=
    fold_left (check_round now) (map_to_list snoozed) (snoozed, 0) in
  (woken_count, snoozed', woken_count >? 0).

(** The loop of the action [archive_similar] over the items of
    [EMAIL_CACHE]; [None] is an exception of the gateway, which ends it. *)
Fixpoint archive_similar_loop (gw : Gateway) (sender : string)
         (items : list (string * CacheEntry)) (to_remove : list string)
         (events : list mail_event)
  : option (list string) * list mail_event :=
  match items with
  | [] => (Some to_remove, events)
  | (eid, data) :: rest =>
      if Py.str_eq (ce_sender data) sender then
        match gw_archive_email gw eid with
        | GwReturns ok =>
            archive_similar_loop gw sender rest (to_remove ++ [eid])
              (events ++ [MeArchive eid (GwReturns ok)])
        | GwRaises => (None, events ++ [MeArchive eid GwRaises])
        end
      else archive_similar_loop gw sender rest to_remove events
  end.

(** What [quick_action] leaves: the two dicts, what it asked of the
    gateway, the message it put in the session, and whether it called
    [save_data]. *)
Record QuickResult := mkQuickResult {
  qr_cache : gmap string CacheEntry;
  qr_snoozed : gmap string Z;
  qr_events : list mail_event;
  qr_msg : option string;
  qr_saved : bool
}.

(** [quick_action(email_id, action)] at the time [now].  [EMAIL_CACHE] is
    a dict, iterated in the order its keys were inserted, which the map
    here does not carry: [order] lists its keys in that order. *)
Definition quick_action (now : Z) (gw : Gateway) (order : list string)
           (cache : gmap string CacheEntry) (snoozed : gmap string Z)
           (email_id action : string) : QuickResult :=
  match cache !! email_id with
  | None => mkQuickResult cache snoozed [] None false
  | Some entry =>
      let error events :=
        mkQuickResult cache snoozed events
                      (Some "Error performing action."%string) false in
      if Py.str_eq action "archive" then
        match gw_archive_email gw email_id with
        | GwReturns ok =>
            mkQuickResult (delete email_id cache) snoozed
                          [MeArchive email_id (GwReturns ok)]
                          (Some "Email archived."%string) true
        | GwRaises => error [MeArchive email_id GwRaises]
        end
      else if Py.str_eq action "delete" then
        match gw_delete_email gw email_id with
        | GwReturns ok =>
            mkQuickResult (delete email_id cache) snoozed
                          [MeTrash email_id (GwReturns ok)]
                          (Some "Email moved to trash."%string) true
        | GwRaises => error [MeTrash email_id GwRaises]
        end
      else if Py.str_eq action "snooze" then
        mkQuickResult cache (<[email_id := now + one_day]> snoozed) []
          (Some "Email snoozed for 24 hours. It will reappear tomorrow."%string)
          true
      else if Py.str_eq action "archive_similar" then
        let sender := ce_sender entry in
        let items := omap (fun eid => pair eid <$> cache !! eid) order in
        match archive_similar_loop gw sender items [] [] with
        | (Some to_remove, events) =>
            mkQuickResult
              (fold_left (fun cache eid => delete eid cache) to_remove cache)
              snoozed events
              (Some ("Archived " +:+ pretty (Z.of_nat (length to_remove))
                       +:+ " emails from " +:+ sender +:+ "."))
              true
        | (None, events) => error events
        end
      else mkQuickResult cache snoozed [] None true
  end.

(** [priority_map.get(x['priority'], 3)] *)
Definition priority_rank (priority : string) : Z :=
  if Py.str_eq priority "HIGH" then 0
  else if Py.str_eq priority "MEDIUM" then 1
  else if Py.str_eq priority "LOW" then 2
  else 3.

(** [display_emails.sort(key=...)]: the sort is stable, so it is what
    inserting each entry before the first later one of a higher rank
    gives. *)
Fixpoint insert_by_rank (x : string * CacheEntry)
         (l : list (string * CacheEntry)) : list (string * CacheEntry) :=
  match l with
  | [] => [x]
  | y :: l' =>
      if priority_rank (ce_priority x.2) <=? priority_rank (ce_priority y.2)
      then x :: y :: l'
      else y :: insert_by_rank x l'
  end.

Definition sort_by_rank (l : list (string * CacheEntry))
  : list (string * CacheEntry) :=
  foldr insert_by_rank [] l.

(** [home()]: the emails it displays and the [SNOOZED_EMAILS] it leaves. *)
Definition home (now : Z) (order : list string)
           (cache : gmap string CacheEntry) (snoozed : gmap string Z)
  : list (string * CacheEntry) * gmap string Z :=
  let '(_, snoozed', _) := check_snoozed_emails now snoozed in
  let display_emails :=
    filter (fun item => item.1 ∉ dom snoozed')
           (omap (fun eid => pair eid <$> cache !! eid) order) in
  (sort_by_rank display_emails, snoozed').

End UltimateOps.

(* ===================================================================== *)
(** * Facts about the string primitives                                   *)
(* ===================================================================== *)

Module PyFacts.
Import Py.

Lemma lower_app (a b : string) : lower (a +:+ b) = lower a +:+ lower b.
Proof.
  induction a as [|c a IH]; simpl; [reflexivity | now rewrite IH].
Qed.

Lemma prefix_app (p s : string) : String.prefix p (p +:+ s) = true.
Proof.
  induction p as [|c p IH]; simpl.
  - now destruct s.
  - destruct (ascii_dec c c); [assumption | congruence].
Qed.

Lemma contains_here (p s : string) :
  String.prefix p s = true -> contains p s = true.
Proof. intros H. destruct s; simpl in *; rewrite H; reflexivity. Qed.

Lemma contains_app (p pre post : string) :
  contains p (pre +:+ p +:+ post) = true.
Proof.
  induction pre as [|c pre IH].
  - change (contains p (p +:+ post) = true). apply contains_here, prefix_app.
  - change (contains p (String c (pre +:+ p +:+ post)) = true).
    cbn [contains]. rewrite IH. apply orb_true_r.
Qed.

(** A word that is already lower case is found in [s.lower()] whenever it
    occurs in [s] in any mix of cases. *)
Lemma contains_lower (w s : string) :
  lower w = w -> occurs_ci w s -> contains w (lower s) = true.
Proof.
  intros Hw (pre & mid & post & -> & Hmid).
  rewrite !lower_app, Hmid, Hw. apply contains_app.
Qed.

Lemma str_eq_true (a b : string) : str_eq a b = true <-> a = b.
Proof. unfold str_eq. apply bool_decide_eq_true. Qed.

End PyFacts.

(* ===================================================================== *)
(** * ai_agent.py: the no-reply shortcut                                  *)
(* ===================================================================== *)

Module AiAgentFacts.
Import AiAgent.

Lemma patterns_lower (pattern : string) :
  In pattern no_reply_patterns -> Py.lower pattern = pattern.
Proof.
  unfold no_reply_patterns. simpl.
  intros H. repeat (destruct H as [<- | H]; [reflexivity |]). destruct H.
Qed.

Lemma is_no_reply_sender_ci (sender pattern : string) :
  In pattern no_reply_patterns -> Py.occurs_ci pattern sender ->
  _is_no_reply_sender sender = true.
Proof.
  intros Hin Hocc. unfold _is_no_reply_sender.
  apply existsb_exists. exists pattern. split; [assumption |].
  apply PyFacts.contains_lower; [now apply patterns_lower | assumption].
Qed.

(** C4. A sender in which one of the seven automated-sender patterns occurs,
    in any mix of upper and lower case, gets the fixed verdict (Newsletter,
    Low, "No reply needed", no reply wanted, not a fallback) whatever the
    subject and body are and whatever the API would have answered, and no
    API request is made. *)
Theorem no_reply_shortcut
        (ack_reply : string -> string -> string)
        (api : string -> string -> string -> ApiOutcome)
        (sender subject body pattern : string) :
  In pattern no_reply_patterns ->
  Py.occurs_ci pattern sender ->
  let '(verdict, events) := analyze_email ack_reply api sender subject body in
  events = []
  /\ ar_category verdict = Some "Newsletter"%string
  /\ ar_priority verdict = Some "Low"%string
  /\ ar_reply verdict = Some "No reply needed"%string
  /\ truthy_bool (ar_needs_reply verdict) = false
  /\ get (ar_is_fallback verdict) false = false.
Proof.
  intros Hin Hocc. unfold analyze_email.
  rewrite (is_no_reply_sender_ci _ _ Hin Hocc). simpl.
  repeat split.
Qed.

Lemma no_reply_shortcut_witness :
  let '(verdict, events) :=
    analyze_email Examples.ack Examples.api_important
      "Acme <No-Reply@newsletter.com>" "Weekly Updates" "Highlights" in
  events = []
  /\ ar_category verdict = Some "Newsletter"%string
  /\ ar_priority verdict = Some "Low"%string
  /\ ar_reply verdict = Some "No reply needed"%string
  /\ truthy_bool (ar_needs_reply verdict) = false
  /\ get (ar_is_fallback verdict) false = false.
Proof.
  apply (no_reply_shortcut Examples.ack Examples.api_important
           "Acme <No-Reply@newsletter.com>" "Weekly Updates" "Highlights"
           "no-reply").
  - simpl. tauto.
  - exists "Acme <"%string, "No-Reply"%string, "@newsletter.com>"%string.
    split; reflexivity.
Defined.

(** Scenario A of the specification. *)
Example scenario_A :
  analyze_email Examples.ack Examples.api_important
    "no-reply@newsletter.com" "Weekly Updates" "Check out the highlights"
  = (no_reply_result, []).
Proof. reflexivity. Qed.

(** When the sender matches no pattern and the API request fails, the
    verdict is the local heuristic's, marked as a fallback with priority
    Medium: Newsletter without a reply when the lower-cased subject
    contains newsletter, unsubscribe or promotion; otherwise Personal with
    the acknowledgment as reply. *)
Theorem fallback_on_api_failure
        (ack_reply : string -> string -> string)
        (api : string -> string -> string -> ApiOutcome)
        (sender subject body : string) :
  _is_no_reply_sender sender = false ->
  api sender subject body = ApiRaises ->
  let '(verdict, events) := analyze_email ack_reply api sender subject body in
  events = [EvApiCall sender subject]
  /\ ar_is_fallback verdict = Some true
  /\ ar_priority verdict = Some "Medium"%string
  /\ (if Py.any_in ["newsletter"; "unsubscribe"; "promotion"]%string
                   (Py.lower subject)
      then ar_category verdict = Some "Newsletter"%string
           /\ ar_needs_reply verdict = Some false
           /\ ar_reply verdict = Some "No reply needed"%string
      else ar_category verdict = Some "Personal"%string
           /\ ar_needs_reply verdict = Some true
           /\ ar_reply verdict = Some (ack_reply sender subject)).
Proof.
  intros Hs Hapi. unfold analyze_email. rewrite Hs, Hapi.
  unfold _generate_fallback_response.
  destruct (Py.any_in _ (Py.lower subject)); repeat split.
Qed.

Lemma fallback_on_api_failure_witness :
  let '(verdict, events) :=
    analyze_email Examples.ack (fun _ _ _ => ApiRaises)
      "sender@example.com" "Weekly Newsletter - Unsubscribe here" "News" in
  events = [EvApiCall "sender@example.com" "Weekly Newsletter - Unsubscribe here"]
  /\ ar_is_fallback verdict = Some true
  /\ ar_priority verdict = Some "Medium"%string
  /\ (if Py.any_in ["newsletter"; "unsubscribe"; "promotion"]%string
                   (Py.lower "Weekly Newsletter - Unsubscribe here")
      then ar_category verdict = Some "Newsletter"%string
           /\ ar_needs_reply verdict = Some false
           /\ ar_reply verdict = Some "No reply needed"%string
      else ar_category verdict = Some "Personal"%string
           /\ ar_needs_reply verdict = Some true
           /\ ar_reply verdict
              = Some (Examples.ack "sender@example.com"
                        "Weekly Newsletter - Unsubscribe here")).
Proof.
  apply (fallback_on_api_failure Examples.ack (fun _ _ _ => ApiRaises)
           "sender@example.com" "Weekly Newsletter - Unsubscribe here" "News");
    reflexivity.
Defined.

(** Without a pattern in the sender the API is consulted, and a failure
    there yields the fallback verdict. *)
Example fallback_when_api_fails :
  analyze_email Examples.ack (fun _ _ _ => ApiRaises)
    "test@example.com" "Test Subject" "Test body"
  = (_generate_fallback_response Examples.ack "test@example.com"
       "Test Subject" "Test body",
     [EvApiCall "test@example.com" "Test Subject"]).
Proof. reflexivity. Qed.

End AiAgentFacts.

(* ===================================================================== *)
(** * The priority scorers                                                *)
(* ===================================================================== *)

Module ScorerFacts.

Lemma keyword_points_from (subject_lower : string) (ks : list string) (acc : Z) :
  fold_left (fun priority_score word =>
               if Py.contains word subject_lower
               then priority_score + 15 else priority_score) ks acc
  = acc + 15 * Z.of_nat (length (filter (fun k => Py.contains k subject_lower = true) ks)).
Proof.
  revert acc. induction ks as [|k ks IH]; intros acc; simpl.
  - lia.
  - rewrite IH. destruct (Py.contains k subject_lower) eqn:E.
    + rewrite filter_cons_True by assumption. simpl length. lia.
    + rewrite filter_cons_False by congruence. lia.
Qed.

Lemma ultimate_matches_spec (email : Message) (ai : AiResult) :
  UltimateApp.calculate_priority email ai
  = ScorerSpec.score (msg_subject email)
                     (get (ar_category ai) ""%string)
                     (get (ar_priority ai) "Low"%string).
Proof.
  unfold UltimateApp.calculate_priority, ScorerSpec.score, ScorerSpec.bucket,
    ScorerSpec.weighted_sum, ScorerSpec.keyword_bonus,
    ScorerSpec.category_bonus, ScorerSpec.hint_bonus, Py.any_in.
  change UltimateApp.urgent_keywords with ScorerSpec.urgency_keywords.
  generalize (get (ar_category ai) ""%string) as cat.
  generalize (get (ar_priority ai) "Low"%string) as hint.
  intros hint cat.
  destruct (existsb _ ScorerSpec.urgency_keywords);
    destruct (Py.str_eq cat "Important");
    destruct (Py.str_eq cat "Personal");
    destruct (Py.str_eq cat "Spam");
    destruct (Py.str_eq hint "High");
    destruct (Py.str_eq hint "Medium");
    reflexivity.
Qed.

Lemma working_matches_variant (email : Message) (ai : AiResult) :
  WorkingApp.calculate_priority email ai
  = ScorerSpec.variant_score (msg_subject email)
                             (get (ar_category ai) ""%string)
                             (ar_priority ai).
Proof.
  unfold WorkingApp.calculate_priority, ScorerSpec.variant_score,
    WorkingApp.keyword_points.
  rewrite keyword_points_from.
  change WorkingApp.urgent_keywords with ScorerSpec.variant_keywords.
  fold (ScorerSpec.variant_keyword_bonus (msg_subject email)).
  generalize (ScorerSpec.variant_keyword_bonus (msg_subject email)) as kw.
  intros kw.
  generalize (get (ar_category ai) ""%string) as cat. intros cat.
  unfold ScorerSpec.variant_category_bonus, ScorerSpec.hint_bonus,
    ScorerSpec.variant_bucket, cat_is.
  rewrite !Z.geb_leb.
  destruct (ar_priority ai) as [hint|]; simpl default;
    destruct (Py.str_eq cat "Important");
    destruct (Py.str_eq cat "Personal");
    try destruct (Py.str_eq hint "High");
    try destruct (Py.str_eq hint "Medium");
    rewrite ?Z.add_0_r; try reflexivity.
Qed.

(** C5 (as amended). [ultimate_app.calculate_priority] is the bucket of the
    weighted sum: 30 if the lower-cased subject contains one of the eleven
    urgency keywords, plus 40 / 20 / -50 / 0 for Important / Personal / Spam
    / anything else, plus 30 / 15 / 0 for the hint High / Medium / anything
    else, with HIGH from 50 and MEDIUM from 25.  [working_app.calculate_priority]
    is the bucket of another sum: 15 for each of its six keywords found,
    40 / 20 / 0 for the category, the same hint bonus, with HIGH from 50 and
    MEDIUM from 20. *)
Theorem priority_scorers :
  (forall email ai,
      UltimateApp.calculate_priority email ai
      = ScorerSpec.score (msg_subject email)
                         (get (ar_category ai) ""%string)
                         (get (ar_priority ai) "Low"%string))
  /\ (forall email ai,
         WorkingApp.calculate_priority email ai
         = ScorerSpec.variant_score (msg_subject email)
                                    (get (ar_category ai) ""%string)
                                    (ar_priority ai)).
Proof.
  split; [exact ultimate_matches_spec | exact working_matches_variant].
Qed.

(** C5, counterexample.  On a personal message with no keyword and a Low
    hint the weighted sum is 20, which the specification buckets as LOW;
    [working_app.calculate_priority] answers MEDIUM. *)
Lemma working_scorer_disagrees :
  ScorerSpec.weighted_sum "Coffee next week?" "Personal" "Low" = 20
  /\ ScorerSpec.score "Coffee next week?" "Personal" "Low" = "LOW"%string
  /\ WorkingApp.calculate_priority
       (Examples.message "m1" "friend@gmail.com" "Coffee next week?")
       (Examples.verdict "Personal" "Low" "Sure" true)
     = "MEDIUM"%string.
Proof. repeat split. Qed.

(** Scenario B of the specification: 30 + 40 + 30 = 100, HIGH. *)
Example scenario_B :
  ScorerSpec.weighted_sum "Project Deadline Tomorrow" "Important" "High" = 100
  /\ UltimateApp.calculate_priority
       (Examples.message "m1" "john@company.com" "Project Deadline Tomorrow")
       (Examples.verdict "Important" "High" "On it." true)
     = "HIGH"%string.
Proof. split; reflexivity. Qed.

(** The same function of the same arguments: the score depends on the
    subject, the category and the hint only. *)
Lemma score_deterministic (e1 e2 : Message) (a1 a2 : AiResult) :
  msg_subject e1 = msg_subject e2 ->
  ar_category a1 = ar_category a2 ->
  ar_priority a1 = ar_priority a2 ->
  UltimateApp.calculate_priority e1 a1 = UltimateApp.calculate_priority e2 a2.
Proof.
  intros Hs Hc Hp. rewrite !ultimate_matches_spec, Hs, Hc, Hp. reflexivity.
Qed.

End ScorerFacts.

(* ===================================================================== *)
(** * The automation engine                                               *)
(* ===================================================================== *)

Module AutopilotFacts.

(** ** ultimate_app.py *)

(** One pass makes at most one gateway call, makes none when the engine is
    disabled, and reports an action exactly when that call went through. *)
Lemma ultimate_single_action
      (settings : UltimateApp.AutoPilotSettings) (env : AppEnv)
      (email_id : string) (category : option string) (priority : string) :
  let '(action, events) :=
    UltimateApp.apply_autopilot_rules settings env email_id category priority in
  (length events <= 1)%nat
  /\ forallb is_gateway_action events = true
  /\ (UltimateApp.enabled settings = false -> action = None /\ events = [])
  /\ truthy_str action = existsb action_done events.
Proof.
  unfold UltimateApp.apply_autopilot_rules.
  destruct (UltimateApp.enabled settings); simpl negb; cbv iota.
  2: { simpl. repeat split; auto. }
  destruct (truthy_bool (UltimateApp.archive_newsletters settings)
            && cat_is category "Newsletter").
  { destruct (gw_archive env 0%nat); simpl; repeat split; auto; discriminate. }
  destruct (truthy_bool (UltimateApp.delete_spam settings)
            && cat_is category "Spam").
  { destruct (gw_trash env); simpl; repeat split; auto; discriminate. }
  destruct (truthy_bool (UltimateApp.archive_low_priority settings)
            && Py.str_eq priority "LOW"
            && negb (cat_is category "Important" || cat_is category "Personal")).
  { destruct (gw_archive env 0%nat); simpl; repeat split; auto; discriminate. }
  simpl. repeat split; auto; discriminate.
Qed.

(** The precedence of the rules: newsletters first, then spam, then low
    priority. *)
Lemma ultimate_precedence
      (settings : UltimateApp.AutoPilotSettings) (env : AppEnv)
      (email_id : string) (category : option string) (priority : string) :
  UltimateApp.enabled settings = true ->
  let events :=
    (UltimateApp.apply_autopilot_rules settings env email_id category priority).2 in
  let r1 := truthy_bool (UltimateApp.archive_newsletters settings)
            && cat_is category "Newsletter" in
  let r2 := truthy_bool (UltimateApp.delete_spam settings)
            && cat_is category "Spam" in
  let r3 := truthy_bool (UltimateApp.archive_low_priority settings)
            && Py.str_eq priority "LOW"
            && negb (cat_is category "Important" || cat_is category "Personal") in
  events =
    if r1 then [EvArchive email_id (gw_archive env 0%nat)]
    else if r2 then [EvTrash email_id (gw_trash env)]
    else if r3 then [EvArchive email_id (gw_archive env 0%nat)]
    else [].
Proof.
  intros Hen. unfold UltimateApp.apply_autopilot_rules. rewrite Hen. simpl negb.
  cbv iota zeta.
  destruct (truthy_bool (UltimateApp.archive_newsletters settings)
            && cat_is category "Newsletter").
  { destruct (gw_archive env 0%nat); reflexivity. }
  destruct (truthy_bool (UltimateApp.delete_spam settings)
            && cat_is category "Spam").
  { destruct (gw_trash env); reflexivity. }
  destruct (truthy_bool (UltimateApp.archive_low_priority settings)
            && Py.str_eq priority "LOW"
            && negb (cat_is category "Important" || cat_is category "Personal")).
  { destruct (gw_archive env 0%nat); reflexivity. }
  reflexivity.
Qed.

(** In [ultimate_app.apply_autopilot_rules] one pass makes the single
    gateway call that the first applicable rule selects (newsletters, then
    spam, then low priority), or none: none at all when the engine is
    disabled; and it reports an action exactly when that call returned. *)
Theorem ultimate_one_action
        (settings : UltimateApp.AutoPilotSettings) (env : AppEnv)
        (email_id : string) (category : option string) (priority : string) :
  let '(action, events) :=
    UltimateApp.apply_autopilot_rules settings env email_id category priority in
  let r1 := truthy_bool (UltimateApp.archive_newsletters settings)
            && cat_is category "Newsletter" in
  let r2 := truthy_bool (UltimateApp.delete_spam settings)
            && cat_is category "Spam" in
  let r3 := truthy_bool (UltimateApp.archive_low_priority settings)
            && Py.str_eq priority "LOW"
            && negb (cat_is category "Important" || cat_is category "Personal") in
  events =
    (if negb (UltimateApp.enabled settings) then []
     else if r1 then [EvArchive email_id (gw_archive env 0%nat)]
     else if r2 then [EvTrash email_id (gw_trash env)]
     else if r3 then [EvArchive email_id (gw_archive env 0%nat)]
     else [])
  /\ (length events <= 1)%nat
  /\ truthy_str action = existsb action_done events.
Proof.
  pose proof (ultimate_single_action settings env email_id category priority) as H1.
  pose proof (ultimate_precedence settings env email_id category priority) as H2.
  destruct (UltimateApp.apply_autopilot_rules settings env email_id category priority)
    as [action events].
  destruct H1 as (Hlen & _ & Hoff & Hact). cbv zeta in *. simpl in H2.
  repeat split; [| assumption | assumption].
  destruct (UltimateApp.enabled settings).
  - now apply H2.
  - now destruct (Hoff eq_refl) as [_ ->].
Qed.

(** ** working_app.py *)

(** C6, at the failing input.  With the three rules switched on, a spam
    message of LOW priority is first moved to the trash and then archived:
    two gateway actions in one pass, and the action reported is the one of
    the rule that comes last. *)
Theorem working_autopilot_acts_twice :
  WorkingApp.apply_autopilot Examples.all_rules_on
    (Examples.gateway_ok Examples.api_spam) "m1" (Some "Spam"%string) "LOW"
  = (Some "Auto-archived (Low Priority)"%string,
     [EvTrash "m1" (GwReturns true); EvArchive "m1" (GwReturns true)]).
Proof. reflexivity. Qed.

(** On the same input the sibling makes the one call its precedence
    selects. *)
Example ultimate_autopilot_acts_once :
  UltimateApp.apply_autopilot_rules Examples.ultimate_rules_on
    (Examples.gateway_ok Examples.api_spam) "m1" (Some "Spam"%string) "LOW"
  = (Some "Deleted (Spam)"%string, [EvTrash "m1" (GwReturns true)]).
Proof. reflexivity. Qed.

(** A newsletter of LOW priority is archived twice. *)
Example working_autopilot_archives_twice :
  (WorkingApp.apply_autopilot Examples.all_rules_on
     (Examples.gateway_ok Examples.api_spam) "m1" (Some "Newsletter"%string) "LOW").2
  = [EvArchive "m1" (GwReturns true); EvArchive "m1" (GwReturns true)].
Proof. reflexivity. Qed.

Lemma existsb_snoc {A} (f : A -> bool) (l : list A) (x : A) :
  existsb f (l ++ [x]) = existsb f l || f x.
Proof. rewrite existsb_app. simpl. now rewrite orb_false_r. Qed.

Lemma call_archive_ok (env : AppEnv) (email_id label : string) (p : WorkingApp.Pilot) :
  label <> ""%string -> WorkingApp.pilot_ok p ->
  WorkingApp.pilot_ok (WorkingApp.call_archive env email_id label p).
Proof.
  intros Hl Hp. unfold WorkingApp.pilot_ok, WorkingApp.call_archive in *.
  destruct (gw_archive env (WorkingApp.archive_calls p)); simpl.
  - intros _. unfold Py.str_eq. rewrite bool_decide_eq_false_2; auto.
  - rewrite existsb_snoc. simpl. rewrite orb_false_r. exact Hp.
Qed.

Lemma call_trash_ok (env : AppEnv) (email_id label : string) (p : WorkingApp.Pilot) :
  label <> ""%string -> WorkingApp.pilot_ok p ->
  WorkingApp.pilot_ok (WorkingApp.call_trash env email_id label p).
Proof.
  intros Hl Hp. unfold WorkingApp.pilot_ok, WorkingApp.call_trash in *.
  destruct (gw_trash env); simpl.
  - intros _. unfold Py.str_eq. rewrite bool_decide_eq_false_2; auto.
  - rewrite existsb_snoc. simpl. rewrite orb_false_r. exact Hp.
Qed.

Lemma stmt_ok (cond : bool) (body : WorkingApp.Pilot -> WorkingApp.Pilot)
      (p : WorkingApp.Pilot) :
  (forall q, WorkingApp.pilot_ok q -> WorkingApp.pilot_ok (body q)) ->
  WorkingApp.pilot_ok p -> WorkingApp.pilot_ok (WorkingApp.stmt cond body p).
Proof.
  intros Hb Hp. unfold WorkingApp.stmt.
  destruct (WorkingApp.raised p); [assumption |].
  destruct cond; auto.
Qed.

(** No action reported means no gateway action went through. *)
Lemma working_action_reported
      (settings : WorkingApp.AutoPilotSettings) (env : AppEnv)
      (email_id : string) (category : option string) (priority : string) :
  let '(action, events) :=
    WorkingApp.apply_autopilot settings env email_id category priority in
  existsb action_done events = true -> truthy_str action = true.
Proof.
  unfold WorkingApp.apply_autopilot.
  destruct (WorkingApp.enabled settings); simpl negb; cbv iota.
  2: { simpl. discriminate. }
  cbv zeta.
  match goal with
  | |- existsb _ (WorkingApp.pilot_events ?p) = true -> _ =>
      change (WorkingApp.pilot_ok p)
  end.
  repeat (apply stmt_ok;
          [intros q Hq;
           first [apply call_archive_ok | apply call_trash_ok];
           [discriminate | exact Hq] |]).
  unfold WorkingApp.pilot_ok. simpl. discriminate.
Qed.

End AutopilotFacts.

(* ===================================================================== *)
(** * Draft replies in the front-ends                                     *)
(* ===================================================================== *)

Module DraftFacts.

Lemma none_of_kind {A} (f g : A -> bool) (l : list A) :
  (forall x, g x = true -> f x = false) ->
  forallb g l = true -> existsb f l = false.
Proof.
  intros Hfg. induction l as [|x l IH]; simpl; [reflexivity |].
  intros [Hx Hl]%andb_true_iff. now rewrite (Hfg x Hx), IH.
Qed.

Lemma analyze_only_calls_api (ack_reply : string -> string -> string)
      (api : string -> string -> string -> AiAgent.ApiOutcome)
      (sender subject body : string) :
  forallb is_api_call (AiAgent.analyze_email ack_reply api sender subject body).2
  = true.
Proof.
  unfold AiAgent.analyze_email.
  destruct (AiAgent._is_no_reply_sender sender); [reflexivity |].
  destruct (api sender subject body); reflexivity.
Qed.

Lemma working_only_gateway_actions
      (settings : WorkingApp.AutoPilotSettings) (env : AppEnv)
      (email_id : string) (category : option string) (priority : string) :
  forallb is_gateway_action
    (WorkingApp.apply_autopilot settings env email_id category priority).2 = true.
Proof.
  unfold WorkingApp.apply_autopilot.
  destruct (WorkingApp.enabled settings); [|reflexivity].
  cbn [negb]. cbv zeta.
  generalize (get (WorkingApp.auto_archive_newsletters settings) true
              && cat_is category "Newsletter") as c1.
  generalize (get (WorkingApp.auto_delete_spam settings) true
              && cat_is category "Spam") as c2.
  generalize (get (WorkingApp.auto_archive_low_priority settings) false
              && Py.str_eq priority "LOW"
              && negb (cat_is category "Important" || cat_is category "Personal"))
    as c3.
  intros c3 c2 c1.
  unfold WorkingApp.stmt, WorkingApp.call_archive, WorkingApp.call_trash.
  destruct c1, c2, c3; cbn;
    repeat match goal with
           | |- context [gw_archive env ?k] => destruct (gw_archive env k); cbn
           | |- context [gw_trash env] => destruct (gw_trash env); cbn
           end;
    reflexivity.
Qed.

Lemma working_action_label
      (settings : WorkingApp.AutoPilotSettings) (env : AppEnv)
      (email_id : string) (category : option string) (priority : string) :
  let action :=
    (WorkingApp.apply_autopilot settings env email_id category priority).1 in
  truthy_str action = false -> action = None.
Proof.
  unfold WorkingApp.apply_autopilot.
  destruct (WorkingApp.enabled settings); [|reflexivity].
  cbn [negb]. cbv zeta.
  generalize (get (WorkingApp.auto_archive_newsletters settings) true
              && cat_is category "Newsletter") as c1.
  generalize (get (WorkingApp.auto_delete_spam settings) true
              && cat_is category "Spam") as c2.
  generalize (get (WorkingApp.auto_archive_low_priority settings) false
              && Py.str_eq priority "LOW"
              && negb (cat_is category "Important" || cat_is category "Personal"))
    as c3.
  intros c3 c2 c1.
  unfold WorkingApp.stmt, WorkingApp.call_archive, WorkingApp.call_trash.
  destruct c1, c2, c3; cbn;
    repeat match goal with
           | |- context [gw_archive env ?k] => destruct (gw_archive env k); cbn
           | |- context [gw_trash env] => destruct (gw_trash env); cbn
           end;
    first [reflexivity | discriminate].
Qed.

Lemma ultimate_action_label
      (settings : UltimateApp.AutoPilotSettings) (env : AppEnv)
      (email_id : string) (category : option string) (priority : string) :
  let action :=
    (UltimateApp.apply_autopilot_rules settings env email_id category priority).1 in
  truthy_str action = false -> action = None.
Proof.
  unfold UltimateApp.apply_autopilot_rules.
  destruct (negb (UltimateApp.enabled settings)); [reflexivity |].
  repeat match goal with
         | |- context [if ?c then _ else _] => destruct c
         | |- context [gw_archive env ?k] => destruct (gw_archive env k)
         | |- context [gw_trash env] => destruct (gw_trash env)
         end; cbn; first [reflexivity | discriminate].
Qed.

Lemma draft_is_no_action (env : AppEnv) (to subject : string) :
  existsb action_done [EvDraft to subject (gw_draft env)] = false.
Proof. reflexivity. Qed.

(** The events of a message that went through classification, automation
    and the draft step: a draft among them means that a reply was wanted
    and that no action was reported, and then no action went through. *)
Lemma draft_only_without_action
      (ev_ai ev_auto ev_draft : list event) (wanted : bool)
      (action : option string) (requested : list event) :
  forallb is_api_call ev_ai = true ->
  forallb is_gateway_action ev_auto = true ->
  (existsb action_done ev_auto = true -> truthy_str action = true) ->
  (truthy_str action = false -> action = None) ->
  existsb action_done requested = false ->
  ev_draft = (if wanted && negb (truthy_str action) then requested else []) ->
  existsb is_draft (ev_ai ++ ev_auto ++ ev_draft) = true ->
  wanted = true /\ action = None
  /\ existsb action_done (ev_ai ++ ev_auto ++ ev_draft) = false.
Proof.
  intros Hai Hauto Hdone Hlabel Hreq -> Hdraft.
  rewrite !existsb_app in Hdraft.
  rewrite (none_of_kind is_draft is_api_call ev_ai) in Hdraft;
    [| now intros [] | assumption].
  rewrite (none_of_kind is_draft is_gateway_action ev_auto) in Hdraft;
    [| now intros [] | assumption].
  simpl in Hdraft.
  destruct wanted; [| discriminate].
  destruct (truthy_str action) eqn:Ha; [discriminate |].
  simpl in *. repeat split; [now apply Hlabel |].
  rewrite !existsb_app.
  rewrite (none_of_kind action_done is_api_call ev_ai);
    [| now intros [] | assumption].
  rewrite Hreq, orb_false_r. simpl.
  destruct (existsb action_done ev_auto); [| reflexivity].
  now specialize (Hdone eq_refl).
Qed.

(** C9. In both front-ends that automate, a draft reply is requested for a
    message only if the verdict wants a reply and the automation pass
    reported no action; and then no archive or delete went through for the
    message, so a message that was auto-archived or auto-deleted is never
    drafted a reply as well. *)
Theorem draft_suppression
        (ack_reply : string -> string -> string) (env : AppEnv)
        (snoozed : gset string) (cache : gmap string CacheEntry)
        (email : Message) :
  let verdict :=
    (AiAgent.analyze_email ack_reply (ae_api env) (msg_sender email)
       (msg_subject email) (msg_snippet email)).1 in
  (forall settings,
      let '(result, _, events) :=
        UltimateApp.process_email ack_reply settings env snoozed cache email in
      existsb is_draft events = true ->
      truthy_bool (ar_needs_reply verdict) = true
      /\ existsb action_done events = false
      /\ exists data,
          result = Some (data, false) /\ ce_autopilot_action data = None)
  /\ (forall settings,
         let '(result, _, events) :=
           WorkingApp.process_email_with_analytics
             ack_reply settings env snoozed cache email in
         existsb is_draft events = true ->
         truthy_bool (ar_needs_reply verdict) = true
         /\ existsb action_done events = false
         /\ exists data,
             result = Some (data, false) /\ ce_autopilot_action data = None).
Proof.
  intros verdict. subst verdict. split; intros settings.
  - unfold UltimateApp.process_email.
    destruct (bool_decide (msg_id email ∈ snoozed)); [discriminate |].
    destruct (cache !! msg_id email); [discriminate |].
    pose proof (analyze_only_calls_api ack_reply (ae_api env) (msg_sender email)
                  (msg_subject email) (msg_snippet email)) as Hai.
    destruct (AiAgent.analyze_email _ _ _ _ _) as [ai_res ev_ai]. simpl in Hai.
    pose proof (AutopilotFacts.ultimate_single_action settings env (msg_id email)
                  (ar_category ai_res)
                  (UltimateApp.calculate_priority email ai_res)) as Hone.
    pose proof (ultimate_action_label settings env (msg_id email)
                  (ar_category ai_res)
                  (UltimateApp.calculate_priority email ai_res)) as Hlab.
    destruct (UltimateApp.apply_autopilot_rules _ _ _ _ _) as [action ev_auto].
    destruct Hone as (_ & Hgw & _ & Hdone). simpl in Hlab.
    intros Hdraft. simpl fst.
    destruct (draft_only_without_action ev_ai ev_auto _
                (truthy_bool (ar_needs_reply ai_res)) action
                (UltimateApp.request_draft env email ai_res)
                Hai Hgw ltac:(now rewrite Hdone) Hlab
                ltac:(unfold UltimateApp.request_draft;
                      now destruct (ar_reply ai_res))
                eq_refl Hdraft) as (Hw & Ha & Hno).
    repeat split; [assumption | assumption |].
    eexists. split; [reflexivity | exact Ha].
  - unfold WorkingApp.process_email_with_analytics.
    destruct (bool_decide (msg_id email ∈ snoozed)); [discriminate |].
    destruct (cache !! msg_id email); [discriminate |].
    pose proof (analyze_only_calls_api ack_reply (ae_api env) (msg_sender email)
                  (msg_subject email) (msg_snippet email)) as Hai.
    destruct (AiAgent.analyze_email _ _ _ _ _) as [ai_res ev_ai]. simpl in Hai.
    pose proof (AutopilotFacts.working_action_reported settings env
                  (msg_id email) (ar_category ai_res)
                  (WorkingApp.calculate_priority email ai_res)) as Hdone.
    pose proof (working_only_gateway_actions settings env (msg_id email)
                  (ar_category ai_res)
                  (WorkingApp.calculate_priority email ai_res)) as Hgw.
    pose proof (working_action_label settings env (msg_id email)
                  (ar_category ai_res)
                  (WorkingApp.calculate_priority email ai_res)) as Hlab.
    destruct (WorkingApp.apply_autopilot _ _ _ _ _) as [action ev_auto].
    simpl in Hlab, Hgw.
    intros Hdraft. simpl fst.
    destruct (draft_only_without_action ev_ai ev_auto _
                (truthy_bool (ar_needs_reply ai_res)) action
                (WorkingApp.request_draft env email ai_res)
                Hai Hgw Hdone Hlab
                ltac:(unfold WorkingApp.request_draft;
                      now destruct (ar_reply ai_res))
                eq_refl Hdraft) as (Hw & Ha & Hno).
    repeat split; [assumption | assumption |].
    eexists. split; [reflexivity | exact Ha].
Qed.

(** Scenario E of the specification: spam is deleted, the action is
    recorded, and no draft is requested although the verdict asks for a
    reply. *)
Example scenario_E :
  UltimateApp.process_email Examples.ack Examples.ultimate_rules_on
    (Examples.gateway_ok Examples.api_spam) ∅ ∅
    (Examples.message "m1" "win@lottery.biz" "You won")
  = (Some (mkCacheEntry "win@lottery.biz" "You won" "Spam" "Interesting" "LOW"
             (Some "Deleted (Spam)"%string), false),
     {[ "m1"%string :=
          mkCacheEntry "win@lottery.biz" "You won" "Spam" "Interesting" "LOW"
            (Some "Deleted (Spam)"%string) ]},
     [EvApiCall "win@lottery.biz" "You won"; EvTrash "m1" (GwReturns true)]).
Proof. reflexivity. Qed.

(** A message that needs a reply and triggers no rule is drafted one. *)
Example draft_requested :
  (UltimateApp.process_email Examples.ack Examples.ultimate_rules_on
     (Examples.gateway_ok Examples.api_important) ∅ ∅
     (Examples.message "m2" "john@company.com" "Project Deadline")).2
  = [EvApiCall "john@company.com" "Project Deadline";
     EvDraft "john@company.com" "Project Deadline" (GwReturns true)].
Proof. reflexivity. Qed.

End DraftFacts.

(* ===================================================================== *)
(** * enterprise_app.py: one scan at a time                               *)
(* ===================================================================== *)

Module EnterpriseFacts.
Import EnterpriseApp.

Ltac run_handler :=
  unfold try_except, with_pool, mbind, M_bind, bind, mret, M_ret, ret, raise,
    set_processing, broadcast, fetch_unread_emails, submit_all;
  cbn [processing].

(** The collecting loop does not touch the flag; all it does outside is
    broadcast progress, and it does so with the flag up. *)
Lemma collect_under_flag (env : ScanEnv) (total : Z) (todo i : nat)
      (processed_count : Z) (log : list scan_event) :
  exists r new,
    collect env total todo i processed_count (mkAppState true) log
    = (r, mkAppState true, log ++ new)
    /\ forallb under_flag new = true.
Proof.
  revert i processed_count log.
  induction todo as [|todo IH]; intros i pc log; cbn [collect].
  - exists (Some pc), []. now rewrite app_nil_r.
  - destruct (se_future env i).
    + run_handler.
      destruct (se_broadcast_raises env _).
      * eexists _, [_]. split; reflexivity.
      * destruct (IH (S i) (pc + 1)
                    (log ++ [SeBroadcast (ScanProgress total (Z.of_nat i + 1)) true]))
          as (r & new & -> & Hnew).
        exists r, (SeBroadcast (ScanProgress total (Z.of_nat i + 1)) true :: new).
        rewrite <- !app_assoc. split; [reflexivity | exact Hnew].
    + run_handler.
      destruct (se_broadcast_raises env _).
      * eexists _, [_]. split; reflexivity.
      * destruct (IH (S i) pc
                    (log ++ [SeBroadcast (ScanProgress total (Z.of_nat i + 1)) true]))
          as (r & new & -> & Hnew).
        exists r, (SeBroadcast (ScanProgress total (Z.of_nat i + 1)) true :: new).
        rewrite <- !app_assoc. split; [reflexivity | exact Hnew].
    + exists None, []. now rewrite app_nil_r.
Qed.

Lemma workers_under_flag (n : nat) :
  forallb under_flag (map (fun i => SeTask i true) (seq 0 n)) = true.
Proof. apply forallb_forall. intros e (i & <- & _)%in_map_iff. reflexivity. Qed.

(** A request that finds the flag up is answered at once and does nothing. *)
Lemma rejected_while_processing (env : ScanEnv) (max_emails : Z)
      (log : list scan_event) :
  scan_inbox env max_emails (mkAppState true) log
  = (Some AlreadyProcessing, mkAppState true, log).
Proof. reflexivity. Qed.

Ltac no_pool :=
  split; [reflexivity | split; [reflexivity | split; [simpl; lia | left; reflexivity]]].

(** A request that finds the flag down runs the scan; however it ends, the
    flag is down again and the answer is not the rejection.  The scan
    starts by raising the flag; everything it does until its workers are
    done ([during]) it does with the flag up, its broadcasts included; what
    comes with the flag down ([after]) is the closing broadcast alone. *)
Lemma accepted_scan (env : ScanEnv) (max_emails : Z) (log : list scan_event) :
  exists resp during after,
    scan_inbox env max_emails (mkAppState false) log
    = (resp, mkAppState false,
       log ++ SeBroadcast ScanStarted true :: during ++ after)
    /\ resp <> Some AlreadyProcessing
    /\ forallb under_flag during = true
    /\ forallb closing_broadcast after = true
    /\ (1 <= length after)%nat
    /\ (forallb (fun e => negb (is_task e)) during = true
        \/ exists before, during = before ++ [SePoolDone true]).
Proof.
  unfold scan_inbox. cbn [processing]. run_handler.
  destruct (se_broadcast_raises env ScanStarted) eqn:Hb0.
  { run_handler.
    destruct (se_broadcast_raises env ScanFailed);
      eexists _, [], [SeBroadcast ScanFailed false]; rewrite <- !app_assoc;
      (split; [reflexivity | split; [discriminate | no_pool]]). }
  destruct (se_fetch env) as [[|m raw]|] eqn:Hf.
  - (* nothing unread *)
    destruct (se_broadcast_raises env (ScanCompleted 0)).
    + destruct (se_broadcast_raises env ScanFailed);
        eexists _, [SeFetch max_emails true],
          [SeBroadcast (ScanCompleted 0) false; SeBroadcast ScanFailed false];
        rewrite <- !app_assoc;
        (split; [reflexivity | split; [discriminate | no_pool]]).
    + eexists _, [SeFetch max_emails true], [SeBroadcast (ScanCompleted 0) false];
        rewrite <- !app_assoc;
        (split; [reflexivity | split; [discriminate | no_pool]]).
  - (* a batch *)
    set (n := Z.of_nat (length (m :: raw))).
    destruct (se_broadcast_raises env (ScanProgress n 0)).
    { destruct (se_broadcast_raises env ScanFailed);
        eexists _, [SeFetch max_emails true; SeBroadcast (ScanProgress n 0) true],
          [SeBroadcast ScanFailed false];
        rewrite <- !app_assoc;
        (split; [reflexivity | split; [discriminate | no_pool]]). }
    cbn [processing].
    set (workers := map (fun i => SeTask i true) (seq 0 (length (m :: raw)))).
    pose proof (workers_under_flag (length (m :: raw))) as Hworkers.
    fold workers in Hworkers.
    destruct (collect_under_flag env n (length (m :: raw)) 0 0
                ((((log ++ [SeBroadcast ScanStarted true])
                     ++ [SeFetch max_emails true])
                    ++ [SeBroadcast (ScanProgress n 0) true])
                   ++ workers))
      as (r & new & -> & Hnew).
    cbn [processing].
    set (during := SeFetch max_emails true
                     :: SeBroadcast (ScanProgress n 0) true
                     :: workers ++ new ++ [SePoolDone true]).
    assert (Hduring : forallb under_flag during = true).
    { unfold during. cbn [forallb under_flag andb].
      rewrite !forallb_app, Hworkers, Hnew. reflexivity. }
    assert (Hpool : exists before, during = before ++ [SePoolDone true]).
    { exists (SeFetch max_emails true :: SeBroadcast (ScanProgress n 0) true
                :: workers ++ new).
      unfold during. simpl. now rewrite <- !app_assoc. }
    destruct r as [processed_count|].
    + destruct (se_broadcast_raises env (ScanCompleted processed_count)).
      * destruct (se_broadcast_raises env ScanFailed);
          eexists _, during,
            [SeBroadcast (ScanCompleted processed_count) false;
             SeBroadcast ScanFailed false];
          (split; [unfold during; simpl; rewrite <- !app_assoc; reflexivity |]);
          (split; [discriminate |]);
          (split; [exact Hduring |
                   split; [reflexivity | split; [simpl; lia | right; exact Hpool]]]).
      * eexists _, during, [SeBroadcast (ScanCompleted processed_count) false];
          (split; [unfold during; simpl; rewrite <- !app_assoc; reflexivity |]);
          (split; [discriminate |]);
          (split; [exact Hduring |
                   split; [reflexivity | split; [simpl; lia | right; exact Hpool]]]).
    + destruct (se_broadcast_raises env ScanFailed);
        eexists _, during, [SeBroadcast ScanFailed false];
        (split; [unfold during; simpl; rewrite <- !app_assoc; reflexivity |]);
        (split; [discriminate |]);
        (split; [exact Hduring |
                   split; [reflexivity | split; [simpl; lia | right; exact Hpool]]]).
  - (* the fetch raised *)
    destruct (se_broadcast_raises env ScanFailed);
      eexists _, [SeFetch max_emails true], [SeBroadcast ScanFailed false];
      rewrite <- !app_assoc;
      (split; [reflexivity | split; [discriminate | no_pool]]).
Qed.

(** C7. While [app.state.processing] is up a scan request is answered
    [already_processing] at once: nothing is fetched, no worker runs, the
    state is untouched and nothing is left pending.  A request that finds
    the flag down raises it before anything else and holds it until the
    scan is complete: the fetch, every worker, the shutdown of the pool
    and every broadcast in between (the awaits at which another request
    can be served) happen with the flag up, so a request arriving at any of
    them is rejected; when workers were started, the last thing done under
    the flag is the shutdown of the pool, which waits for them.  Only the
    closing broadcast comes with the flag down, on every path (no unread
    mail, success, or an exception); the request after that is accepted
    again. *)
Theorem single_flight (env next_env : ScanEnv) (max_emails next_max : Z)
        (log : list scan_event) :
  scan_inbox env max_emails (mkAppState true) log
  = (Some AlreadyProcessing, mkAppState true, log)
  /\ (let '(resp, st, log') := scan_inbox env max_emails (mkAppState false) log in
      processing st = false
      /\ resp <> Some AlreadyProcessing
      /\ (exists during after,
             log' = log ++ SeBroadcast ScanStarted true :: during ++ after
             /\ forallb under_flag during = true
             /\ forallb closing_broadcast after = true
             /\ (1 <= length after)%nat
             /\ (forallb (fun e => negb (is_task e)) during = true
                 \/ exists before, during = before ++ [SePoolDone true])
             /\ forall e l,
                  e ∈ SeBroadcast ScanStarted true :: during ->
                  scan_inbox next_env next_max (mkAppState (under_flag e)) l
                  = (Some AlreadyProcessing, mkAppState (under_flag e), l))
      /\ (scan_inbox next_env next_max st log').1.1 <> Some AlreadyProcessing).
Proof.
  split; [apply rejected_while_processing |].
  destruct (accepted_scan env max_emails log)
    as (resp & during & after & -> & Hresp & Hduring & Hafter & Hlen & Hpool).
  split; [reflexivity |]. split; [assumption |]. split.
  - exists during, after. repeat split; try assumption.
    intros e l [-> | He]%elem_of_cons; [reflexivity |].
    rewrite forallb_forall in Hduring.
    rewrite (Hduring e) by now apply list_elem_of_In.
    reflexivity.
  - destruct (accepted_scan next_env next_max
                (log ++ SeBroadcast ScanStarted true :: during ++ after))
      as (resp' & during' & after' & -> & Hresp' & _).
    exact Hresp'.
Qed.

(** An empty inbox: the flag goes up, the fetch finds nothing, the flag
    comes down, and the answer reports zero messages. *)
Example empty_inbox_scan :
  scan_inbox (mkScanEnv (fun _ => false) (Some []) (fun _ => FutTruthy)) 20
             (mkAppState false) []
  = (Some (Success 0 0), mkAppState false,
     [SeBroadcast ScanStarted true; SeFetch 20 true;
      SeBroadcast (ScanCompleted 0) false]).
Proof. reflexivity. Qed.

(** Two unread messages, one of which a worker fails to process. *)
Example two_message_scan :
  scan_inbox (mkScanEnv (fun _ => false)
                (Some [Examples.message "m1" "a@b.c" "Hi";
                       Examples.message "m2" "d@e.f" "Ho"])
                (fun i => if Nat.eqb i 0 then FutTruthy else FutFalsy)) 20
             (mkAppState false) []
  = (Some (Success 2 1), mkAppState false,
     [SeBroadcast ScanStarted true; SeFetch 20 true;
      SeBroadcast (ScanProgress 2 0) true; SeTask 0 true; SeTask 1 true;
      SeBroadcast (ScanProgress 2 1) true; SeBroadcast (ScanProgress 2 2) true;
      SePoolDone true;
      SeBroadcast (ScanCompleted 1) false]).
Proof. reflexivity. Qed.

(** A worker whose result cannot be collected: the pool shuts down, then
    the handler lowers the flag. *)
Example failing_scan :
  scan_inbox (mkScanEnv (fun _ => false)
                (Some [Examples.message "m1" "a@b.c" "Hi"])
                (fun _ => FutRaises)) 20
             (mkAppState false) []
  = (Some Http500, mkAppState false,
     [SeBroadcast ScanStarted true; SeFetch 20 true;
      SeBroadcast (ScanProgress 1 0) true; SeTask 0 true;
      SePoolDone true;
      SeBroadcast ScanFailed false]).
Proof. reflexivity. Qed.

End EnterpriseFacts.

(* ===================================================================== *)
(** * db_manager.py: the store                                            *)
(* ===================================================================== *)

Module DbFacts.
Import DbManager.

(** Whether the write succeeds and what it does outside does not depend on
    what the store holds. *)
Lemma save_attempts_any_store (outcome : nat -> WriteOutcome) (limit todo attempt : nat)
      (db1 db2 : gmap string Row) (email_id : string) (r : Row) :
  (save_attempts outcome limit todo attempt db1 email_id r).1.1
  = (save_attempts outcome limit todo attempt db2 email_id r).1.1
  /\ (save_attempts outcome limit todo attempt db1 email_id r).2
     = (save_attempts outcome limit todo attempt db2 email_id r).2.
Proof.
  revert attempt. induction todo as [|todo IH]; intros attempt; cbn [save_attempts].
  - split; reflexivity.
  - destruct (outcome attempt); try (split; reflexivity).
    destruct (attempt <? limit - 1)%nat; [| split; reflexivity].
    specialize (IH (S attempt)).
    destruct (save_attempts outcome limit todo (S attempt) db1 email_id r)
      as [[ok1 d1] e1].
    destruct (save_attempts outcome limit todo (S attempt) db2 email_id r)
      as [[ok2 d2] e2].
    simpl in *. destruct IH as [-> ->]. split; reflexivity.
Qed.

(** A write leaves the store as it was or adds the row under its own key. *)
Lemma save_attempts_store (outcome : nat -> WriteOutcome) (limit todo attempt : nat)
      (db : gmap string Row) (email_id : string) (r : Row) :
  let '(ok, db', _) := save_attempts outcome limit todo attempt db email_id r in
  db' = if ok then <[email_id := r]> db else db.
Proof.
  revert attempt. induction todo as [|todo IH]; intros attempt; cbn [save_attempts].
  - reflexivity.
  - destruct (outcome attempt); try reflexivity.
    destruct (attempt <? limit - 1)%nat; [| reflexivity].
    specialize (IH (S attempt)).
    destruct (save_attempts outcome limit todo (S attempt) db email_id r)
      as [[ok d] e].
    exact IH.
Qed.

Lemma save_keeps_rows (outcome : nat -> WriteOutcome) (db : gmap string Row)
      (email_id : string) (email : Message) (ai : AiResult) (x : string) :
  is_Some (db !! x) ->
  is_Some ((save_email_analysis outcome db email_id email ai).1.2 !! x).
Proof.
  intros Hx. unfold save_email_analysis.
  pose proof (save_attempts_store outcome max_retries max_retries 0 db email_id
                (new_row email ai)) as H.
  destruct (save_attempts _ _ _ _ _ _ _) as [[ok db'] evs]. simpl. subst db'.
  destruct ok; [| assumption].
  destruct (decide (email_id = x)) as [-> | Hne].
  - rewrite lookup_insert_eq. eauto.
  - now rewrite lookup_insert_ne.
Qed.

(** Three attempts that all find the database locked: the write is given
    up after sleeping 0.5 s and 1.0 s, and the store is unchanged. *)
Lemma save_gives_up_when_locked (db : gmap string Row) (email_id : string)
      (email : Message) (ai : AiResult) :
  save_email_analysis (fun _ => WriteLocked) db email_id email ai
  = (false, db,
     [EvDbWrite email_id 0; EvSleep 500;
      EvDbWrite email_id 1; EvSleep 1000;
      EvDbWrite email_id 2]).
Proof. reflexivity. Qed.

(** The retry schedule of [save_email_analysis], attempt by attempt: the
    row is written by the first attempt that succeeds, provided every
    attempt before it found the database locked; a locked first attempt is
    followed by a sleep of 0.5 s, a locked second one by a sleep of 1.0 s;
    any other error, or a lock at the third attempt, ends the call with
    [False] and an unchanged store.  There is no fourth attempt. *)
Theorem save_retry_schedule (outcome : nat -> WriteOutcome)
        (db : gmap string Row) (email_id : string)
        (email : Message) (ai : AiResult) :
  let r := new_row email ai in
  let w := EvDbWrite email_id in
  save_email_analysis outcome db email_id email ai
  = match outcome 0%nat with
    | WriteOk => (true, <[email_id := r]> db, [w 0%nat])
    | WriteLocked =>
        match outcome 1%nat with
        | WriteOk =>
            (true, <[email_id := r]> db, [w 0%nat; EvSleep 500; w 1%nat])
        | WriteLocked =>
            match outcome 2%nat with
            | WriteOk =>
                (true, <[email_id := r]> db,
                 [w 0%nat; EvSleep 500; w 1%nat; EvSleep 1000; w 2%nat])
            | _ =>
                (false, db,
                 [w 0%nat; EvSleep 500; w 1%nat; EvSleep 1000; w 2%nat])
            end
        | _ => (false, db, [w 0%nat; EvSleep 500; w 1%nat])
        end
    | _ => (false, db, [w 0%nat])
    end.
Proof.
  unfold save_email_analysis, max_retries. cbn [save_attempts].
  destruct (outcome 0%nat); try reflexivity.
  cbn. destruct (outcome 1%nat); try reflexivity.
  cbn. destruct (outcome 2%nat); reflexivity.
Qed.

(** A lock that clears in time: the second attempt writes the row. *)
Example save_retries :
  save_email_analysis
    (fun attempt => if Nat.eqb attempt 0 then WriteLocked else WriteOk)
    ∅ "m1" (Examples.message "m1" "a@b.c" "Hi")
    (Examples.verdict "Personal" "Low" "Hello" true)
  = (true,
     {[ "m1"%string := new_row (Examples.message "m1" "a@b.c" "Hi")
                               (Examples.verdict "Personal" "Low" "Hello" true) ]},
     [EvDbWrite "m1" 0; EvSleep 500; EvDbWrite "m1" 1]).
Proof. reflexivity. Qed.

End DbFacts.

(* ===================================================================== *)
(** * fast_scan.py: the scanner                                           *)
(* ===================================================================== *)

Module FastScanFacts.
Import DbManager FastScan.

(** ** Reading the store *)

(** C10. [get_email_analysis] always returns: a lookup that fails inside
    gives [None], which is also what a lookup that finds no row gives.  A
    task whose lookup fails therefore runs exactly as it would on a store
    without the row: it is not a cache hit, it goes on to the analysis, and
    it returns the same result and does the same things outside. *)
Theorem failed_read_is_a_miss
        (ack_reply : string -> string -> string) (env : TaskEnv)
        (db : gmap string Row) (email : Message) :
  get_email_analysis ReadRaises db (msg_id email) = None
  /\ (get_email_analysis ReadOk db (msg_id email) = None
      <-> db !! msg_id email = None)
  /\ (let failing :=
        mkTaskEnv ReadRaises (te_api env) (te_write env) (te_draft env) in
      let reading :=
        mkTaskEnv ReadOk (te_api env) (te_write env) (te_draft env) in
      let '(result, _, events) :=
        process_single_email ack_reply failing db email in
      let '(result', _, events') :=
        process_single_email ack_reply reading (delete (msg_id email) db) email in
      result = result' /\ events = events'
      /\ tr_status result <> StCached
      /\ exists rest,
          events = (AiAgent.analyze_email ack_reply (te_api env)
                      (msg_sender email) (msg_subject email) (msg_body email)).2
                   ++ rest).
Proof.
  split; [reflexivity | split; [reflexivity |]].
  cbv zeta. unfold process_single_email. cbn [te_read te_api te_write te_draft].
  cbn [get_email_analysis]. rewrite lookup_delete_eq.
  destruct (AiAgent.analyze_email _ _ _ _ _) as [ai ev_ai]. cbn [snd].
  unfold save_email_analysis.
  pose proof (DbFacts.save_attempts_any_store (te_write env) max_retries
                max_retries 0 db (delete (msg_id email) db) (msg_id email)
                (new_row email ai)) as [_ Hev].
  destruct (save_attempts _ _ _ _ db _ _) as [[ok1 d1] e1].
  destruct (save_attempts _ _ _ _ (delete _ db) _ _) as [[ok2 d2] e2].
  simpl in Hev. subst e2.
  destruct (truthy_bool (ar_needs_reply ai) && truthy_str (ar_reply ai)).
  - destruct (te_draft env); (repeat split; [discriminate | eauto]).
  - repeat split; [discriminate | eauto].
Qed.

(** ** Cache hits *)

Lemma cache_hit (ack_reply : string -> string -> string) (env : TaskEnv)
      (db : gmap string Row) (email : Message) :
  te_read env = ReadOk -> is_Some (db !! msg_id email) ->
  process_single_email ack_reply env db email
  = (mkTaskResult StCached (msg_id email), db, []).
Proof.
  intros Hr [row Hrow]. unfold process_single_email.
  rewrite Hr. cbn [get_email_analysis]. now rewrite Hrow.
Qed.

Lemma task_keeps_rows (ack_reply : string -> string -> string) (env : TaskEnv)
      (db : gmap string Row) (email : Message) (x : string) :
  is_Some (db !! x) ->
  is_Some ((process_single_email ack_reply env db email).1.2 !! x).
Proof.
  intros Hx. unfold process_single_email.
  destruct (get_email_analysis _ _ _); [assumption |].
  destruct (AiAgent.analyze_email _ _ _ _ _) as [ai ev_ai].
  pose proof (DbFacts.save_keeps_rows (te_write env) db (msg_id email) email ai
                x Hx) as Hsave.
  destruct (save_email_analysis _ _ _ _ _) as [[ok db'] ev_db].
  destruct (_ && _); [destruct (te_draft env) |]; exact Hsave.
Qed.

Lemma run_tasks_dedupe (ack_reply : string -> string -> string)
      (envs : nat -> TaskEnv) (i : nat) (db : gmap string Row)
      (emails : list Message) (x : string) :
  (forall j email, emails !! j = Some email -> msg_id email = x ->
                   te_read (envs (i + j)%nat) = ReadOk) ->
  is_Some (db !! x) ->
  let '(_, db', log) := run_tasks ack_reply envs i db emails in
  is_Some (db' !! x) /\ forall e, (x, e) ∉ log.
Proof.
  revert i db.
  induction emails as [|email rest IH]; intros i db Hread Hx; cbn [run_tasks].
  - split; [assumption | intros e He; inversion He].
  - pose proof (task_keeps_rows ack_reply (envs i) db email x Hx) as Hkeep.
    assert (Hhit : msg_id email = x ->
                   process_single_email ack_reply (envs i) db email
                   = (mkTaskResult StCached (msg_id email), db, [])).
    { intros Hid. apply cache_hit; [| now rewrite Hid].
      specialize (Hread 0%nat email eq_refl Hid).
      now rewrite Nat.add_0_r in Hread. }
    destruct (process_single_email ack_reply (envs i) db email)
      as [[res db1] evs].
    simpl in Hkeep.
    assert (Hrest : forall j email', rest !! j = Some email' ->
                      msg_id email' = x ->
                      te_read (envs (S i + j)%nat) = ReadOk).
    { intros j email' Hj Hid. specialize (Hread (S j) email' Hj Hid).
      now rewrite Nat.add_succ_r in Hread. }
    specialize (IH (S i) db1 Hrest Hkeep).
    destruct (run_tasks ack_reply envs (S i) db1 rest) as [[ress db2] log].
    destruct IH as [Hx2 Hlog]. split; [assumption |].
    intros e [He | He]%elem_of_app; [| now apply (Hlog e)].
    apply list_elem_of_fmap in He as (e' & Heq & He').
    injection Heq as Hid _.
    specialize (Hhit (eq_sym Hid)). injection Hhit as _ _ ->.
    inversion He'.
Qed.

Lemma run_tasks_keep_rows (ack_reply : string -> string -> string)
      (envs : nat -> TaskEnv) (i : nat) (db : gmap string Row)
      (emails : list Message) (x : string) :
  is_Some (db !! x) ->
  is_Some ((run_tasks ack_reply envs i db emails).1.2 !! x).
Proof.
  revert i db. induction emails as [|email rest IH]; intros i db Hx;
    cbn [run_tasks]; [assumption |].
  pose proof (task_keeps_rows ack_reply (envs i) db email x Hx) as Hkeep.
  destruct (process_single_email ack_reply (envs i) db email)
    as [[res db1] evs].
  specialize (IH (S i) db1 Hkeep).
  destruct (run_tasks ack_reply envs (S i) db1 rest) as [[ress db2] log].
  exact IH.
Qed.

Lemma run_scans_keep_rows (ack_reply : string -> string -> string)
      (envs : nat -> nat -> TaskEnv) (k : nat) (db : gmap string Row)
      (batches : list (list Message)) (x : string) :
  is_Some (db !! x) ->
  is_Some ((run_scans ack_reply envs k db batches).1.2 !! x).
Proof.
  revert k db. induction batches as [|emails rest IH]; intros k db Hx;
    cbn [run_scans]; [assumption |].
  unfold scan_parallel.
  pose proof (run_tasks_keep_rows ack_reply (envs k) 0 db emails x Hx) as Hk.
  destruct (Z.of_nat (length emails) =? 0).
  - specialize (IH (S k) db Hx).
    destruct (run_scans ack_reply envs (S k) db rest) as [[reps db2] log].
    exact IH.
  - destruct (run_tasks ack_reply (envs k) 0 db emails) as [[ress db1] log1].
    specialize (IH (S k) db1 Hk).
    destruct (run_scans ack_reply envs (S k) db1 rest) as [[reps db2] log].
    exact IH.
Qed.

Lemma run_scans_dedupe (ack_reply : string -> string -> string)
      (envs : nat -> nat -> TaskEnv) (k : nat) (db : gmap string Row)
      (batches : list (list Message)) (x : string) :
  (forall j i emails email,
      batches !! j = Some emails -> emails !! i = Some email ->
      msg_id email = x -> te_read (envs (k + j)%nat i) = ReadOk) ->
  is_Some (db !! x) ->
  forall e, (x, e) ∉ (run_scans ack_reply envs k db batches).2.
Proof.
  revert k db. induction batches as [|emails rest IH]; intros k db Hread Hx;
    cbn [run_scans].
  - intros e He. inversion He.
  - unfold scan_parallel.
    assert (Hhere : forall i email, emails !! i = Some email ->
                      msg_id email = x ->
                      te_read (envs k (0 + i)%nat) = ReadOk).
    { intros i email Hi Hid.
      specialize (Hread 0%nat i emails email eq_refl Hi Hid).
      now rewrite Nat.add_0_r in Hread. }
    assert (Hlater : forall j i emails' email,
               rest !! j = Some emails' -> emails' !! i = Some email ->
               msg_id email = x -> te_read (envs (S k + j)%nat i) = ReadOk).
    { intros j i emails' email Hj Hi Hid.
      specialize (Hread (S j) i emails' email Hj Hi Hid).
      now rewrite Nat.add_succ_r in Hread. }
    pose proof (run_tasks_dedupe ack_reply (envs k) 0 db emails x Hhere Hx)
      as Htasks.
    destruct (Z.of_nat (length emails) =? 0).
    + specialize (IH (S k) db Hlater Hx).
      destruct (run_scans ack_reply envs (S k) db rest) as [[reps db2] log].
      exact IH.
    + destruct (run_tasks ack_reply (envs k) 0 db emails) as [[ress db1] log1].
      destruct Htasks as [Hx1 Hlog1].
      specialize (IH (S k) db1 Hlater Hx1).
      destruct (run_scans ack_reply envs (S k) db1 rest) as [[reps db2] log].
      simpl in *.
      intros e [He | He]%elem_of_app; [now apply (Hlog1 e) | now apply (IH e)].
Qed.

(** C1 (as amended). Once the store holds a row for an id, the row stays
    in the store over any number of scans, whatever the lookups, the API
    and the writes do.  A task for that id whose lookup runs without an
    internal error is a cache hit on any store that holds the row: it
    answers [cached], leaves the store as it is and does nothing outside.
    So over any number of scans in which the lookups of the tasks for that
    id run (task [i] of scan [k + j] when message [i] of batch [j] has the
    id), whether or not the lookups made for other messages fail, nothing
    at all is done for that id: no API request, no write, no draft. *)
Theorem dedupe (ack_reply : string -> string -> string)
        (envs : nat -> nat -> TaskEnv) (k : nat) (db : gmap string Row)
        (batches : list (list Message)) (x : string) :
  is_Some (db !! x) ->
  let '(_, db', log) := run_scans ack_reply envs k db batches in
  is_Some (db' !! x)
  /\ (forall env db0 email,
         te_read env = ReadOk -> is_Some (db0 !! x) -> msg_id email = x ->
         process_single_email ack_reply env db0 email
         = (mkTaskResult StCached x, db0, []))
  /\ ((forall j i emails email,
          batches !! j = Some emails -> emails !! i = Some email ->
          msg_id email = x -> te_read (envs (k + j)%nat i) = ReadOk) ->
      api_calls_for x log = 0%nat /\ forall e, (x, e) ∉ log).
Proof.
  intros Hx.
  pose proof (run_scans_keep_rows ack_reply envs k db batches x Hx) as Hkeep.
  pose proof (run_scans_dedupe ack_reply envs k db batches x) as Hlog.
  destruct (run_scans ack_reply envs k db batches) as [[reps db'] log].
  simpl in Hkeep, Hlog. split; [assumption |]. split.
  - intros env db0 email Hr Hrow <-. now apply cache_hit.
  - intros Hread. specialize (Hlog Hread Hx). split; [| assumption].
    unfold api_calls_for.
    destruct (filter _ log) as [|[y e] l] eqn:Hf; [reflexivity |].
    assert (Hin : (y, e) ∈ filter (fun p => p.1 = x /\ is_api_call p.2 = true) log)
      by (rewrite Hf; left).
    apply list_elem_of_filter in Hin as [[Hy _] Hin]. simpl in Hy. subst y.
    now apply Hlog in Hin.
Qed.

Lemma dedupe_witness :
  let '(_, db', log) :=
    run_scans Examples.ack Examples.other_lookups_fail 0
      {[ "A"%string := new_row (Examples.nth_message 0)
                               (Examples.verdict "Important" "High" "On it." true) ]}
      [[Examples.nth_message 0];
       [Examples.nth_message 0; Examples.nth_message 1]] in
  is_Some (db' !! "A"%string)
  /\ api_calls_for "A" log = 0%nat
  /\ forall e, ("A"%string, e) ∉ log.
Proof.
  pose proof (dedupe Examples.ack Examples.other_lookups_fail 0
                {[ "A"%string := new_row (Examples.nth_message 0)
                     (Examples.verdict "Important" "High" "On it." true) ]}
                [[Examples.nth_message 0];
                 [Examples.nth_message 0; Examples.nth_message 1]]
                "A") as H.
  destruct (run_scans _ _ _ _ _) as [[reps db'] log].
  destruct H as (Hrow & _ & Hlog).
  - rewrite lookup_singleton_eq. eauto.
  - split; [exact Hrow |]. apply Hlog.
    intros [|[|j]] i emails email Hj Hi Hid; simpl in Hj.
    + injection Hj as <-. destruct i as [|i]; [reflexivity | discriminate].
    + injection Hj as <-. destruct i as [|[|i]]; simpl in Hi.
      * reflexivity.
      * injection Hi as <-. discriminate.
      * discriminate.
    + discriminate.
Defined.

(** In the run of the witness the lookup made for message B fails; B is
    taken for new, classified, stored and drafted a reply, and A is still
    left alone. *)
Example dedupe_with_failing_neighbour :
  (run_scans Examples.ack Examples.other_lookups_fail 0
     {[ "A"%string := new_row (Examples.nth_message 0)
                              (Examples.verdict "Important" "High" "On it." true) ]}
     [[Examples.nth_message 0];
      [Examples.nth_message 0; Examples.nth_message 1]]).2
  = [("B"%string, EvApiCall "alice@example.com" "Hello");
     ("B"%string, EvDbWrite "B" 0);
     ("B"%string, EvDraft "alice@example.com" "Hello" (GwReturns true))].
Proof. reflexivity. Qed.

(** In that run message B, which has no row yet, is classified, stored and
    drafted a reply. *)
Example dedupe_other_message :
  (run_scans Examples.ack (fun _ _ => Examples.task_ok) 0
     {[ "A"%string := new_row (Examples.nth_message 0)
                              (Examples.verdict "Important" "High" "On it." true) ]}
     [[Examples.nth_message 0];
      [Examples.nth_message 0; Examples.nth_message 1]]).2
  = [("B"%string, EvApiCall "alice@example.com" "Hello");
     ("B"%string, EvDbWrite "B" 0);
     ("B"%string, EvDraft "alice@example.com" "Hello" (GwReturns true))].
Proof. reflexivity. Qed.

(** C1, counterexample.  Message A is classified and stored by a first
    scan.  In a second scan the lookup fails inside [get_email_analysis];
    the task takes that for a miss and sends A to the API again, although
    its row is in the store. *)
Lemma dedupe_broken_by_failed_read :
  let first :=
    run_scans Examples.ack Examples.second_scan_cannot_read 0 ∅
              [[Examples.nth_message 0]] in
  let both :=
    run_scans Examples.ack Examples.second_scan_cannot_read 0 ∅
              [[Examples.nth_message 0]; [Examples.nth_message 0]] in
  first.1.2 !! "A"%string
  = Some (new_row (Examples.nth_message 0)
                  (Examples.verdict "Important" "High" "On it." true))
  /\ api_calls_for "A" first.2 = 1%nat
  /\ api_calls_for "A" both.2 = 2%nat
  /\ both.1.1 = [mkScanReport 1 0 0 1; mkScanReport 1 0 0 1].
Proof. cbv zeta. repeat split. Qed.

End FastScanFacts.

(* ===================================================================== *)
(** * fast_scan.py: the scan report                                       *)
(* ===================================================================== *)

Module ReportFacts.
Import DbManager FastScan.

Lemma count_result_counts (r : ScanReport) (result : TaskResult) :
  let r' := count_result r result in
  processed r' + cached r' + errors r'
  = processed r + cached r + errors r + 1
  /\ total r' = total r.
Proof. unfold count_result. destruct (tr_status result); simpl; lia. Qed.

(** Each result collected moves exactly one counter up by one. *)
Lemma tally_counts (completed : list TaskResult) (r : ScanReport) :
  let r' := tally completed r in
  processed r' + cached r' + errors r'
  = processed r + cached r + errors r + Z.of_nat (length completed)
  /\ total r' = total r.
Proof.
  revert r. induction completed as [|x l IH]; intros r.
  - simpl. lia.
  - unfold tally in *. cbn [fold_left].
    specialize (IH (count_result r x)).
    pose proof (count_result_counts r x) as Hx.
    cbv zeta in *. rewrite length_cons. lia.
Qed.

Lemma count_result_comm (r : ScanReport) (x y : TaskResult) :
  count_result (count_result r x) y = count_result (count_result r y) x.
Proof.
  unfold count_result. destruct (tr_status x), (tr_status y); reflexivity.
Qed.

(** The report does not depend on the order in which the tasks complete. *)
Lemma tally_any_order (l1 l2 : list TaskResult) (r : ScanReport) :
  l1 ≡ₚ l2 -> tally l1 r = tally l2 r.
Proof.
  intros Hp. revert r. unfold tally.
  induction Hp as [| x l l' _ IH | x y l | l l' l'' _ IH1 _ IH2]; intros r.
  - reflexivity.
  - cbn [fold_left]. apply IH.
  - cbn [fold_left]. now rewrite count_result_comm.
  - now rewrite IH1.
Qed.

Lemma tally_any_order_witness :
  tally [mkTaskResult StProcessed "A"; mkTaskResult StCached "B";
         mkTaskResult StError "C"] (mkScanReport 0 0 0 3)
  = tally [mkTaskResult StError "C"; mkTaskResult StProcessed "A";
           mkTaskResult StCached "B"] (mkScanReport 0 0 0 3).
Proof.
  apply (tally_any_order
           [mkTaskResult StProcessed "A"; mkTaskResult StCached "B";
            mkTaskResult StError "C"]
           [mkTaskResult StError "C"; mkTaskResult StProcessed "A";
            mkTaskResult StCached "B"]).
  change ([mkTaskResult StProcessed "A"; mkTaskResult StCached "B"]
            ++ [mkTaskResult StError "C"]
          ≡ₚ [mkTaskResult StError "C"]
            ++ [mkTaskResult StProcessed "A"; mkTaskResult StCached "B"]).
  apply Permutation_app_comm.
Defined.

Lemma run_tasks_length (ack_reply : string -> string -> string)
      (envs : nat -> TaskEnv) (i : nat) (db : gmap string Row)
      (emails : list Message) :
  length (run_tasks ack_reply envs i db emails).1.1 = length emails.
Proof.
  revert i db. induction emails as [|email rest IH]; intros i db; cbn [run_tasks].
  - reflexivity.
  - destruct (process_single_email ack_reply (envs i) db email) as [[res db1] evs].
    specialize (IH (S i) db1).
    destruct (run_tasks ack_reply envs (S i) db1 rest) as [[ress db2] log].
    simpl in *. now rewrite IH.
Qed.

(** C3. Every report of [scan_parallel] accounts for each fetched message
    exactly once: [total] is the size of the batch and
    [processed + cached + errors = total], whatever the store, the API, the
    database and the gateway do; and an empty batch gives the report with
    four zeros (and leaves the store alone). *)
Theorem conservation (ack_reply : string -> string -> string)
        (envs : nat -> TaskEnv) (db : gmap string Row) (emails : list Message) :
  (let '(report, _, _) := scan_parallel ack_reply envs db emails in
   total report = Z.of_nat (length emails)
   /\ processed report + cached report + errors report = total report)
  /\ scan_parallel ack_reply envs db [] = (mkScanReport 0 0 0 0, db, []).
Proof.
  split; [| reflexivity].
  unfold scan_parallel.
  destruct (Z.of_nat (length emails) =? 0) eqn:E.
  - apply Z.eqb_eq in E. simpl. lia.
  - pose proof (run_tasks_length ack_reply envs 0 db emails) as Hlen.
    destruct (run_tasks ack_reply envs 0 db emails) as [[completed db'] log].
    simpl in Hlen.
    pose proof (tally_counts completed
                  (mkScanReport 0 0 0 (Z.of_nat (length emails)))) as Ht.
    cbv zeta in Ht. simpl in Ht. lia.
Qed.

(** Scenario C of the specification: twenty new messages, all fine. *)
Example scenario_C :
  (scan_parallel Examples.ack (fun _ => Examples.task_ok) ∅ Examples.batch20).1.1
  = mkScanReport 20 0 0 20.
Proof. vm_compute. reflexivity. Qed.

(** The value [save_email_analysis] returns has no influence on the
    status of the task. *)
Lemma status_ignores_save (ack_reply : string -> string -> string)
      (env : TaskEnv) (write : nat -> WriteOutcome)
      (db : gmap string Row) (email : Message) :
  tr_status (process_single_email ack_reply
               (mkTaskEnv (te_read env) (te_api env) write (te_draft env))
               db email).1.1
  = tr_status (process_single_email ack_reply env db email).1.1.
Proof.
  unfold process_single_email. cbn [te_read te_api te_write te_draft].
  destruct (get_email_analysis _ _ _); [reflexivity |].
  destruct (AiAgent.analyze_email _ _ _ _ _) as [ai ev_ai].
  destruct (save_email_analysis write _ _ _ _) as [[ok1 d1] e1].
  destruct (save_email_analysis (te_write env) _ _ _ _) as [[ok2 d2] e2].
  destruct (_ && _); [destruct (te_draft env) |]; reflexivity.
Qed.

(** C2, at the failing input.  In a batch of twenty new messages the
    database stays locked for message H: its write is tried three times,
    with sleeps of 0.5 s and 1.0 s in between, and given up; no row is
    stored for it.  The report nevertheless counts H as processed: it
    shows twenty processed and no error. *)
Theorem failed_save_counted_as_processed :
  save_email_analysis (te_write (Examples.one_locked 7)) ∅ "H"
    (Examples.nth_message 7) (Examples.verdict "Important" "High" "On it." true)
  = (false, ∅,
     [EvDbWrite "H" 0; EvSleep 500; EvDbWrite "H" 1; EvSleep 1000;
      EvDbWrite "H" 2])
  /\ (let '(report, db, _) :=
        scan_parallel Examples.ack Examples.one_locked ∅ Examples.batch20 in
      report = mkScanReport 20 0 0 20
      /\ db !! "H"%string = None
      /\ size db = 19%nat).
Proof. split; [reflexivity | vm_compute; repeat split]. Qed.

End ReportFacts.

(* ===================================================================== *)
(** * ai_agent.py: the rate limiter                                       *)
(* ===================================================================== *)

Module RateLimitFacts.
Import AiAgent RateLimit.

(** ** Counting *)

Lemma filter_length_le (P Q : Z -> Prop) `{!forall x, Decision (P x)}
      `{!forall x, Decision (Q x)} (l : list Z) :
  (forall x, x ∈ l -> P x -> Q x) ->
  (length (filter P l) <= length (filter Q l))%nat.
Proof.
  induction l as [|a l IH]; intros Hpq; [reflexivity |].
  assert (IH' : (length (filter P l) <= length (filter Q l))%nat).
  { apply IH. intros x Hx. apply Hpq. now right. }
  destruct (decide (P a)) as [Hp | Hp].
  - rewrite (filter_cons_True P) by assumption.
    rewrite (filter_cons_True Q) by (apply Hpq; [left | assumption]).
    simpl. lia.
  - rewrite (filter_cons_False P) by assumption.
    destruct (decide (Q a)).
    + rewrite (filter_cons_True Q) by assumption. simpl. lia.
    + rewrite (filter_cons_False Q) by assumption. lia.
Qed.

Lemma filter_length_eq (P Q : Z -> Prop) `{!forall x, Decision (P x)}
      `{!forall x, Decision (Q x)} (l : list Z) :
  (forall x, x ∈ l -> P x <-> Q x) ->
  length (filter P l) = length (filter Q l).
Proof.
  intros Hpq. apply Nat.le_antisymm; apply filter_length_le; intros x Hx;
    now apply Hpq.
Qed.

Lemma count_after_mono (x y : Z) (l : list Z) :
  x <= y -> (count_after y l <= count_after x l)%nat.
Proof.
  intros Hxy. unfold count_after. apply filter_length_le. intros; lia.
Qed.

Lemma count_after_snoc (x s : Z) (l : list Z) :
  count_after x (l ++ [s])
  = (count_after x l + if decide (x < s)%Z then 1 else 0)%nat.
Proof.
  unfold count_after. rewrite filter_app, length_app.
  destruct (decide (x < s)).
  - now rewrite filter_cons_True.
  - now rewrite filter_cons_False.
Qed.

(** Pruning at [y] does not change what lies after a later [x]. *)
Lemma count_after_pruned (x y : Z) (l : list Z) :
  y <= x -> count_after x (filter (fun c => y < c) l) = count_after x l.
Proof.
  intros Hyx. unfold count_after.
  induction l as [|a l IH]; [reflexivity |].
  destruct (decide (y < a)).
  - rewrite (filter_cons_True (fun c => y < c)) by assumption.
    destruct (decide (x < a)).
    + rewrite !(filter_cons_True (fun c => x < c)) by assumption.
      simpl. now rewrite IH.
    + now rewrite !(filter_cons_False (fun c => x < c)) by assumption.
  - rewrite (filter_cons_False (fun c => y < c)) by assumption.
    rewrite (filter_cons_False (fun c => x < c)) by lia. exact IH.
Qed.

Lemma pruned_all_after (y : Z) (l : list Z) :
  count_after y (filter (fun c => y < c) l)
  = length (filter (fun c => y < c) l).
Proof.
  unfold count_after. f_equal. apply list_filter_filter_l. intros; lia.
Qed.

Lemma in_window_le_after (period t : Z) (l : list Z) :
  in_window period t l <= Z.of_nat (count_after (t - period) l).
Proof.
  unfold in_window, count_after. apply inj_le, filter_length_le. intros; lia.
Qed.

Lemma in_window_past (period t : Z) (l : list Z) :
  (forall h, h ∈ l -> h <= t) ->
  in_window period t l = Z.of_nat (count_after (t - period) l).
Proof.
  intros H. unfold in_window, count_after. f_equal.
  apply filter_length_eq. intros x Hx. specialize (H x Hx). lia.
Qed.

Lemma in_window_snoc (period t s : Z) (l : list Z) :
  in_window period t (l ++ [s])
  = in_window period t l + (if decide (t - period < s /\ s <= t) then 1 else 0).
Proof.
  unfold in_window. rewrite filter_app, length_app.
  destruct (decide (t - period < s /\ s <= t)).
  - rewrite filter_cons_True by assumption. simpl. lia.
  - rewrite filter_cons_False by assumption. simpl. lia.
Qed.

(** The head of the pruned list is neither counted after itself nor
    outside the window. *)
Lemma count_after_head (c0 : Z) (rest : list Z) :
  (count_after c0 (c0 :: rest) <= length rest)%nat.
Proof.
  unfold count_after. rewrite filter_cons_False by lia.
  apply length_filter.
Qed.

Lemma pruned_head (y c0 : Z) (rest l : list Z) :
  filter (fun c => y < c) l = c0 :: rest -> y < c0.
Proof.
  intros H.
  assert (Hin : c0 ∈ filter (fun c => y < c) l) by (rewrite H; left).
  now apply list_elem_of_filter in Hin as [Hc _].
Qed.

(** ** One acquisition *)

(** Appending a timestamp that leaves fewer than [calls] earlier ones in
    its own window keeps every window within [calls]. *)
Lemma window_after_append (calls period clock stamp : Z) (history : list Z) :
  (forall h, h ∈ history -> h <= clock) ->
  clock <= stamp ->
  (forall t, in_window period t history <= calls) ->
  Z.of_nat (count_after (stamp - period) history) <= calls - 1 ->
  forall t, in_window period t (history ++ [stamp]) <= calls.
Proof.
  intros Hpast Hclock Hwin Hfew t. rewrite in_window_snoc.
  destruct (decide (t - period < stamp /\ stamp <= t)) as [[_ Ht] | _].
  - pose proof (in_window_le_after period t history) as H1.
    pose proof (count_after_mono (stamp - period) (t - period) history
                  ltac:(lia)) as H2.
    lia.
  - specialize (Hwin t). lia.
Qed.

Lemma acquire_keeps_inv (calls period clock : Z) (gap lag : nat)
      (calls_made history : list Z) :
  1 <= calls ->
  limiter_inv calls period clock calls_made history ->
  exists calls_made' stamp events,
    acquire calls period (clock + Z.of_nat gap) lag calls_made
    = Some (calls_made', stamp, events)
    /\ clock <= stamp
    /\ limiter_inv calls period stamp calls_made' (history ++ [stamp])
    /\ sleeps_as_needed calls period (clock + Z.of_nat gap) history
                        events stamp.
Proof.
  intros Hcalls [Hpast Hrecent Hkept Hwin].
  set (now := clock + Z.of_nat gap).
  assert (Hnow : clock <= now) by (unfold now; lia).
  unfold acquire, wrapper_enter, sleeps_as_needed. fold now.
  rewrite <- (Hkept (now - period)) by lia.
  set (pruned := filter (fun c => now - period < c) calls_made).
  (* what the pruned list knows about the history *)
  assert (Hpr : forall x, now - period <= x ->
                          count_after x pruned = count_after x history).
  { intros x Hx. unfold pruned. rewrite count_after_pruned by assumption.
    apply Hrecent. lia. }
  assert (Hpk : forall x, now - period <= x ->
                          filter (fun c => x < c) pruned
                          = filter (fun c => x < c) history).
  { intros x Hx. unfold pruned.
    rewrite list_filter_filter_l by (intros; lia).
    apply Hkept. lia. }
  assert (Hlen : Z.of_nat (length pruned) <= calls).
  { unfold pruned. rewrite <- pruned_all_after. fold pruned.
    rewrite Hpr by lia. rewrite <- in_window_past; [apply Hwin |].
    intros h Hh. specialize (Hpast h Hh). lia. }
  assert (Hinv : forall stamp, now <= stamp ->
             Z.of_nat (count_after (stamp - period) pruned) <= calls - 1 ->
             limiter_inv calls period stamp (wrapper_append stamp pruned)
                         (history ++ [stamp])).
  { intros stamp Hstamp Hfew. split.
    - intros h [Hh | Hh]%elem_of_app.
      + specialize (Hpast h Hh). lia.
      + apply list_elem_of_singleton in Hh. lia.
    - intros x Hx. unfold wrapper_append. rewrite !count_after_snoc.
      rewrite Hpr by lia. reflexivity.
    - intros x Hx. unfold wrapper_append. rewrite !filter_app.
      rewrite Hpk by lia. reflexivity.
    - apply (window_after_append calls period clock stamp history);
        [assumption | lia | assumption |].
      rewrite <- Hpr by lia. assumption. }
  destruct (Z.of_nat (length pruned) >=? calls) eqn:Hsat.
  - (* saturated: sleep until the oldest call leaves the window *)
    apply Z.geb_le in Hsat.
    destruct pruned as [|c0 rest] eqn:Hp; [simpl in Hsat; lia |].
    assert (Hc0 : now - period < c0) by (apply (pruned_head _ _ rest calls_made); assumption).
    eexists _, _, _. split; [reflexivity |].
    split; [lia |]. split.
    + apply Hinv; [lia |].
      pose proof (count_after_mono c0 (now + (period - (now - c0)) + Z.of_nat lag - period)
                    (c0 :: rest) ltac:(lia)) as H1.
      pose proof (count_after_head c0 rest) as H2.
      simpl length in Hlen. lia.
    + exists c0. repeat split; lia.
  - (* a free slot *)
    rewrite Z.geb_leb in Hsat. apply Z.leb_gt in Hsat.
    eexists _, _, _. split; [reflexivity |].
    split; [lia |]. split.
    + apply Hinv; [lia |].
      pose proof (length_filter (fun c => now + Z.of_nat lag - period < c) pruned) as H1.
      unfold count_after. lia.
    + split; [reflexivity | lia].
Qed.

(** ** Acquisitions one after the other *)

Lemma run_sequential_inv (calls period : Z) (arrivals : list (nat * nat))
      (clock : Z) (calls_made history : list Z) :
  1 <= calls ->
  limiter_inv calls period clock calls_made history ->
  exists passes,
    run_sequential calls period clock calls_made arrivals = Some passes
    /\ length passes = length arrivals
    /\ (forall t, in_window period t (history ++ (stamp_of <$> passes))
                  <= calls)
    /\ forall k p, passes !! k = Some p ->
         sleeps_as_needed calls period (arrived p)
           (history ++ (stamp_of <$> take k passes)) (slept p) (stamp_of p).
Proof.
  intros Hcalls. revert clock calls_made history.
  induction arrivals as [|[gap lag] rest IH]; intros clock cm hist Hinv;
    cbn [run_sequential].
  - exists []. rewrite app_nil_r. repeat split; [apply Hinv |].
    intros k p Hk. now rewrite lookup_nil in Hk.
  - destruct (acquire_keeps_inv calls period clock gap lag cm hist Hcalls Hinv)
      as (cm' & stamp & evs & -> & _ & Hinv' & Hsleep).
    destruct (IH stamp cm' (hist ++ [stamp]) Hinv')
      as (passes & -> & Hlen & Hwin & Hpasses).
    exists (mkPass (clock + Z.of_nat gap) evs stamp :: passes). repeat split.
    + simpl. now rewrite Hlen.
    + intros t. specialize (Hwin t). rewrite <- app_assoc in Hwin. exact Hwin.
    + intros [|k] p Hk; simpl in Hk.
      * injection Hk as <-. simpl. rewrite app_nil_r. exact Hsleep.
      * specialize (Hpasses k p Hk). rewrite <- app_assoc in Hpasses.
        exact Hpasses.
Qed.

Lemma fresh_limiter (calls period clock : Z) :
  0 <= calls -> limiter_inv calls period clock [] [].
Proof.
  intros H. split.
  - intros h Hh. inversion Hh.
  - reflexivity.
  - reflexivity.
  - intros t. unfold in_window. simpl. lia.
Qed.

(** C8 (as amended). For acquisitions that pass through the limiter one
    after the other (the clock does not run backwards and a sleep lasts at
    least as long as asked), with [calls >= 1]: every acquisition is let
    through (none is rejected, none raises); no window [(t - period, t]]
    holds more than [calls] of the timestamps, for any [t]; and each
    acquisition sleeps exactly when [calls] of the earlier timestamps are
    still inside the window at its arrival, then once and for the time
    that remains until the oldest of them leaves the window, and is let
    through no earlier than that; otherwise it does not sleep. *)
Theorem sequential_rate_limit (calls period start : Z)
        (arrivals : list (nat * nat)) :
  1 <= calls ->
  exists passes,
    run_sequential calls period start [] arrivals = Some passes
    /\ length passes = length arrivals
    /\ (forall t, in_window period t (stamp_of <$> passes) <= calls)
    /\ forall k p, passes !! k = Some p ->
         let recent := filter (fun s => arrived p - period < s)
                              (stamp_of <$> take k passes) in
         if Z.of_nat (length recent) >=? calls
         then exists oldest,
                head recent = Some oldest
                /\ 0 < period - (arrived p - oldest)
                /\ slept p = [EvSleep (period - (arrived p - oldest))]
                /\ arrived p + (period - (arrived p - oldest)) <= stamp_of p
         else slept p = [] /\ arrived p <= stamp_of p.
Proof.
  intros Hcalls.
  destruct (run_sequential_inv calls period arrivals start [] [] Hcalls
              (fresh_limiter calls period start ltac:(lia)))
    as (passes & Hrun & Hlen & Hwin & Hpasses).
  exists passes.
  split; [assumption |]. split; [assumption |]. split; [assumption |].
  intros k p Hk. exact (Hpasses k p Hk).
Qed.

Lemma sequential_rate_limit_witness :
  exists passes,
    run_sequential 30 60000 0 [] (replicate 40 (1%nat, 0%nat)) = Some passes
    /\ length passes = length (replicate 40 (1%nat, 0%nat))
    /\ (forall t, in_window 60000 t (stamp_of <$> passes) <= 30)
    /\ forall k p, passes !! k = Some p ->
         let recent := filter (fun s => arrived p - 60000 < s)
                              (stamp_of <$> take k passes) in
         if Z.of_nat (length recent) >=? 30
         then exists oldest,
                head recent = Some oldest
                /\ 0 < 60000 - (arrived p - oldest)
                /\ slept p = [EvSleep (60000 - (arrived p - oldest))]
                /\ arrived p + (60000 - (arrived p - oldest)) <= stamp_of p
         else slept p = [] /\ arrived p <= stamp_of p.
Proof.
  apply (sequential_rate_limit 30 60000 0 (replicate 40 (1%nat, 0%nat))). lia.
Defined.

(** Thirty calls go straight through; the thirty-first is held back until
    the first one is a minute old. *)
Example thirty_first_call_sleeps :
  run_sequential 30 60000 0 [] (replicate 31 (1%nat, 0%nat))
  = Some (map (fun i => mkPass (Z.of_nat i) [] (Z.of_nat i)) (seq 1 30)
            ++ [mkPass 31 [EvSleep 59970] 60001]).
Proof. vm_compute. reflexivity. Qed.

(** ** Workers in the limiter at the same time *)

Lemma acquire_parts (calls period now : Z) (lag : nat)
      (calls_made calls_made' : list Z) (stamp : Z) (events : list event) :
  acquire calls period now lag calls_made = Some (calls_made', stamp, events) ->
  exists pruned sl,
    wrapper_enter calls period now calls_made = Some (pruned, sl)
    /\ calls_made' = wrapper_append stamp pruned
    /\ stamp = now + default 0 sl + Z.of_nat lag
    /\ 0 <= default 0 sl.
Proof.
  unfold acquire.
  destruct (wrapper_enter calls period now calls_made) as [[pruned [d|]]|] eqn:E;
    intros H; inversion H; subst; clear H.
  - exists pruned, (Some d). repeat split. simpl.
    unfold wrapper_enter in E.
    destruct (_ >=? _); [| discriminate].
    destruct (filter _ calls_made) as [|c0 rest] eqn:Hp; [discriminate |].
    inversion E; subst. apply pruned_head in Hp. lia.
  - exists pruned, None. repeat split; simpl; lia.
Qed.

(** A worker that is alone in the limiter makes the acquisitions of
    [run_sequential]: the sequential runs are runs of the shared limiter. *)
Lemma alone_is_sequential (calls period : Z) (arrivals : list (nat * nat))
      (clock : Z) (calls_made history : list Z) (passes : list Pass) :
  run_sequential calls period clock calls_made arrivals = Some passes ->
  exists clock' calls_made',
    run_interleaved calls period (alone calls period clock calls_made arrivals)
                    (mkShared clock calls_made ∅ history)
    = Some (mkShared clock' calls_made' ∅
                     (history ++ (stamp_of <$> passes))).
Proof.
  revert clock calls_made history passes.
  induction arrivals as [|[gap lag] rest IH]; intros clock cm hist passes;
    cbn [run_sequential alone].
  - intros [= <-]. exists clock, cm. simpl. now rewrite app_nil_r.
  - cbv zeta.
    destruct (acquire calls period (clock + Z.of_nat gap) lag cm)
      as [[[cm' stamp] evs]|] eqn:Hacq; [| discriminate].
    destruct (run_sequential calls period stamp cm' rest) as [passes'|] eqn:Hrun;
      [| discriminate].
    intros [= <-].
    destruct (acquire_parts _ _ _ _ _ _ _ _ Hacq)
      as (pruned & sl & Henter & -> & Hstamp & Hsl).
    destruct (IH stamp (wrapper_append stamp pruned) (hist ++ [stamp]) passes' Hrun)
      as (clock' & cm'' & Hrest).
    exists clock', cm''.
    cbn [run_interleaved step sh_clock sh_waking sh_calls_made sh_stamps].
    rewrite bool_decide_eq_true_2 by (split; [lia | apply lookup_empty]).
    rewrite Henter.
    cbn [run_interleaved step sh_clock sh_waking sh_calls_made sh_stamps].
    rewrite lookup_insert_eq.
    rewrite bool_decide_eq_true_2 by lia.
    rewrite delete_insert_eq, delete_empty.
    rewrite <- app_assoc in Hrest. exact Hrest.
Qed.

(** C8, counterexample.  The limiter holds no lock.  With one call allowed
    a minute, worker 1 prunes and tests the empty list at time 0 and worker
    2 does the same at time 1, before worker 1 has appended its timestamp;
    both are let through, at times 2 and 3: two acquisitions in the minute
    that ends at 3.  With the thirty calls a minute of [analyze_email], two
    workers arriving together after 29 calls make it 31 in a minute. *)
Lemma rate_limit_race :
  option_map sh_stamps (run_interleaved 1 60000 Examples.race (idle 0))
  = Some [2; 3]
  /\ in_window 60000 3 [2; 3] = 2
  /\ option_map (fun s => in_window 60000 33 (sh_stamps s))
       (run_interleaved 30 60000 Examples.burst (idle 0))
     = Some 31.
Proof. vm_compute. repeat split. Qed.

End RateLimitFacts.

(* ===================================================================== *)
(** * ai_agent.py: what the parsers return                                *)
(* ===================================================================== *)

Module ParseFacts.
Import PyStr AiAgentParse.

Lemma append_nil (b : string) : EmptyString +:+ b = b.
Proof. reflexivity. Qed.

Lemma append_cons (x : ascii) (a b : string) :
  String x a +:+ b = String x (a +:+ b).
Proof. reflexivity. Qed.

Ltac push_append := rewrite ?append_cons, ?append_nil.

Lemma append_assoc (a b c : string) : (a +:+ b) +:+ c = a +:+ (b +:+ c).
Proof.
  induction a as [|x a IH]; push_append; [reflexivity | now f_equal].
Qed.

Lemma split_once_found (sep : ascii) (s : string) :
  free_of sep s = false -> exists a b, split_once sep s = [a; b].
Proof.
  induction s as [|c s IH]; simpl; [discriminate |].
  destruct (Ascii.eqb c sep); simpl.
  - intros _. eauto.
  - intros H. destruct (IH H) as (a & b & ->). eauto.
Qed.

Lemma prefix_not_free (sep : ascii) (p s : string) :
  String.prefix p s = true -> free_of sep p = false -> free_of sep s = false.
Proof.
  revert s. induction p as [|c p IH]; intros s; simpl;
    [intros _; discriminate |].
  destruct s as [|d s]; simpl; [discriminate |].
  destruct (ascii_dec c d) as [<- | _]; [| discriminate].
  intros Hp. destruct (Ascii.eqb c sep); simpl; [reflexivity |].
  now apply IH.
Qed.

(** A line that starts with one of the markers has a colon, so reading the
    text after it cannot fail. *)
Lemma after_colon_marker (marker line : string) :
  free_of ":" marker = false -> startswith marker line = true ->
  is_Some (after_colon line).
Proof.
  intros Hm Hp. unfold after_colon.
  destruct (split_once_found ":" line (prefix_not_free _ _ _ Hp Hm))
    as (a & b & ->).
  simpl. eauto.
Qed.

Lemma scan_lines_total (lines : list string) (vars : string * string * string) :
  is_Some (scan_lines lines vars).
Proof.
  revert vars. induction lines as [|line rest IH]; intros [[c p] r]; simpl.
  - eauto.
  - destruct (startswith "Category:" line) eqn:E1.
    { destruct (after_colon_marker "Category:" line eq_refl E1) as [v ->].
      apply IH. }
    destruct (startswith "Priority:" line) eqn:E2.
    { destruct (after_colon_marker "Priority:" line eq_refl E2) as [v ->].
      apply IH. }
    destruct (startswith "Reply:" line) eqn:E3.
    { destruct (after_colon_marker "Reply:" line eq_refl E3) as [v ->].
      apply IH. }
    apply IH.
Qed.

Lemma text_parser_keys (response_text : string) :
  exists r,
    _parse_text_response response_text = Some r
    /\ is_Some (ar_category r) /\ is_Some (ar_priority r)
    /\ is_Some (ar_reply r) /\ is_Some (ar_needs_reply r).
Proof.
  unfold _parse_text_response.
  destruct (scan_lines_total (split_char LF response_text)
              ("Personal"%string, "Medium"%string, response_text))
    as [[[c p] r] ->].
  eexists. split; [reflexivity |]. simpl. eauto.
Qed.

Lemma parse_response_keys (loads : string -> option AiResult)
      (response_text sender subject : string) :
  exists r,
    _parse_response loads response_text sender subject = Some r
    /\ is_Some (ar_category r) /\ is_Some (ar_reply r)
    /\ is_Some (ar_needs_reply r).
Proof.
  assert (Htext : exists r,
             _parse_text_response response_text = Some r
             /\ is_Some (ar_category r) /\ is_Some (ar_reply r)
             /\ is_Some (ar_needs_reply r)).
  { destruct (text_parser_keys response_text) as (r & -> & Hc & _ & Hr & Hn).
    eauto. }
  unfold _parse_response.
  destruct (_ && _); [| exact Htext].
  destruct (index_of "{" response_text) as [start|]; [| exact Htext].
  destruct (rindex_of "}" response_text) as [last|]; [| exact Htext].
  cbv zeta.
  destruct (loads _) as [data|]; [| exact Htext].
  destruct (ar_category data) as [c|] eqn:Ec; [| exact Htext].
  destruct (ar_reply data) as [rp|] eqn:Er; [| exact Htext].
  destruct (ar_needs_reply data) as [n|] eqn:En.
  - exists data. rewrite Ec, Er, En. eauto.
  - eexists. split; [reflexivity |]. simpl. rewrite Ec, Er. eauto.
Qed.

(** Whatever the completion says and whatever the JSON decoder makes of
    it, the dict that [analyze_email] returns has the keys 'category',
    'reply' and 'needs_reply'; so the module-level [analyze_email], which
    indexes the first two, always returns its text. *)
Theorem analysis_has_keys (ack_reply : string -> string -> string)
        (complete : string -> string -> string -> option string)
        (loads : string -> option AiResult)
        (sender subject body : string) :
  let result :=
    (AiAgent.analyze_email ack_reply (groq_api complete loads)
       sender subject body).1 in
  is_Some (ar_category result)
  /\ is_Some (ar_reply result)
  /\ is_Some (ar_needs_reply result)
  /\ is_Some (legacy_analyze_email ack_reply complete loads sender subject body).
Proof.
  cbv zeta. unfold legacy_analyze_email.
  assert (H : forall r, is_Some (ar_category r) -> is_Some (ar_reply r) ->
                        is_Some (legacy_format r)).
  { intros r [c Hc] [rp Hr]. unfold legacy_format. rewrite Hc, Hr. eauto. }
  assert (Hres : let r := (AiAgent.analyze_email ack_reply
                             (groq_api complete loads) sender subject body).1 in
                 is_Some (ar_category r) /\ is_Some (ar_reply r)
                 /\ is_Some (ar_needs_reply r)).
  { unfold AiAgent.analyze_email.
    destruct (AiAgent._is_no_reply_sender sender); [simpl; eauto |].
    unfold groq_api.
    destruct (complete sender subject body) as [text|].
    - destruct (parse_response_keys loads text sender subject)
        as (r & -> & Hc & Hr & Hn). simpl. eauto.
    - simpl. unfold AiAgent._generate_fallback_response.
      destruct (Py.any_in _ _); simpl; eauto. }
  cbv zeta in Hres. destruct Hres as (Hc & Hr & Hn).
  repeat split; try assumption. now apply H.
Qed.

(** ** The text format and its readers *)

Lemma split_char_free (sep : ascii) (s : string) :
  free_of sep s = true -> split_char sep s = [s].
Proof.
  induction s as [|c s IH]; simpl; [reflexivity |].
  destruct (Ascii.eqb c sep); simpl; [discriminate |].
  intros H. now rewrite (IH H).
Qed.

Lemma split_char_app (sep : ascii) (a b : string) :
  free_of sep a = true ->
  split_char sep (a +:+ String sep b) = a :: split_char sep b.
Proof.
  induction a as [|c a IH]; simpl.
  - intros _. now rewrite Ascii.eqb_refl.
  - destruct (Ascii.eqb c sep); simpl; [discriminate |].
    intros H. now rewrite (IH H).
Qed.

Lemma free_of_app (sep : ascii) (a b : string) :
  free_of sep (a +:+ b) = free_of sep a && free_of sep b.
Proof.
  induction a as [|c a IH]; simpl; [reflexivity |].
  rewrite IH. now rewrite andb_assoc.
Qed.

(** Reading back what the module-level [analyze_email] writes.  For a
    result whose category, priority and reply are ASCII text without a
    line feed, the text parser finds the three values again, stripped of
    surrounding white space; a result without priority reads back as
    Medium, and needs a reply unless the reply holds "No reply needed". *)
Theorem text_format_round_trip (result : AiResult) (category reply : string) :
  ar_category result = Some category ->
  ar_reply result = Some reply ->
  ascii_only category = true ->
  ascii_only reply = true ->
  ascii_only (default EmptyString (ar_priority result)) = true ->
  free_of LF category = true ->
  free_of LF reply = true ->
  free_of LF (default EmptyString (ar_priority result)) = true ->
  exists text parsed,
    legacy_format result = Some text
    /\ _parse_text_response text = Some parsed
    /\ ar_category parsed = Some (strip category)
    /\ ar_priority parsed
       = Some (default "Medium"%string (strip <$> ar_priority result))
    /\ ar_reply parsed = Some (strip reply)
    /\ ar_needs_reply parsed
       = Some (negb (Py.contains "No reply needed" (strip reply))).
Proof.
  intros Hc Hr _ _ _ Fc Fr Fp. unfold legacy_format. rewrite Hc, Hr.
  assert (Hreply : split_char LF ("Reply: " +:+ reply) = ["Reply: " +:+ reply]).
  { apply split_char_free. rewrite free_of_app, Fr. reflexivity. }
  destruct (ar_priority result) as [priority|]; simpl default in *.
  - eexists _, _. split; [reflexivity |].
    unfold _parse_text_response.
    change ("Category: " +:+ category +:+
            String LF (("Priority: " +:+ priority +:+ String LF EmptyString)
                         +:+ "Reply: " +:+ reply))
      with (("Category: " +:+ category) +:+
            String LF (("Priority: " +:+ priority +:+ String LF EmptyString)
                         +:+ "Reply: " +:+ reply)).
    rewrite split_char_app by (rewrite free_of_app, Fc; reflexivity).
    replace (("Priority: " +:+ priority +:+ String LF EmptyString)
               +:+ "Reply: " +:+ reply)
      with (("Priority: " +:+ priority) +:+ String LF ("Reply: " +:+ reply)).
    2: { rewrite !append_assoc. reflexivity. }
    rewrite split_char_app by (rewrite free_of_app, Fp; reflexivity).
    rewrite Hreply. push_append. simpl.
    repeat split.
  - eexists _, _. split; [reflexivity |].
    unfold _parse_text_response.
    change ("Category: " +:+ category +:+
            String LF (EmptyString +:+ "Reply: " +:+ reply))
      with (("Category: " +:+ category) +:+ String LF ("Reply: " +:+ reply)).
    rewrite split_char_app by (rewrite free_of_app, Fc; reflexivity).
    rewrite Hreply. push_append. simpl.
    repeat split.
Qed.

Lemma text_format_round_trip_witness :
  exists text parsed,
    legacy_format (Examples.verdict " Important" "High" "On it.  " true)
    = Some text
    /\ _parse_text_response text = Some parsed
    /\ ar_category parsed = Some (strip " Important")
    /\ ar_priority parsed
       = Some (default "Medium"%string
                 (strip <$> ar_priority
                    (Examples.verdict " Important" "High" "On it.  " true)))
    /\ ar_reply parsed = Some (strip "On it.  ")
    /\ ar_needs_reply parsed
       = Some (negb (Py.contains "No reply needed" (strip "On it.  "))).
Proof.
  apply (text_format_round_trip
           (Examples.verdict " Important" "High" "On it.  " true)
           " Important" "On it.  "); reflexivity.
Defined.

End ParseFacts.

(* ===================================================================== *)
(** * db_manager.py: rows, flags and preferences                          *)
(* ===================================================================== *)

Module StoreFacts.
Import DbManager DbOps.

(** A save that reports success has stored the row built from the message
    and the verdict under its id, where a lookup finds it; whatever row was
    under that id before is gone, and with it the flags sent, archived and
    deleted, which start again at false; the rows under other ids are as
    they were. *)
Theorem saved_row_read_back (outcome : nat -> WriteOutcome)
        (db : gmap string Row) (email_id : string) (email : Message)
        (ai : AiResult) :
  (save_email_analysis outcome db email_id email ai).1.1 = true ->
  let db' := (save_email_analysis outcome db email_id email ai).1.2 in
  get_email_analysis ReadOk db' email_id = Some (new_row email ai)
  /\ (forall r, db' !! email_id = Some r ->
                row_sent r = false /\ row_archived r = false
                /\ row_deleted r = false)
  /\ forall x, x <> email_id -> db' !! x = db !! x.
Proof.
  unfold save_email_analysis.
  pose proof (DbFacts.save_attempts_store outcome max_retries max_retries 0 db
                email_id (new_row email ai)) as Hstore.
  destruct (save_attempts _ _ _ _ _ _ _) as [[ok db'] evs]. simpl.
  intros ->. subst db'. cbn [get_email_analysis].
  rewrite lookup_insert_eq. split; [reflexivity | split].
  - intros r0 [= <-]. repeat split.
  - intros x Hx. now rewrite lookup_insert_ne.
Qed.

Lemma saved_row_read_back_witness :
  let db' :=
    (save_email_analysis (fun _ => WriteOk)
       {[ "A"%string := set_sent (new_row (Examples.nth_message 0)
                                    (Examples.verdict "Spam" "Low" "No" false)) ]}
       "A" (Examples.nth_message 0)
       (Examples.verdict "Important" "High" "On it." true)).1.2 in
  get_email_analysis ReadOk db' "A"
  = Some (new_row (Examples.nth_message 0)
                  (Examples.verdict "Important" "High" "On it." true))
  /\ (forall r, db' !! "A"%string = Some r ->
                row_sent r = false /\ row_archived r = false
                /\ row_deleted r = false)
  /\ forall x, x <> "A"%string ->
       db' !! x
       = ({[ "A"%string := set_sent (new_row (Examples.nth_message 0)
                                      (Examples.verdict "Spam" "Low" "No" false)) ]}
            : gmap string Row) !! x.
Proof.
  apply (saved_row_read_back (fun _ => WriteOk)
           {[ "A"%string := set_sent (new_row (Examples.nth_message 0)
                                        (Examples.verdict "Spam" "Low" "No" false)) ]}
           "A" (Examples.nth_message 0)
           (Examples.verdict "Important" "High" "On it." true)).
  reflexivity.
Defined.

Lemma setters_commute (m1 m2 : Mark) (r : Row) :
  let f m := match m with
             | Sent => set_sent | Archived => set_archived
             | Deleted => set_deleted
             end in
  f m1 (f m2 r) = f m2 (f m1 r).
Proof. destruct m1, m2; reflexivity. Qed.

Lemma mark_ok (m : Mark) (db : gmap string Row) (email_id : string) :
  mark m UpdateOk db email_id
  = (true, alter (match m with
                  | Sent => set_sent | Archived => set_archived
                  | Deleted => set_deleted
                  end) email_id db).
Proof. destruct m; reflexivity. Qed.

(** The three mark operations only ever raise their own flag on the one
    row named.  Where a row has the id, its flag is true afterwards and
    its other two flags are as they were; where none has, the operation
    still reports success and there is still none.  They neither add nor
    remove rows, they leave every column written by the INSERT as it was
    in every row and the other rows untouched, doing one twice is doing it
    once, any two of them can be done in either order, and one that fails
    inside changes nothing and reports [False]. *)
Theorem marks_only_raise_flags (m : Mark) (db : gmap string Row)
        (email_id : string) :
  let db' := (mark m UpdateOk db email_id).2 in
  (mark m UpdateOk db email_id).1 = true
  /\ match db !! email_id with
     | Some r =>
         exists r', db' !! email_id = Some r'
                    /\ flag_of m r' = true
                    /\ (forall m2, m2 <> m -> flag_of m2 r' = flag_of m2 r)
                    /\ written_once r' = written_once r
     | None => db' !! email_id = None
     end
  /\ dom db' = dom db
  /\ (forall x, written_once <$> db' !! x = written_once <$> db !! x)
  /\ (forall x, x <> email_id -> db' !! x = db !! x)
  /\ (mark m UpdateOk db' email_id).2 = db'
  /\ (forall m2 id2,
         (mark m2 UpdateOk db' id2).2
         = (mark m UpdateOk (mark m2 UpdateOk db id2).2 email_id).2)
  /\ mark m UpdateRaises db email_id = (false, db).
Proof.
  cbv zeta. rewrite !mark_ok. cbn [fst snd].
  split; [reflexivity |]. split.
  { rewrite lookup_alter_eq.
    destruct (db !! email_id) as [r|]; [| reflexivity].
    simpl. eexists. split; [reflexivity |].
    destruct m; (repeat split; [intros [| |] Hm; congruence || reflexivity]). }
  repeat split.
  - apply dom_alter_L.
  - intros x. rewrite lookup_alter. case_decide as Hx; [| reflexivity].
    subst x. destruct (db !! email_id) as [r|]; [| reflexivity].
    destruct m; reflexivity.
  - intros x Hx. now rewrite lookup_alter_ne.
  - rewrite ?mark_ok. cbn [snd]. apply map_eq. intros x.
    destruct (decide (email_id = x)) as [<- | Hne].
    + rewrite !lookup_alter_eq.
      destruct (db !! email_id) as [r|]; [| reflexivity].
      destruct m; reflexivity.
    + now rewrite !lookup_alter_ne by assumption.
  - intros m2 id2. rewrite ?mark_ok. cbn [snd]. apply map_eq. intros x.
    destruct (decide (email_id = x)) as [<- | Hne];
      destruct (decide (id2 = email_id)) as [-> | Hne2];
      repeat (rewrite lookup_alter_eq || rewrite lookup_alter_ne by congruence);
      try reflexivity.
    + destruct (db !! email_id) as [r|]; [| reflexivity]. simpl. f_equal.
      apply (setters_commute m2 m r).
    + destruct (decide (id2 = x)) as [-> | Hne3];
        repeat (rewrite lookup_alter_eq || rewrite lookup_alter_ne by congruence);
        reflexivity.
  - destruct m; reflexivity.
Qed.

(** A mark on an id that has no row is a successful no-op. *)
Example mark_unknown_id :
  mark_as_archived UpdateOk
    ({[ "A"%string := new_row (Examples.nth_message 0)
                              (Examples.verdict "Spam" "Low" "No" false) ]}) "Z"
  = (true, {[ "A"%string := new_row (Examples.nth_message 0)
                                    (Examples.verdict "Spam" "Low" "No" false) ]}).
Proof. reflexivity. Qed.

End StoreFacts.

(* ===================================================================== *)
(** * app.py: sending a stored reply                                      *)
(* ===================================================================== *)

Module RouteFacts.
Import DbManager DbOps AppRoutes.

Lemma nothing_sent_when_flagged (gw : Gateway) (read : ReadOutcome)
      (update : UpdateOutcome) (db : gmap string Row) (id : string) (r : Row) :
  db !! id = Some r -> row_sent r = true ->
  send_reply_route gw read update db id = (db, []).
Proof.
  intros Hr Hs. unfold send_reply_route.
  destruct read; cbn [get_email_analysis]; [| reflexivity].
  rewrite Hr, Hs. now rewrite andb_false_r.
Qed.

(** [send_reply_route] sends a stored reply once.  When the gateway has
    accepted the reply and the row has been flagged, a later request for
    the same message asks nothing of the gateway, whatever the gateway and
    the database would do; when the gateway has not accepted it, the store
    is as before, so the request can be repeated. *)
Theorem reply_sent_once (gw1 gw2 : Gateway) (read2 : ReadOutcome)
        (update2 : UpdateOutcome) (db : gmap string Row) (id : string) :
  let '(db1, sent1) := send_reply_route gw1 ReadOk UpdateOk db id in
  (existsb call_succeeded sent1 = true ->
   send_reply_route gw2 read2 update2 db1 id = (db1, []))
  /\ (existsb call_succeeded sent1 = false -> db1 = db).
Proof.
  unfold send_reply_route at 1. cbn [get_email_analysis].
  destruct (db !! id) as [r|] eqn:Hr; [| split; [discriminate | reflexivity]].
  destruct (negb _ && negb _); [| split; [discriminate | reflexivity]].
  cbv zeta.
  destruct (returned_true (gw_send_reply gw1 (row_sender r) (row_subject r)
                             (row_clean_reply r))) eqn:Ho.
  - split.
    + intros _. cbn [mark_as_sent snd].
      apply (nothing_sent_when_flagged gw2 read2 update2 _ id (set_sent r));
        [| reflexivity].
      now rewrite lookup_alter_eq, Hr.
    + simpl. rewrite Ho. discriminate.
  - split; [simpl; rewrite Ho; discriminate | reflexivity].
Qed.

(** A row that is written again loses its sent flag, so its reply goes out
    again: after a successful save of a verdict with a reply, the route
    sends that reply whether or not one had been sent for the id before. *)
Theorem resaved_row_is_sent_again (outcome : nat -> WriteOutcome)
        (gw : Gateway) (update : UpdateOutcome) (db : gmap string Row)
        (id : string) (email : Message) (ai : AiResult) (reply : string) :
  (save_email_analysis outcome db id email ai).1.1 = true ->
  ar_reply ai = Some reply ->
  reply <> ""%string ->
  (send_reply_route gw ReadOk update
     (save_email_analysis outcome db id email ai).1.2 id).2
  = [MeSend (msg_sender email) (msg_subject email) reply
       (gw_send_reply gw (msg_sender email) (msg_subject email) reply)].
Proof.
  unfold save_email_analysis.
  pose proof (DbFacts.save_attempts_store outcome max_retries max_retries 0 db
                id (new_row email ai)) as Hstore.
  destruct (save_attempts _ _ _ _ _ _ _) as [[ok db'] evs]. simpl.
  intros -> Hr Hne. subst db'.
  unfold send_reply_route. cbn [get_email_analysis].
  rewrite lookup_insert_eq. cbn [new_row row_clean_reply row_sent row_sender
                                  row_subject].
  rewrite Hr. cbn [get default]. unfold Py.str_eq.
  rewrite bool_decide_eq_false_2 by assumption. cbn [negb andb].
  cbv zeta. destruct (returned_true _); reflexivity.
Qed.

Lemma resaved_row_is_sent_again_witness :
  (send_reply_route
     (mkGateway (fun _ _ _ => GwReturns true) (fun _ => GwReturns true)
                (fun _ => GwReturns true) (fun _ => GwReturns true))
     ReadOk UpdateOk
     (save_email_analysis (fun _ => WriteOk)
        {[ "A"%string := set_sent (new_row (Examples.nth_message 0)
                                     (Examples.verdict "Important" "High" "On it." true)) ]}
        "A" (Examples.nth_message 0)
        (Examples.verdict "Important" "High" "On it." true)).1.2 "A").2
  = [MeSend "alice@example.com" "Hello" "On it." (GwReturns true)].
Proof.
  apply (resaved_row_is_sent_again (fun _ => WriteOk)
           (mkGateway (fun _ _ _ => GwReturns true) (fun _ => GwReturns true)
                      (fun _ => GwReturns true) (fun _ => GwReturns true))
           UpdateOk
           {[ "A"%string := set_sent (new_row (Examples.nth_message 0)
                                        (Examples.verdict "Important" "High" "On it." true)) ]}
           "A" (Examples.nth_message 0)
           (Examples.verdict "Important" "High" "On it." true) "On it.");
    [reflexivity | reflexivity | discriminate].
Defined.

End RouteFacts.

(* ===================================================================== *)
(** * enterprise_app.py: batch actions and the auto-pilot                 *)
(* ===================================================================== *)

Module EnterpriseOpsFacts.
Import DbManager DbOps EnterpriseOps BatchLog.

Lemma filter_snoc {A} (P : A -> Prop) `{!forall x, Decision (P x)}
      (l : list A) (x : A) :
  length (filter P (l ++ [x]))
  = (length (filter P l) + if decide (P x) then 1 else 0)%nat.
Proof.
  rewrite filter_app, length_app. destruct (decide (P x)).
  - now rewrite filter_cons_True.
  - now rewrite filter_cons_False.
Qed.

Lemma fold_left_keeps {S X} (f : S -> X -> S) (P : S -> Prop) (l : list X) (s : S) :
  (forall s x, P s -> P (f s x)) -> P s -> P (fold_left f l s).
Proof.
  intros Hf. revert s. induction l as [|x l IH]; intros s Hs; simpl; auto.
Qed.

(** ** [batch_action] *)

Lemma written_once_alter (f : Row -> Row) (db : gmap string Row) (id x : string) :
  (forall r, written_once (f r) = written_once r) ->
  written_once <$> alter f id db !! x = written_once <$> db !! x.
Proof.
  intros Hf. destruct (decide (id = x)) as [<- | Hne].
  - rewrite lookup_alter_eq. destruct (db !! id); simpl; [now rewrite Hf | reflexivity].
  - now rewrite lookup_alter_ne.
Qed.

Lemma mark_deleted_written (q : UpdateOutcome) (db : gmap string Row) (id x : string) :
  written_once <$> (mark_as_deleted q db id).2 !! x = written_once <$> db !! x.
Proof.
  destruct q; [| reflexivity]. now apply written_once_alter.
Qed.

Lemma mark_archived_written (q : UpdateOutcome) (db : gmap string Row) (id x : string) :
  written_once <$> (mark_as_archived q db id).2 !! x = written_once <$> db !! x.
Proof.
  destruct q; [| reflexivity]. now apply written_once_alter.
Qed.

Lemma mark_sent_written (q : UpdateOutcome) (db : gmap string Row) (id x : string) :
  written_once <$> (mark_as_sent q db id).2 !! x = written_once <$> db !! x.
Proof.
  destruct q; [| reflexivity]. now apply written_once_alter.
Qed.

Lemma mark_deleted_other (q : UpdateOutcome) (db : gmap string Row) (id x : string) :
  id <> x -> (mark_as_deleted q db id).2 !! x = db !! x.
Proof. intros H. destruct q; [| reflexivity]. now apply lookup_alter_ne. Qed.

Lemma mark_archived_other (q : UpdateOutcome) (db : gmap string Row) (id x : string) :
  id <> x -> (mark_as_archived q db id).2 !! x = db !! x.
Proof. intros H. destruct q; [| reflexivity]. now apply lookup_alter_ne. Qed.

Lemma mark_sent_other (q : UpdateOutcome) (db : gmap string Row) (id x : string) :
  id <> x -> (mark_as_sent q db id).2 !! x = db !! x.
Proof. intros H. destruct q; [| reflexivity]. now apply lookup_alter_ne. Qed.

Lemma batch_round_counts (action : string) (gw : Gateway)
      (update : string -> UpdateOutcome) (b : Batch) (id : string) :
  let b' := batch_round action gw update b id in
  success_count b' + failed_count b' = success_count b + failed_count b + 1.
Proof.
  unfold batch_round.
  repeat match goal with
         | |- context [if ?c then _ else _] => destruct c
         end; simpl; lia.
Qed.

Lemma batch_round_inv (db : gmap string Row) (action : string) (gw : Gateway)
      (update : string -> UpdateOutcome) (b : Batch) (id : string) :
  batch_inv db b -> batch_inv db (batch_round action gw update b id).
Proof.
  intros [Hs Hf Hw]. unfold batch_round.
  destruct (Py.str_eq action "archive").
  { destruct (returned_true (gw_archive_email gw id)) eqn:Ho; split; simpl.
    - rewrite filter_snoc. simpl. rewrite Ho.
      destruct (decide (true = true)); [lia | congruence].
    - intros x Hx.
      assert (id <> x).
      { intros ->. apply (Hx (MeArchive x (gw_archive_email gw x)));
          [apply elem_of_app; right; left | exact Ho | reflexivity]. }
      rewrite mark_archived_other by assumption. apply Hf.
      intros e He. apply Hx, elem_of_app. now left.
    - intros x. rewrite mark_archived_written. apply Hw.
    - rewrite filter_snoc. simpl. rewrite Ho.
      destruct (decide (false = true)); [congruence | lia].
    - intros x Hx. apply Hf. intros e He. apply Hx, elem_of_app. now left.
    - exact Hw. }
  destruct (Py.str_eq action "delete").
  { destruct (returned_true (gw_delete_email gw id)) eqn:Ho; split; simpl.
    - rewrite filter_snoc. simpl. rewrite Ho.
      destruct (decide (true = true)); [lia | congruence].
    - intros x Hx.
      assert (id <> x).
      { intros ->. apply (Hx (MeTrash x (gw_delete_email gw x)));
          [apply elem_of_app; right; left | exact Ho | reflexivity]. }
      rewrite mark_deleted_other by assumption. apply Hf.
      intros e He. apply Hx, elem_of_app. now left.
    - intros x. rewrite mark_deleted_written. apply Hw.
    - rewrite filter_snoc. simpl. rewrite Ho.
      destruct (decide (false = true)); [congruence | lia].
    - intros x Hx. apply Hf. intros e He. apply Hx, elem_of_app. now left.
    - exact Hw. }
  destruct (Py.str_eq action "mark_read").
  { destruct (returned_true (gw_mark_as_read gw id)) eqn:Ho; split; simpl.
    - rewrite filter_snoc. simpl. rewrite Ho.
      destruct (decide (true = true)); [lia | congruence].
    - intros x Hx. apply Hf. intros e He. apply Hx, elem_of_app. now left.
    - exact Hw.
    - rewrite filter_snoc. simpl. rewrite Ho.
      destruct (decide (false = true)); [congruence | lia].
    - intros x Hx. apply Hf. intros e He. apply Hx, elem_of_app. now left.
    - exact Hw. }
  split; simpl; assumption.
Qed.

Lemma batch_fold_counts (action : string) (gw : Gateway)
      (update : string -> UpdateOutcome) (ids : list string) (b : Batch) :
  let b' := fold_left (batch_round action gw update) ids b in
  success_count b' + failed_count b'
  = success_count b + failed_count b + Z.of_nat (length ids).
Proof.
  revert b. induction ids as [|id ids IH]; intros b; simpl; [lia |].
  specialize (IH (batch_round action gw update b id)).
  pose proof (batch_round_counts action gw update b id) as H1.
  cbv zeta in *. lia.
Qed.

(** [batch_action] accounts for every id it is given: each one counts as
    a success or as a failure, never both and never neither, so
    [processed] is the number of ids; [success] is the number of gateway
    calls that returned [True]; a row of the store changes only if a
    successful call named its id, and then only in its flags. *)
Theorem batch_accounts_for_every_id (email_ids : list string) (action : string)
        (gw : Gateway) (update : string -> UpdateOutcome)
        (db : gmap string Row) :
  let '(resp, db', events) := batch_action email_ids action gw update db in
  br_processed resp = Z.of_nat (length email_ids)
  /\ br_success resp + br_failed resp = br_processed resp
  /\ br_success resp
     = Z.of_nat (length (filter (fun e => call_succeeded e = true) events))
  /\ (forall x,
         (forall e, e ∈ events -> call_succeeded e = true ->
                    event_id e <> Some x) ->
         db' !! x = db !! x)
  /\ forall x, written_once <$> db' !! x = written_once <$> db !! x.
Proof.
  unfold batch_action. cbn [br_processed br_success br_failed].
  pose proof (batch_fold_counts action gw update email_ids (mkBatch db 0 0 []))
    as Hc.
  assert (Hinv : batch_inv db (fold_left (batch_round action gw update)
                                 email_ids (mkBatch db 0 0 []))).
  { apply fold_left_keeps.
    - intros s x. apply batch_round_inv.
    - split; simpl; auto. }
  cbv zeta in Hc. simpl in Hc. destruct Hinv as [Hs Hf Hw].
  repeat split; try assumption; lia.
Qed.

(** An action that is none of archive, delete and mark_read: every id is
    a failure and nothing is asked of the gateway. *)
Lemma batch_unknown_action (email_ids : list string) (action : string)
      (gw : Gateway) (update : string -> UpdateOutcome) (db : gmap string Row) :
  Py.str_eq action "archive" = false ->
  Py.str_eq action "delete" = false ->
  Py.str_eq action "mark_read" = false ->
  batch_action email_ids action gw update db
  = (mkBatchResponse (Z.of_nat (length email_ids)) 0
                     (Z.of_nat (length email_ids)), db, []).
Proof.
  intros H1 H2 H3. unfold batch_action.
  assert (H : forall ids k,
             fold_left (batch_round action gw update) ids (mkBatch db 0 k [])
             = mkBatch db 0 (k + Z.of_nat (length ids)) []).
  { induction ids as [|id ids IH]; intros k; simpl.
    - f_equal. lia.
    - unfold batch_round at 2. rewrite H1, H2, H3. simpl. rewrite IH.
      f_equal. lia. }
  rewrite H. simpl. reflexivity.
Qed.

End EnterpriseOpsFacts.

(* ===================================================================== *)
(** * enterprise_app.py: the auto-pilot                                   *)
(* ===================================================================== *)

Module PilotFacts.
Import DbManager DbOps EnterpriseOps PilotLog.

Lemma accepted_app (kind : mail_event -> bool)
      (l1 l2 : list (string * mail_event)) :
  accepted kind (l1 ++ l2) = accepted kind l1 + accepted kind l2.
Proof. unfold accepted. rewrite filter_app, length_app. lia. Qed.

Lemma accepted_one (kind : mail_event -> bool) (x : string) (e : mail_event) :
  accepted kind [(x, e)] = if kind e && call_succeeded e then 1 else 0.
Proof.
  unfold accepted. destruct (kind e && call_succeeded e) eqn:H.
  - rewrite filter_cons_True by exact H. reflexivity.
  - rewrite filter_cons_False by (simpl; congruence). reflexivity.
Qed.

Lemma str_eq_refl (s : string) : Py.str_eq s s = true.
Proof. now apply PyFacts.str_eq_true. Qed.

Section Relation.
Variable req : AutoPilotRequest.
Variable gw : Gateway.
Variable update : string -> UpdateOutcome.
Variable es : list (string * Row).

Lemma rel_refl (p : Pilot) : pilot_rel req update es p p [].
Proof.
  split; try reflexivity.
  - now rewrite app_nil_r.
  - constructor.
  - unfold accepted. simpl. lia.
  - unfold accepted. simpl. lia.
  - intros _ x r Hr. exists r. repeat split; auto.
    + intros H. now apply elem_of_nil in H.
    + intros (a & b & c & H). now apply elem_of_nil in H.
Qed.

Lemma rel_trans (p p' p'' : Pilot) (n1 n2 : list (string * mail_event)) :
  pilot_rel req update es p p' n1 -> pilot_rel req update es p' p'' n2 ->
  pilot_rel req update es p p'' (n1 ++ n2).
Proof.
  intros [L1 T1 A1 D1 R1 W1 F1 G1] [L2 T2 A2 D2 R2 W2 F2 G2].
  split.
  - rewrite L2, L1. now rewrite app_assoc.
  - apply Forall_app; split; assumption.
  - congruence.
  - rewrite D2, D1, accepted_app. lia.
  - rewrite R2, R1, accepted_app. lia.
  - intros x. now rewrite W2, W1.
  - intros x Hx. rewrite F2, F1; auto; intros q Hq; apply Hx;
      apply elem_of_app; auto.
  - intros Hu x r Hr.
    destruct (G1 Hu x r Hr) as (r' & Hr' & d1 & s1 & t1 & rp1).
    destruct (G2 Hu x r' Hr') as (r'' & Hr'' & d2 & s2 & t2 & rp2).
    exists r''. split; [assumption |]. repeat split.
    + auto.
    + auto.
    + intros [H | H]%elem_of_app; auto.
    + intros (a & b & c & [H | H]%elem_of_app).
      * apply s2, rp1. now exists a, b, c.
      * apply rp2. now exists a, b, c.
Qed.

Lemma flags_kept (db : gmap string Row) (new : list (string * mail_event)) :
  (forall q, q ∈ new -> call_succeeded q.2 = false) ->
  forall x r, db !! x = Some r ->
    exists r', db !! x = Some r'
      /\ (row_deleted r = true -> row_deleted r' = true)
      /\ (row_sent r = true -> row_sent r' = true)
      /\ (trashed x new -> row_deleted r' = true)
      /\ (replied x new -> row_sent r' = true).
Proof.
  intros Hnew x r Hr. exists r. repeat split; auto.
  - intros H. apply Hnew in H. discriminate.
  - intros (a & b & c & H). apply Hnew in H. discriminate.
Qed.

Lemma trash_rel (email_id : string) (row : Row) (p : Pilot) :
  (email_id, row) ∈ es ->
  (archive_newsletters req && Py.str_eq (row_category row) "Newsletter"
   || delete_spam req && Py.str_eq (row_category row) "Spam") = true ->
  exists new,
    pilot_rel req update es p (trash_and_mark gw update email_id p) new.
Proof.
  intros Hin Hrule.
  exists [(email_id, MeTrash email_id (gw_delete_email gw email_id))].
  assert (Htag : Forall (fun q : string * mail_event =>
                           exists row, (q.1, row) ∈ es
                                       /\ allowed req q.1 row q.2 = true)
                        [(email_id, MeTrash email_id (gw_delete_email gw email_id))]).
  { repeat constructor. exists row. split; [exact Hin |]. simpl.
    now rewrite str_eq_refl, Hrule. }
  unfold trash_and_mark.
  destruct (gw_delete_email gw email_id) as [[|]|] eqn:Ho;
    split; simpl; try reflexivity; try exact Htag;
    try (rewrite accepted_one; simpl; lia).
  - intros x. apply EnterpriseOpsFacts.mark_deleted_written.
  - intros x Hx. apply EnterpriseOpsFacts.mark_deleted_other. intros ->.
    specialize (Hx (x, MeTrash x (GwReturns true))). simpl in Hx.
    discriminate Hx; [left | reflexivity].
  - intros Hu x r Hr. rewrite Hu. simpl.
    destruct (decide (email_id = x)) as [<- | Hne].
    + exists (set_deleted r). rewrite lookup_alter_eq, Hr. repeat split; auto.
      intros (a & b & c & H). apply list_elem_of_singleton in H. discriminate.
    + exists r. rewrite lookup_alter_ne by assumption. repeat split; auto.
      * intros H. apply list_elem_of_singleton in H. congruence.
      * intros (a & b & c & H). apply list_elem_of_singleton in H. congruence.
  - intros _. apply flags_kept. intros q Hq.
    apply list_elem_of_singleton in Hq. now subst q.
  - intros _. apply flags_kept. intros q Hq.
    apply list_elem_of_singleton in Hq. now subst q.
Qed.

Lemma reply_rel (email_id : string) (row : Row) (p : Pilot) :
  (email_id, row) ∈ es ->
  auto_reply req && row_needs_reply row && negb (row_sent row) = true ->
  exists new,
    pilot_rel req update es p (reply_and_mark gw update email_id row p) new.
Proof.
  intros Hin Hrule. unfold reply_and_mark.
  destruct (negb (Py.str_eq (row_clean_reply row) "")
            && negb (Py.str_eq (row_clean_reply row) "No reply needed"))
    eqn:Htext; [| exists []; apply rel_refl].
  set (o := gw_send_reply gw (row_sender row) (row_subject row)
                          (row_clean_reply row)).
  set (ev := MeSend (row_sender row) (row_subject row) (row_clean_reply row) o).
  exists [(email_id, ev)].
  assert (Htag : Forall (fun q : string * mail_event =>
                           exists row, (q.1, row) ∈ es
                                       /\ allowed req q.1 row q.2 = true)
                        [(email_id, ev)]).
  { repeat constructor. exists row. split; [exact Hin |]. simpl.
    rewrite Hrule, !str_eq_refl. simpl.
    apply andb_prop in Htext as [-> ->]. reflexivity. }
  destruct (returned_true o) eqn:Ho; split; simpl; try reflexivity;
    try exact Htag;
    try (rewrite accepted_one; unfold ev; simpl; rewrite ?Ho; lia).
  - intros x. apply EnterpriseOpsFacts.mark_sent_written.
  - intros x Hx. apply EnterpriseOpsFacts.mark_sent_other. intros ->.
    specialize (Hx (x, ev)). simpl in Hx. rewrite Ho in Hx.
    discriminate Hx; [left | reflexivity].
  - intros Hu x r Hr. rewrite Hu. simpl.
    destruct (decide (email_id = x)) as [<- | Hne].
    + exists (set_sent r). rewrite lookup_alter_eq, Hr. repeat split; auto.
      intros H. apply list_elem_of_singleton in H. discriminate.
    + exists r. rewrite lookup_alter_ne by assumption. repeat split; auto.
      * intros H. apply list_elem_of_singleton in H. congruence.
      * intros (a & b & c & H). apply list_elem_of_singleton in H. congruence.
  - intros _. apply flags_kept. intros q Hq.
    apply list_elem_of_singleton in Hq. now subst q.
Qed.

Lemma pilot_round_rel (p : Pilot) (entry : string * Row) :
  entry ∈ es ->
  exists new, pilot_rel req update es p (pilot_round req gw update p entry) new.
Proof.
  destruct entry as [email_id email]. intros Hin. unfold pilot_round.
  destruct (failed p); [exists []; apply rel_refl |].
  assert (H1 : exists p1 n1,
             p1 = (if archive_newsletters req
                      && Py.str_eq (row_category email) "Newsletter"
                   then trash_and_mark gw update email_id p else p)
             /\ pilot_rel req update es p p1 n1).
  { destruct (archive_newsletters req
              && Py.str_eq (row_category email) "Newsletter") eqn:Hc.
    - destruct (trash_rel email_id email p Hin) as [n Hn];
        [now rewrite Hc |].
      now exists (trash_and_mark gw update email_id p), n.
    - exists p, []. split; [reflexivity | apply rel_refl]. }
  destruct H1 as (p1 & n1 & <- & Hr1).
  assert (H2 : exists p2 n2,
             p2 = (if failed p1 then p1
                   else if delete_spam req
                           && Py.str_eq (row_category email) "Spam"
                        then trash_and_mark gw update email_id p1 else p1)
             /\ pilot_rel req update es p1 p2 n2).
  { destruct (failed p1);
      [exists p1, []; split; [reflexivity | apply rel_refl] |].
    destruct (delete_spam req && Py.str_eq (row_category email) "Spam")
      eqn:Hc.
    - destruct (trash_rel email_id email p1 Hin) as [n Hn];
        [rewrite Hc; apply orb_true_r |].
      now exists (trash_and_mark gw update email_id p1), n.
    - exists p1, []. split; [reflexivity | apply rel_refl]. }
  destruct H2 as (p2 & n2 & <- & Hr2).
  pose proof (rel_trans _ _ _ _ _ Hr1 Hr2) as Hr12.
  destruct (failed p2); [now exists (n1 ++ n2) |].
  destruct (auto_reply req && row_needs_reply email && negb (row_sent email))
    eqn:Hc; [| now exists (n1 ++ n2)].
  destruct (reply_rel email_id email p2 Hin Hc) as [n3 Hr3].
  exists ((n1 ++ n2) ++ n3). eapply rel_trans; eassumption.
Qed.

Lemma pilot_fold_rel (l : list (string * Row)) (p : Pilot) :
  (forall e, e ∈ l -> e ∈ es) ->
  exists new,
    pilot_rel req update es p (fold_left (pilot_round req gw update) l p) new.
Proof.
  revert p. induction l as [|e l IH]; intros p Hl; simpl.
  - exists []. apply rel_refl.
  - destruct (pilot_round_rel p e) as [n1 H1]; [apply Hl; left |].
    destruct (IH (pilot_round req gw update p e)) as [n2 H2];
      [intros e' He'; apply Hl; now right |].
    exists (n1 ++ n2). eapply rel_trans; eassumption.
Qed.

End Relation.

Lemma recent_emails_rows (q : ReadOutcome) (recency : list string)
      (db : gmap string Row) (limit : nat) (x : string) (row : Row) :
  (x, row) ∈ get_recent_emails q recency db limit false ->
  db !! x = Some row /\ row_deleted row = false /\ x ∈ recency.
Proof.
  unfold get_recent_emails. destruct q; [| intros H; now apply elem_of_nil in H].
  intros H. apply elem_of_take in H as (i & H & _).
  apply list_elem_of_lookup_2 in H.
  apply list_elem_of_filter in H as [Hd H].
  apply list_elem_of_omap in H as (id & Hid & H).
  destruct (db !! id) as [r|] eqn:Hr; [| discriminate].
  simpl in H. injection H as <- <-. simpl in Hd.
  destruct Hd as [Hd | Hd]; [discriminate |]. auto.
Qed.

(** The relation between the start and the end of a run. *)
Lemma auto_pilot_rel (req : AutoPilotRequest) (gw : Gateway)
      (read : ReadOutcome) (update : string -> UpdateOutcome)
      (recency : list string) (db : gmap string Row) :
  let es := get_recent_emails read recency db 100 false in
  let p := fold_left (pilot_round req gw update) es (mkPilot db 0 0 0 [] false) in
  auto_pilot req gw read update recency db
  = (if failed p then PilotHttp500
     else PilotSuccess (archived_count p) (deleted_count p) (replied_count p),
     store p, log p)
  /\ pilot_rel req update es (mkPilot db 0 0 0 [] false) p (log p).
Proof.
  intros es p. split; [reflexivity |].
  destruct (pilot_fold_rel req gw update es es (mkPilot db 0 0 0 [] false))
    as [new Hnew]; [auto |].
  fold p in Hnew. pose proof (rel_log _ _ _ _ _ _ Hnew) as Hl. simpl in Hl.
  now rewrite Hl.
Qed.

(** What the auto-pilot asks of Gmail stays within its rules: every call
    is for a row that was stored and not marked deleted when the run
    began; it is never an archive nor a mark-as-read, so a newsletter
    under the rule [archive_newsletters] goes to the trash; a trash call
    needs the newsletter rule on a newsletter or the spam rule on spam; a
    reply needs the reply rule on a row that needs a reply and has none
    sent, and carries the stored sender, subject and reply, which is
    neither empty nor "No reply needed". *)
Theorem pilot_acts_within_its_rules (req : AutoPilotRequest) (gw : Gateway)
        (read : ReadOutcome) (update : string -> UpdateOutcome)
        (recency : list string) (db : gmap string Row) :
  let '(_, _, calls) := auto_pilot req gw read update recency db in
  Forall (fun q => exists row,
              db !! q.1 = Some row /\ row_deleted row = false
              /\ allowed req q.1 row q.2 = true)
         calls.
Proof.
  destruct (auto_pilot_rel req gw read update recency db) as [-> Hrel].
  cbv zeta in Hrel.
  eapply Forall_impl; [exact (rel_tags _ _ _ _ _ _ Hrel) |].
  intros q (row & Hin & Hok). exists row.
  apply recent_emails_rows in Hin as (Hrow & Hdel & _). auto.
Qed.

(** The answer of the auto-pilot matches what it did: [archived] is
    always 0, [deleted] is the number of trash calls Gmail accepted and
    [replied] the number of replies it accepted; in the store no column
    written by the INSERT changes, and a row changes at all only if Gmail
    accepted a call for its id; a store that cannot be read gives the
    answer success with three zeros and no call. *)
Theorem pilot_report_matches_calls (req : AutoPilotRequest) (gw : Gateway)
        (read : ReadOutcome) (update : string -> UpdateOutcome)
        (recency : list string) (db : gmap string Row) :
  let '(resp, db', calls) := auto_pilot req gw read update recency db in
  (forall a d r, resp = PilotSuccess a d r ->
                 a = 0 /\ d = accepted is_trash calls
                 /\ r = accepted is_send calls)
  /\ (forall x, written_once <$> db' !! x = written_once <$> db !! x)
  /\ (forall x,
        (forall q, q ∈ calls -> q.1 = x -> call_succeeded q.2 = false) ->
        db' !! x = db !! x)
  /\ (read = ReadRaises -> resp = PilotSuccess 0 0 0 /\ calls = []).
Proof.
  destruct (auto_pilot_rel req gw read update recency db) as [-> Hrel].
  cbv zeta in Hrel. destruct Hrel as [_ _ Ha Hd Hr Hw Hf _].
  simpl in Ha, Hd, Hr, Hw, Hf. repeat split.
  - destruct (failed _); [discriminate |]. congruence.
  - destruct (failed _); [discriminate |]. injection H as _ <- _. lia.
  - destruct (failed _); [discriminate |]. injection H as _ _ <-. lia.
  - exact Hw.
  - exact Hf.
  - now subst read.
  - now subst read.
Qed.

(** Running the auto-pilot again repeats nothing, when the store took the
    updates of the first run: whatever the rules, the gateway and the
    order of the rows in the second run, it makes no call at all for a
    message the first run moved to the trash, and sends no reply for a
    message the first run replied to. *)
Theorem second_run_repeats_nothing (req req2 : AutoPilotRequest)
        (gw gw2 : Gateway) (read read2 : ReadOutcome)
        (update2 : string -> UpdateOutcome) (recency recency2 : list string)
        (db : gmap string Row) :
  let '(_, db1, calls1) :=
    auto_pilot req gw read (fun _ => UpdateOk) recency db in
  let '(_, _, calls2) := auto_pilot req2 gw2 read2 update2 recency2 db1 in
  forall q, q ∈ calls2 ->
    ~ trashed q.1 calls1 /\ (is_send q.2 = true -> ~ replied q.1 calls1).
Proof.
  destruct (auto_pilot_rel req gw read (fun _ => UpdateOk) recency db)
    as [-> Hrel1].
  cbv zeta in Hrel1. destruct Hrel1 as [_ _ _ _ _ Hw _ Hflags].
  simpl in Hw, Hflags. specialize (Hflags (fun _ => eq_refl)).
  set (db1 := store (fold_left _ _ _)) in *.
  set (calls1 := log (fold_left _ _ _)) in *.
  destruct (auto_pilot_rel req2 gw2 read2 update2 recency2 db1) as [-> Hrel2].
  cbv zeta in Hrel2. pose proof (rel_tags _ _ _ _ _ _ Hrel2) as Htags.
  rewrite Forall_forall in Htags.
  intros q Hq. destruct (Htags q Hq) as (row & Hin & Hok).
  apply recent_emails_rows in Hin as (Hrow & Hdel & _).
  assert (Hold : exists r, db !! q.1 = Some r).
  { specialize (Hw q.1). rewrite Hrow in Hw.
    destruct (db !! q.1) as [r|]; [now exists r | discriminate]. }
  destruct Hold as [r Hr].
  destruct (Hflags q.1 r Hr) as (r' & Hr' & _ & _ & Ht & Hs).
  assert (r' = row) as -> by congruence.
  split.
  - intros H. apply Ht in H. congruence.
  - intros Hsend H. apply Hs in H.
    destruct q as [x [to subject reply o | | |]]; try discriminate.
    simpl in Hok. rewrite H in Hok.
    rewrite andb_false_r in Hok. discriminate.
Qed.

End PilotFacts.

(* ===================================================================== *)
(** * enterprise_app.py: preferences                                      *)
(* ===================================================================== *)

Module PreferenceFacts.
Import DbManager DbOps EnterpriseOps.

Lemma saved_value (prefs : gmap string string)
      (preferences : list (string * JsonValue)) (key : string) :
  save_preferences (fun _ => UpdateOk) prefs preferences !! key
  = match value_for key preferences with
    | Some v => Some (py_str v)
    | None => prefs !! key
    end.
Proof.
  unfold save_preferences. revert prefs.
  induction preferences as [|[k v] rest IH]; intros prefs; [reflexivity |].
  simpl. rewrite IH. destruct (value_for key rest) as [w|]; [reflexivity |].
  unfold Py.str_eq. case_bool_decide as Hk.
  - subst k. now rewrite lookup_insert_eq.
  - now rewrite lookup_insert_ne.
Qed.

(** A flag saved as a JSON boolean reads back false.  After
    [save_preferences] has stored a body in which one of the three flags
    is [true] or [false], [get_preferences] answers [false] for that
    flag, whatever else the body and the store hold: the value is stored
    as "True" or "False" and read by comparing with "true". *)
Theorem saved_boolean_reads_back_false (to_int : string -> option Z)
        (config_user_name : string) (prefs : gmap string string)
        (preferences : list (string * JsonValue)) (answer : Preferences)
        (key : string) (b : bool) :
  get_preferences to_int config_user_name (fun _ => ReadOk)
    (save_preferences (fun _ => UpdateOk) prefs preferences) = Some answer ->
  key ∈ ["auto_draft"; "auto_archive_newsletters"; "auto_delete_spam"]%string ->
  value_for key preferences = Some (JBool b) ->
  flag answer key = Some false.
Proof.
  unfold get_preferences. cbn [get_preference].
  rewrite !saved_value.
  destruct (to_int _) as [n|]; [| discriminate].
  intros [= <-] Hkey Hv.
  repeat (apply elem_of_cons in Hkey as [-> | Hkey]);
    [| | | now apply elem_of_nil in Hkey];
    rewrite Hv; now destruct b.
Qed.

Lemma saved_boolean_reads_back_false_witness :
  flag (mkPreferences false false false 20 "Me") "auto_draft" = Some false.
Proof.
  apply (saved_boolean_reads_back_false (fun _ => Some 20) "Me" ∅
           [("auto_draft"%string, JBool true)]
           (mkPreferences false false false 20 "Me") "auto_draft" true);
    [reflexivity | left | reflexivity].
Defined.

(** A flag saved as the string "true" reads back true, and a name reads
    back as it was saved. *)
Lemma saved_strings_read_back (to_int : string -> option Z)
      (config_user_name : string) (prefs : gmap string string)
      (preferences : list (string * JsonValue)) (answer : Preferences) :
  get_preferences to_int config_user_name (fun _ => ReadOk)
    (save_preferences (fun _ => UpdateOk) prefs preferences) = Some answer ->
  (forall s, value_for "auto_draft" preferences = Some (JStr s) ->
             auto_draft answer = Py.str_eq s "true")
  /\ (forall s, value_for "user_name" preferences = Some (JStr s) ->
                user_name answer = s).
Proof.
  unfold get_preferences. cbn [get_preference].
  rewrite !saved_value.
  destruct (to_int _) as [n|]; [| discriminate].
  intros [= <-]. split; intros s ->; reflexivity.
Qed.

End PreferenceFacts.

(* ===================================================================== *)
(** * enterprise_app.py: sending one reply                                *)
(* ===================================================================== *)

Module SendFacts.
Import DbManager DbOps EnterpriseOps.

(** [send_email] of the enterprise app does not look at the sent flag.
    When a request has sent the stored reply and flagged the row, the same
    request made again sends the same reply to the same address again; the
    answer of the second request depends on the gateway alone. *)
Theorem enterprise_send_repeats (gw1 gw2 : Gateway)
        (update2 : UpdateOutcome) (db : gmap string Row) (email_id : string) :
  let '(resp1, db1, sent1) := send_email gw1 ReadOk UpdateOk db email_id in
  resp1 = SendOk ->
  exists row to subject reply,
    db1 !! email_id = Some row /\ row_sent row = true
    /\ sent1 = [MeSend to subject reply (GwReturns true)]
    /\ (send_email gw2 ReadOk update2 db1 email_id).2
       = [MeSend to subject reply (gw_send_reply gw2 to subject reply)]
    /\ ((send_email gw2 ReadOk update2 db1 email_id).1.1 = SendOk
        <-> gw_send_reply gw2 to subject reply = GwReturns true).
Proof.
  unfold send_email at 1. cbn [get_email_analysis].
  destruct (db !! email_id) as [r|] eqn:Hr; [| discriminate].
  destruct (Py.str_eq (row_clean_reply r) "" || _) eqn:Htext; [discriminate |].
  cbv zeta.
  destruct (gw_send_reply gw1 (row_sender r) (row_subject r)
              (row_clean_reply r)) as [[|]|] eqn:Ho; simpl;
    try discriminate.
  intros _. exists (set_sent r), (row_sender r), (row_subject r),
              (row_clean_reply r).
  rewrite lookup_alter_eq, Hr. repeat split.
  - unfold send_email. cbn [get_email_analysis].
    rewrite lookup_alter_eq, Hr. simpl. rewrite Htext.
    destruct (returned_true _); reflexivity.
  - unfold send_email. cbn [get_email_analysis].
    rewrite lookup_alter_eq, Hr. simpl. rewrite Htext.
    destruct (gw_send_reply gw2 _ _ _) as [[|]|]; simpl; congruence.
  - unfold send_email. cbn [get_email_analysis].
    rewrite lookup_alter_eq, Hr. simpl. rewrite Htext.
    intros ->. reflexivity.
Qed.

End SendFacts.

(* ===================================================================== *)
(** * gmail_service.py: reading the inbox                                 *)
(* ===================================================================== *)

Module GmailFacts.
Import GmailService.

Lemma body_after_plain (decode : string -> option string)
      (before after : list Part) (part : Part) (data body : string) :
  Forall (fun q => mimeType q = "text/plain"%string -> part_data q = None)
         before ->
  Forall (fun q => mimeType q = "text/html"%string ->
                   forall d, part_data q = Some d -> is_Some (decode d))
         before ->
  mimeType part = "text/plain"%string ->
  part_data part = Some data ->
  body_of_parts decode (before ++ part :: after) body = decode data.
Proof.
  intros Hplain Hhtml Hm Hd. revert body.
  induction before as [|q before IH]; intros body; simpl.
  - rewrite Hm. unfold Py.str_eq at 1.
    rewrite bool_decide_eq_true_2 by reflexivity. now rewrite Hd.
  - apply Forall_cons in Hplain as [Hq Hplain].
    apply Forall_cons in Hhtml as [Hq' Hhtml].
    specialize (IH Hplain Hhtml).
    unfold Py.str_eq at 1. case_bool_decide as H1.
    { rewrite (Hq H1). apply IH. }
    unfold Py.str_eq at 1. case_bool_decide as H2; simpl; [| apply IH].
    destruct (Py.str_eq body ""); [| apply IH].
    destruct (part_data q) as [d|] eqn:Hqd; [| apply IH].
    destruct (Hq' H2 d eq_refl) as [text ->]. apply IH.
Qed.

(** Plain text wins.  When a message has a [text/plain] part with data,
    the body is the decoding of the first such part, wherever it stands
    among the parts and whatever HTML parts come before or after it,
    provided the HTML parts before it can be decoded. *)
Theorem plain_text_preferred (decode : string -> option string)
        (hs : list Header) (bd : option string)
        (before after : list Part) (part : Part) (data : string) :
  Forall (fun q => mimeType q = "text/plain"%string -> part_data q = None)
         before ->
  Forall (fun q => mimeType q = "text/html"%string ->
                   forall d, part_data q = Some d -> is_Some (decode d))
         before ->
  mimeType part = "text/plain"%string ->
  part_data part = Some data ->
  _get_email_body decode (mkPayload hs (Some (before ++ part :: after)) bd)
  = decode data.
Proof.
  intros. unfold _get_email_body. simpl. now apply body_after_plain.
Qed.

Lemma plain_text_preferred_witness :
  _get_email_body (fun d => Some ("<" +:+ d +:+ ">"))
    (mkPayload [] (Some ([mkPart "text/html" (Some "aGk=")]
                           ++ mkPart "text/plain" (Some "aG8=")
                           :: [mkPart "text/html" (Some "eW8=")]))
               None)
  = (fun d => Some ("<" +:+ d +:+ ">")) "aG8="%string.
Proof.
  apply (plain_text_preferred (fun d => Some ("<" +:+ d +:+ ">")) [] None
           [mkPart "text/html" (Some "aGk=")]
           [mkPart "text/html" (Some "eW8=")]
           (mkPart "text/plain" (Some "aG8=")) "aG8=").
  - repeat constructor. discriminate.
  - repeat constructor. intros _ d [= <-]. eexists. reflexivity.
  - reflexivity.
  - reflexivity.
Defined.

Lemma fetch_fold (service : Service) (ids : list string) (acc : list Email) :
  fold_left (fetch_round service) ids acc
  = acc ++ omap (readable service) ids.
Proof.
  revert acc. induction ids as [|id ids IH]; intros acc; simpl.
  - now rewrite app_nil_r.
  - rewrite IH. unfold fetch_round, readable.
    destruct (_get_email_details service id) as [[e|]|]; simpl;
      [now rewrite <- app_assoc | reflexivity | reflexivity].
Qed.

Lemma or_else_not_empty (value : option string) (dflt : string) :
  dflt <> ""%string -> or_else value dflt <> ""%string.
Proof.
  intros Hd. unfold or_else. destruct value as [s|]; [| exact Hd].
  unfold Py.str_eq. case_bool_decide; assumption.
Qed.

Lemma details_of_id (service : Service) (id : string) (e : Email) :
  _get_email_details service id = Returned (Some e) ->
  msg_id (message e) = id
  /\ msg_subject (message e) <> ""%string
  /\ msg_sender (message e) <> ""%string.
Proof.
  unfold _get_email_details.
  destruct (messages_get service id) as [d| |]; try discriminate.
  cbv zeta. destruct (_get_email_body _ _) as [body|]; [| discriminate].
  intros [= <-]. simpl. repeat split; apply or_else_not_empty; discriminate.
Qed.

(** [fetch_unread_emails] returns what it can read.  The emails it
    returns are those of the listed messages that could be read, each
    once per listing and in the order of the listing; a message that
    cannot be read, or whose body cannot be decoded, is left out and the
    others are kept; every email returned has a subject and a sender that
    are not empty. *)
Theorem fetch_returns_what_it_can_read (service : Service) (max_results : Z) :
  let emails := fetch_unread_emails service max_results in
  sublist ((fun e => msg_id (message e)) <$> emails)
          (listed service max_results)
  /\ Forall (fun e => readable service (msg_id (message e)) = Some e
                      /\ msg_subject (message e) <> ""%string
                      /\ msg_sender (message e) <> ""%string)
            emails
  /\ forall id e, id ∈ listed service max_results ->
                  readable service id = Some e -> e ∈ emails.
Proof.
  cbv zeta. unfold fetch_unread_emails, listed.
  destruct (messages_list service max_results) as [[ids|]|]; simpl;
    try (split; [constructor | split; [constructor |]];
         intros id e H; now apply elem_of_nil in H).
  rewrite fetch_fold. simpl.
  assert (Hr : forall id e, readable service id = Some e ->
                            msg_id (message e) = id
                            /\ msg_subject (message e) <> ""%string
                            /\ msg_sender (message e) <> ""%string).
  { intros id e. unfold readable.
    destruct (_get_email_details service id) as [[e'|]|] eqn:Hd;
      try discriminate.
    intros [= ->]. now apply (details_of_id service). }
  repeat split.
  - induction ids as [|id ids IH]; simpl; [constructor |].
    destruct (readable service id) as [e|] eqn:He; simpl.
    + destruct (Hr id e He) as [-> _]. now constructor.
    + now constructor.
  - apply Forall_forall. intros e He.
    apply list_elem_of_omap in He as (id & _ & He).
    destruct (Hr id e He) as (<- & Hs & Hf). auto.
  - intros id e Hid He. apply list_elem_of_omap. eauto.
Qed.

End GmailFacts.

(* ===================================================================== *)
(** * migrate_history.py                                                  *)
(* ===================================================================== *)

Module MigrateFacts.
Import PyStr AiAgentParse DbManager MigrateHistory.

Lemma save_result (outcome : nat -> WriteOutcome) (db : gmap string Row)
      (email_id : string) (email : Message) (ai : AiResult) :
  (save_email_analysis outcome db email_id email ai).1.2
  = if (save_email_analysis outcome db email_id email ai).1.1
    then <[email_id := new_row email ai]> db else db.
Proof.
  unfold save_email_analysis.
  pose proof (DbFacts.save_attempts_store outcome max_retries max_retries 0 db
                email_id (new_row email ai)) as H.
  destruct (save_attempts _ _ _ _ _ _ _) as [[ok db'] evs]. exact H.
Qed.

Lemma save_first_try (outcome : nat -> WriteOutcome) (db : gmap string Row)
      (email_id : string) (email : Message) (ai : AiResult) :
  outcome 0%nat = WriteOk ->
  (save_email_analysis outcome db email_id email ai).1.1 = true.
Proof.
  intros H. unfold save_email_analysis, max_retries. cbn [save_attempts].
  now rewrite H.
Qed.

(** What one round does to the counters and the store. *)
Lemma migrate_round_spec (write : string -> nat -> WriteOutcome)
      (m : Migration) (item : string * option HistoryEntry) :
  let m' := migrate_round write m item in
  migrated m' + skipped m' = migrated m + skipped m + 1
  /\ migrated m <= migrated m' /\ skipped m <= skipped m'
  /\ (m_db m' = m_db m
      \/ exists email_data ai,
           item.2 = Some email_data
           /\ migrated_result email_data = Some ai
           /\ (save_email_analysis (write item.1) (m_db m) item.1 email_info
                                   ai).1.1 = true
           /\ migrated m' = migrated m + 1
           /\ m_db m' = <[item.1 := new_row email_info ai]> (m_db m)).
Proof.
  destruct item as [email_id [email_data|]]; cbv zeta; simpl;
    [| split; [lia |]; split; [lia |]; split; [lia |]; now left].
  destruct (migrated_result email_data) as [ai|] eqn:Hai; simpl;
    [| split; [lia |]; split; [lia |]; split; [lia |]; now left].
  pose proof (save_result (write email_id) (m_db m) email_id email_info ai)
    as Hs.
  destruct (save_email_analysis _ _ _ _ _) as [[ok db'] evs] eqn:Hsave.
  simpl in Hs. subst db'. destruct ok; simpl.
  - split; [lia |]. split; [lia |]. split; [lia |]. right.
    exists email_data, ai. rewrite ?Hsave. auto.
  - split; [lia |]. split; [lia |]. split; [lia |]. now left.
Qed.

Lemma migrate_fold_counts (write : string -> nat -> WriteOutcome)
      (history : list (string * option HistoryEntry)) (m : Migration) :
  let m' := fold_left (migrate_round write) history m in
  migrated m' + skipped m'
  = migrated m + skipped m + Z.of_nat (length history)
  /\ migrated m <= migrated m' /\ skipped m <= skipped m'.
Proof.
  revert m. induction history as [|item history IH]; intros m; simpl;
    [lia |].
  specialize (IH (migrate_round write m item)).
  pose proof (migrate_round_spec write m item) as H. cbv zeta in *. lia.
Qed.

Lemma migrate_fold_frame (write : string -> nat -> WriteOutcome)
      (history : list (string * option HistoryEntry)) (m : Migration)
      (x : string) :
  x ∉ history.*1 ->
  m_db (fold_left (migrate_round write) history m) !! x = m_db m !! x.
Proof.
  revert m. induction history as [|item history IH]; intros m Hx; simpl;
    [reflexivity |].
  simpl in Hx. apply not_elem_of_cons in Hx as [Hne Hx].
  rewrite IH by assumption.
  destruct (migrate_round_spec write m item)
    as (_ & _ & _ & [-> | (d & ai & _ & _ & _ & _ & ->)]); [reflexivity |].
  now rewrite lookup_insert_ne.
Qed.

Lemma migrate_fold_rows (write : string -> nat -> WriteOutcome)
      (history : list (string * option HistoryEntry)) (m : Migration)
      (x : string) (r : Row) :
  m_db (fold_left (migrate_round write) history m) !! x = Some r ->
  m_db m !! x = Some r
  \/ (x ∈ history.*1
      /\ exists email_data ai,
           migrated_result email_data = Some ai
           /\ r = new_row email_info ai).
Proof.
  revert m. induction history as [|item history IH]; intros m; simpl;
    [now left |].
  intros H. apply IH in H as [H | (Hx & d & ai & Hai & ->)].
  - destruct (migrate_round_spec write m item)
      as (_ & _ & _ & [Hdb | (d & ai & _ & Hai & _ & _ & Hdb)]);
      rewrite Hdb in H; [now left |].
    destruct (decide (item.1 = x)) as [<- | Hne].
    + rewrite lookup_insert_eq in H. injection H as <-.
      right. split; [left | now exists d, ai].
    + rewrite lookup_insert_ne in H by assumption. now left.
  - right. split; [now right | now exists d, ai].
Qed.

Lemma migrated_result_priority (email_data : HistoryEntry) (ai : AiResult) :
  migrated_result email_data = Some ai ->
  ar_priority ai = Some "Medium"%string.
Proof.
  unfold migrated_result. destruct (extract_category _); [| discriminate].
  now intros [= <-].
Qed.

(** The migration accounts for every entry of the history: each one is
    counted as migrated or as skipped, never both; the rows of ids that
    the history does not name are as they were; and a row found in the
    store afterwards was there before or was written by the migration for
    an id of the history, with the sender, the subject and the priority
    that the migration gives every row. *)
Theorem migration_counts_every_entry
        (history : list (string * option HistoryEntry))
        (write : string -> nat -> WriteOutcome) (answer : string)
        (db : gmap string Row) :
  let '(report, db', _) :=
    migrate_json_to_sqlite (Loaded history) write answer db in
  exists n_migrated n_skipped,
    report = Some (n_migrated, n_skipped)
    /\ n_migrated + n_skipped = Z.of_nat (length history)
    /\ 0 <= n_migrated /\ 0 <= n_skipped
    /\ (forall x, x ∉ history.*1 -> db' !! x = db !! x)
    /\ (forall x r, db' !! x = Some r ->
           db !! x = Some r
           \/ (x ∈ history.*1
               /\ row_sender r = "unknown@example.com"%string
               /\ row_subject r = "Migrated Email"%string
               /\ row_priority r = "Medium"%string
               /\ row_sent r = false)).
Proof.
  unfold migrate_json_to_sqlite.
  pose proof (migrate_fold_counts write history (mkMigration db 0 0)) as Hc.
  cbv zeta in Hc. simpl in Hc.
  eexists _, _. split; [reflexivity |].
  split; [lia |]. split; [lia |]. split; [lia |]. split.
  - intros x Hx. now apply (migrate_fold_frame write history).
  - intros x r Hr.
    apply migrate_fold_rows in Hr as [Hr | (Hx & d & ai & Hai & ->)];
      [now left | right].
    repeat split; try assumption. simpl.
    now rewrite (migrated_result_priority d ai Hai).
Qed.

(** The migration replaces what the store held.  For an id of the history
    whose entry can be read and whose INSERT goes through, the row in the
    store afterwards is the migrated one, whatever row the store held
    under that id before: its flags sent, archived and deleted are false
    again and its sender and subject are the placeholders. *)
Theorem migration_replaces_rows
        (history : list (string * option HistoryEntry))
        (write : string -> nat -> WriteOutcome) (answer : string)
        (db : gmap string Row) (email_id : string)
        (email_data : HistoryEntry) (ai : AiResult) :
  NoDup history.*1 ->
  (email_id, Some email_data) ∈ history ->
  migrated_result email_data = Some ai ->
  write email_id 0%nat = WriteOk ->
  (migrate_json_to_sqlite (Loaded history) write answer db).1.2 !! email_id
  = Some (new_row email_info ai).
Proof.
  intros Hnd Hin Hai Hw. unfold migrate_json_to_sqlite. simpl.
  apply list_elem_of_split in Hin as (l1 & l2 & ->).
  rewrite fmap_app, fmap_cons in Hnd. simpl in Hnd.
  apply NoDup_app in Hnd as (_ & _ & Hnd). apply NoDup_cons in Hnd as [Hx _].
  rewrite fold_left_app. simpl.
  rewrite migrate_fold_frame by assumption.
  set (m1 := fold_left (migrate_round write) l1 (mkMigration db 0 0)).
  unfold migrate_round. simpl. rewrite Hai.
  pose proof (save_result (write email_id) (m_db m1) email_id email_info ai)
    as Hs.
  pose proof (save_first_try (write email_id) (m_db m1) email_id email_info ai
                Hw) as Hok.
  destruct (save_email_analysis _ _ _ _ _) as [[ok db'] evs].
  simpl in Hs, Hok. subst ok db'. simpl. apply lookup_insert_eq.
Qed.

Lemma migration_replaces_rows_witness :
  (migrate_json_to_sqlite
     (Loaded [("A"%string,
               Some (mkHistoryEntry (Some "Category: Spam"%string) None))])
     (fun _ _ => WriteOk) "n"
     {[ "A"%string :=
          DbOps.set_sent (new_row (Examples.nth_message 0)
                            (Examples.verdict "Important" "High" "On it." true)) ]}).1.2
    !! "A"%string
  = Some (new_row email_info
            (mkAiResult (Some "Spam"%string) (Some "Medium"%string)
               (Some "No reply needed"%string)
               (Some "Migrated from history.json"%string)
               (Some false) None)).
Proof.
  apply (migration_replaces_rows
           [("A"%string,
             Some (mkHistoryEntry (Some "Category: Spam"%string) None))]
           (fun _ _ => WriteOk) "n" _ "A"
           (mkHistoryEntry (Some "Category: Spam"%string) None)).
  - repeat constructor. intros H. now apply elem_of_nil in H.
  - left.
  - reflexivity.
  - reflexivity.
Defined.

Lemma strip_leading_space (s : string) : strip (String " " s) = strip s.
Proof. reflexivity. Qed.

(** What the old text format carries over.  When the ['ai_response'] of an
    entry is the text that the module-level [analyze_email] built from a
    result, and the category holds no line feed, the migrated category is
    that category without surrounding white space; the priority of the
    text is not read: the migrated priority is Medium. *)
Theorem legacy_category_survives_migration (result : AiResult)
        (category reply : string) (clean_reply : option string) :
  ar_category result = Some category ->
  ar_reply result = Some reply ->
  ascii_only category = true ->
  free_of LF category = true ->
  exists text ai,
    legacy_format result = Some text
    /\ migrated_result (mkHistoryEntry (Some text) clean_reply) = Some ai
    /\ ar_category ai = Some (strip category)
    /\ ar_priority ai = Some "Medium"%string.
Proof.
  intros Hc Hr _ Fc. unfold legacy_format. rewrite Hc, Hr.
  eexists _, _. split; [reflexivity |].
  unfold migrated_result. cbn [h_ai_response h_clean_reply default].
  set (rest := (match ar_priority result with
                | Some priority => _
                | None => _
                end +:+ _)%string).
  assert (Hx : extract_category ("Category: " +:+ category +:+ String LF rest)
               = Some (strip category)).
  { unfold extract_category.
    change ("Category: " +:+ category +:+ String LF rest)
      with (("Category: " +:+ category) +:+ String LF rest) at 2.
    rewrite ParseFacts.split_char_app
      by (rewrite ParseFacts.free_of_app, Fc; reflexivity).
    rewrite !ParseFacts.append_cons, !ParseFacts.append_nil.
    reflexivity. }
  unfold id. rewrite Hx. split; [reflexivity |]. split; reflexivity.
Qed.

Lemma legacy_category_survives_migration_witness :
  exists text ai,
    legacy_format (Examples.verdict "Important " "High" "On it." true)
    = Some text
    /\ migrated_result (mkHistoryEntry (Some text) (Some "On it."%string))
       = Some ai
    /\ ar_category ai = Some (strip "Important ")
    /\ ar_priority ai = Some "Medium"%string.
Proof.
  apply (legacy_category_survives_migration
           (Examples.verdict "Important " "High" "On it." true)
           "Important " "On it." (Some "On it."%string)); reflexivity.
Defined.

End MigrateFacts.

(* ===================================================================== *)
(** * ultimate_app.py: snoozing                                           *)
(* ===================================================================== *)

Module SnoozeFacts.
Import UltimateApp UltimateOps.

Lemma check_fold_lookup (now : Z) (l : list (string * Z))
      (sn : gmap string Z) (w : Z) (x : string) :
  (fold_left (check_round now) l (sn, w)).1 !! x
  = if existsb (fun kv => bool_decide (kv.1 = x) && (now >=? kv.2)) l
    then None else sn !! x.
Proof.
  revert sn w. induction l as [|[id wake] l IH]; intros sn w; simpl;
    [reflexivity |].
  destruct (now >=? wake) eqn:Hw; rewrite IH; simpl.
  - case_bool_decide as Hx; simpl.
    + subst id. rewrite lookup_delete_eq. now destruct (existsb _ l).
    + rewrite lookup_delete_ne by assumption. reflexivity.
  - now rewrite andb_false_r.
Qed.

Lemma check_snoozed_lookup (now : Z) (snoozed : gmap string Z) (x : string) :
  (check_snoozed_emails now snoozed).1.2 !! x
  = match snoozed !! x with
    | Some wake => if now >=? wake then None else Some wake
    | None => None
    end.
Proof.
  unfold check_snoozed_emails.
  pose proof (check_fold_lookup now (map_to_list snoozed) snoozed 0 x) as H.
  destruct (fold_left _ _ _) as [sn' w]. simpl in *. rewrite H. clear H.
  destruct (existsb _ _) eqn:He.
  - apply existsb_exists in He as ([id wake] & Hin & Hc).
    apply list_elem_of_In, elem_of_map_to_list in Hin.
    apply andb_prop in Hc as [Hid Hc]. apply bool_decide_eq_true in Hid.
    simpl in *. subst id. now rewrite Hin, Hc.
  - destruct (snoozed !! x) as [wake|] eqn:Hx; [| reflexivity].
    destruct (now >=? wake) eqn:Hw; [| reflexivity].
    exfalso. apply not_true_iff_false in He. apply He.
    apply existsb_exists. exists (x, wake). split.
    + apply list_elem_of_In, elem_of_map_to_list. exact Hx.
    + simpl. rewrite Hw. now rewrite bool_decide_eq_true_2.
Qed.

Lemma insert_by_rank_elem (x y : string * CacheEntry)
      (l : list (string * CacheEntry)) :
  y ∈ insert_by_rank x l <-> y = x \/ y ∈ l.
Proof.
  induction l as [|z l IH]; simpl.
  - rewrite list_elem_of_singleton. split; [now left |].
    intros [H | H]; [assumption | now apply elem_of_nil in H].
  - destruct (_ <=? _).
    + now rewrite elem_of_cons.
    + rewrite !elem_of_cons, IH. tauto.
Qed.

Lemma sort_by_rank_elem (y : string * CacheEntry)
      (l : list (string * CacheEntry)) :
  y ∈ sort_by_rank l <-> y ∈ l.
Proof.
  induction l as [|x l IH]; simpl; [reflexivity |].
  now rewrite insert_by_rank_elem, elem_of_cons, IH.
Qed.

Lemma home_displays (now : Z) (order : list string)
      (cache : gmap string CacheEntry) (snoozed : gmap string Z)
      (x : string) (entry : CacheEntry) :
  (x, entry) ∈ (home now order cache snoozed).1
  <-> x ∈ order /\ cache !! x = Some entry
      /\ (home now order cache snoozed).2 !! x = None.
Proof.
  unfold home.
  destruct (check_snoozed_emails now snoozed) as [[w sn'] saved]. simpl.
  rewrite sort_by_rank_elem, list_elem_of_filter, list_elem_of_omap. simpl.
  rewrite not_elem_of_dom. split.
  - intros (Hs & id & Hid & H).
    destruct (cache !! id) as [e|] eqn:He; [| discriminate].
    simpl in H. injection H as -> ->. auto.
  - intros (Hx & Hc & Hs). split; [assumption |].
    exists x. split; [assumption |]. now rewrite Hc.
Qed.

Lemma home_snoozed (now : Z) (order : list string)
      (cache : gmap string CacheEntry) (snoozed : gmap string Z) :
  (home now order cache snoozed).2 = (check_snoozed_emails now snoozed).1.2.
Proof.
  unfold home. now destruct (check_snoozed_emails now snoozed) as [[w sn'] s].
Qed.

(** Snoozing hides a message for a day.  The quick action [snooze] on a
    cached message asks nothing of Gmail and leaves the cache as it was;
    from then on a scan passes the message over without analysing it;
    the home page opened before 24 hours have passed does not show it and
    keeps it snoozed; opened after 24 hours it shows it again with the
    entry it had, and a scan after that answers from the cache, without a
    new analysis. *)
Theorem snoozed_for_a_day (ack_reply : string -> string -> string)
        (settings : AutoPilotSettings) (env : AppEnv) (t now : Z)
        (gw : Gateway) (order : list string)
        (cache : gmap string CacheEntry) (snoozed : gmap string Z)
        (entry : CacheEntry) (email : Message) :
  cache !! msg_id email = Some entry ->
  msg_id email ∈ order ->
  let q := quick_action t gw order cache snoozed (msg_id email) "snooze" in
  let shown := home now order (qr_cache q) (qr_snoozed q) in
  qr_events q = [] /\ qr_cache q = cache
  /\ process_email ack_reply settings env (dom (qr_snoozed q)) cache email
     = (None, cache, [])
  /\ (now < t + one_day ->
      (forall e, (msg_id email, e) ∉ shown.1)
      /\ shown.2 !! msg_id email = Some (t + one_day))
  /\ (t + one_day <= now ->
      (msg_id email, entry) ∈ shown.1
      /\ process_email ack_reply settings env (dom shown.2) cache email
         = (Some (entry, true), cache, [])).
Proof.
  intros Hc Ho. cbv zeta. unfold quick_action. rewrite Hc. simpl.
  assert (Hs : forall now',
             (home now' order cache
                (<[msg_id email := t + one_day]> snoozed)).2 !! msg_id email
             = if now' >=? t + one_day then None else Some (t + one_day)).
  { intros now'. rewrite home_snoozed, check_snoozed_lookup.
    now rewrite lookup_insert_eq. }
  split; [reflexivity |]. split; [reflexivity |]. split; [| split].
  - unfold process_email. rewrite bool_decide_eq_true_2; [reflexivity |].
    apply elem_of_dom. rewrite lookup_insert_eq. eauto.
  - intros Hlt. specialize (Hs now).
    rewrite Z.geb_leb in Hs.
    rewrite (proj2 (Z.leb_gt _ _)) in Hs by lia.
    split; [| exact Hs].
    intros e He. apply home_displays in He as (_ & _ & He). congruence.
  - intros Hge. specialize (Hs now).
    rewrite Z.geb_leb in Hs.
    rewrite (proj2 (Z.leb_le _ _)) in Hs by lia.
    split.
    + apply home_displays. auto.
    + unfold process_email. rewrite bool_decide_eq_false_2.
      * now rewrite Hc.
      * now apply not_elem_of_dom.
Qed.

Lemma snoozed_for_a_day_witness :
  let ack_reply := Examples.ack in
  let email := Examples.nth_message 0 in
  let entry := mkCacheEntry "alice@example.com" "Hello" "Personal" "On it."
                            "MEDIUM" None in
  let cache : gmap string CacheEntry := {[ msg_id email := entry ]} in
  let gw := mkGateway (fun _ _ _ => GwReturns true) (fun _ => GwReturns true)
                      (fun _ => GwReturns true) (fun _ => GwReturns true) in
  let env := mkAppEnv Examples.api_important (fun _ => GwReturns true)
                      (GwReturns true) (GwReturns true) in
  let q := quick_action 1000 gw [msg_id email] cache ∅ (msg_id email)
                        "snooze" in
  let shown := home (1000 + one_day) [msg_id email] (qr_cache q)
                    (qr_snoozed q) in
  qr_events q = [] /\ qr_cache q = cache
  /\ process_email ack_reply Examples.ultimate_rules_on env
                   (dom (qr_snoozed q)) cache email
     = (None, cache, [])
  /\ (1000 + one_day < 1000 + one_day ->
      (forall e, (msg_id email, e) ∉ shown.1)
      /\ shown.2 !! msg_id email = Some (1000 + one_day))
  /\ (1000 + one_day <= 1000 + one_day ->
      (msg_id email, entry) ∈ shown.1
      /\ process_email ack_reply Examples.ultimate_rules_on env
                       (dom shown.2) cache email
         = (Some (entry, true), cache, [])).
Proof.
  apply (snoozed_for_a_day Examples.ack Examples.ultimate_rules_on
           (mkAppEnv Examples.api_important (fun _ => GwReturns true)
                     (GwReturns true) (GwReturns true))
           1000 (1000 + one_day)
           (mkGateway (fun _ _ _ => GwReturns true) (fun _ => GwReturns true)
                      (fun _ => GwReturns true) (fun _ => GwReturns true))
           [msg_id (Examples.nth_message 0)]
           {[ msg_id (Examples.nth_message 0) :=
                mkCacheEntry "alice@example.com" "Hello" "Personal" "On it."
                             "MEDIUM" None ]}
           ∅
           (mkCacheEntry "alice@example.com" "Hello" "Personal" "On it."
                         "MEDIUM" None)
           (Examples.nth_message 0)).
  - apply lookup_singleton_eq.
  - left.
Defined.

End SnoozeFacts.

(* ===================================================================== *)
(** * ultimate_app.py: archiving everything from one sender               *)
(* ===================================================================== *)

Module QuickActionFacts.
Import UltimateApp UltimateOps.

Lemma similar_loop_returns (gw : Gateway) (sender : string)
      (items : list (string * CacheEntry)) (to_remove : list string)
      (events : list mail_event) :
  (forall x, gw_archive_email gw x <> GwRaises) ->
  let similar := filter (fun it => ce_sender it.2 = sender) items in
  archive_similar_loop gw sender items to_remove events
  = (Some (to_remove ++ similar.*1),
     events ++ ((fun it => MeArchive it.1 (gw_archive_email gw it.1))
                <$> similar)).
Proof.
  intros Hgw. cbv zeta. revert to_remove events.
  induction items as [|[eid data] items IH]; intros to_remove events; simpl.
  - now rewrite !app_nil_r.
  - unfold Py.str_eq. case_bool_decide as Hs.
    + rewrite filter_cons_True by exact Hs.
      destruct (gw_archive_email gw eid) as [ok|] eqn:Ho;
        [| now destruct (Hgw eid)].
      rewrite IH. simpl. rewrite Ho, <- !app_assoc. reflexivity.
    + rewrite filter_cons_False by exact Hs. apply IH.
Qed.

Lemma delete_all_lookup (to_remove : list string)
      (cache : gmap string CacheEntry) (x : string) :
  fold_left (fun cache eid => delete eid cache) to_remove cache !! x
  = if bool_decide (x ∈ to_remove) then None else cache !! x.
Proof.
  revert cache. induction to_remove as [|y l IH]; intros cache.
  - case_bool_decide as H; [now apply elem_of_nil in H | reflexivity].
  - cbn [fold_left]. rewrite IH.
    destruct (decide (x = y)) as [-> | Hne].
    + rewrite lookup_delete_eq.
      rewrite (bool_decide_eq_true_2 (y ∈ y :: l)) by left.
      now case_bool_decide.
    + rewrite lookup_delete_ne by congruence.
      repeat case_bool_decide; try reflexivity.
      * exfalso. match goal with H : ¬ _ |- _ => apply H end. now right.
      * exfalso. match goal with H : _ ∈ _ :: _ |- _ =>
                   apply elem_of_cons in H as [? | ?] end; contradiction.
Qed.

Lemma cache_items_elem (order : list string) (cache : gmap string CacheEntry)
      (x : string) (e : CacheEntry) :
  (x, e) ∈ omap (fun eid => pair eid <$> cache !! eid) order
  <-> x ∈ order /\ cache !! x = Some e.
Proof.
  rewrite list_elem_of_omap. split.
  - intros (id & Hid & H). destruct (cache !! id) as [e'|] eqn:He;
      [| discriminate].
    simpl in H. injection H as -> ->. auto.
  - intros [Hx Hc]. exists x. split; [assumption |]. now rewrite Hc.
Qed.

(** [archive_similar] forgets every message of the sender.  When no call
    of the gateway raises, the action asks Gmail to archive each cached
    message whose sender is that of the message named, and no other, and
    then drops all of them from the cache, whether Gmail archived them or
    answered [False]; the entries of other senders stay as they were. *)
Theorem archive_similar_clears_sender (now : Z) (gw : Gateway)
        (order : list string) (cache : gmap string CacheEntry)
        (snoozed : gmap string Z) (email_id : string) (entry : CacheEntry) :
  cache !! email_id = Some entry ->
  (forall x, is_Some (cache !! x) -> x ∈ order) ->
  (forall x, gw_archive_email gw x <> GwRaises) ->
  let q := quick_action now gw order cache snoozed email_id
                        "archive_similar" in
  (forall x, qr_cache q !! x
             = match cache !! x with
               | Some e => if Py.str_eq (ce_sender e) (ce_sender entry)
                           then None else Some e
               | None => None
               end)
  /\ (forall ev, ev ∈ qr_events q <->
                 exists x e, cache !! x = Some e
                             /\ ce_sender e = ce_sender entry
                             /\ ev = MeArchive x (gw_archive_email gw x))
  /\ qr_snoozed q = snoozed.
Proof.
  intros Hc Hord Hgw. cbv zeta. unfold quick_action. rewrite Hc. simpl.
  rewrite (similar_loop_returns gw (ce_sender entry) _ [] [] Hgw). simpl.
  set (items := omap (fun eid => pair eid <$> cache !! eid) order).
  split; [| split; [| reflexivity]].
  - intros x. rewrite delete_all_lookup.
    destruct (cache !! x) as [e|] eqn:Hx.
    + unfold Py.str_eq.
      destruct (decide (ce_sender e = ce_sender entry)) as [Hs | Hs].
      * rewrite (bool_decide_eq_true_2 _ Hs).
        rewrite bool_decide_eq_true_2; [reflexivity |].
        apply list_elem_of_fmap. exists (x, e). split; [reflexivity |].
        apply list_elem_of_filter. split; [exact Hs |].
        apply cache_items_elem. eauto.
      * rewrite (bool_decide_eq_false_2 _ Hs).
        rewrite bool_decide_eq_false_2; [reflexivity |].
        intros ([y e'] & Hy & Hin)%list_elem_of_fmap. simpl in Hy. subst y.
        apply list_elem_of_filter in Hin as [Hs' Hin].
        apply cache_items_elem in Hin as [_ Hin]. simpl in Hs'. congruence.
    + now case_bool_decide.
  - intros ev. rewrite list_elem_of_fmap. split.
    + intros ([y e] & -> & Hin).
      apply list_elem_of_filter in Hin as [Hs Hin].
      apply cache_items_elem in Hin as [_ Hin]. exists y, e. auto.
    + intros (y & e & Hy & Hs & ->). exists (y, e). split; [reflexivity |].
      apply list_elem_of_filter. split; [exact Hs |].
      apply cache_items_elem. eauto.
Qed.

Lemma archive_similar_clears_sender_witness :
  let gw := mkGateway (fun _ _ _ => GwReturns true) (fun _ => GwReturns false)
                      (fun _ => GwReturns true) (fun _ => GwReturns true) in
  let entry := mkCacheEntry "news@example.com" "Weekly" "Newsletter"
                            "No reply needed" "LOW" None in
  let other := mkCacheEntry "alice@example.com" "Hello" "Personal" "On it."
                            "MEDIUM" None in
  let cache : gmap string CacheEntry :=
    {[ "A"%string := entry; "B"%string := other; "C"%string := entry ]} in
  let q := quick_action 0 gw ["A"; "B"; "C"]%string cache ∅ "A"
                        "archive_similar" in
  (forall x, qr_cache q !! x
             = match cache !! x with
               | Some e => if Py.str_eq (ce_sender e) (ce_sender entry)
                           then None else Some e
               | None => None
               end)
  /\ (forall ev, ev ∈ qr_events q <->
                 exists x e, cache !! x = Some e
                             /\ ce_sender e = ce_sender entry
                             /\ ev = MeArchive x (gw_archive_email gw x))
  /\ qr_snoozed q = ∅.
Proof.
  apply (archive_similar_clears_sender 0
           (mkGateway (fun _ _ _ => GwReturns true) (fun _ => GwReturns false)
                      (fun _ => GwReturns true) (fun _ => GwReturns true))
           ["A"; "B"; "C"]%string
           {[ "A"%string :=
                mkCacheEntry "news@example.com" "Weekly" "Newsletter"
                             "No reply needed" "LOW" None;
              "B"%string :=
                mkCacheEntry "alice@example.com" "Hello" "Personal" "On it."
                             "MEDIUM" None;
              "C"%string :=
                mkCacheEntry "news@example.com" "Weekly" "Newsletter"
                             "No reply needed" "LOW" None ]}
           ∅ "A"
           (mkCacheEntry "news@example.com" "Weekly" "Newsletter"
                         "No reply needed" "LOW" None)).
  - reflexivity.
  - intros x [e Hx].
    destruct (decide (x = "A"%string)) as [-> | HA]; [left |].
    destruct (decide (x = "B"%string)) as [-> | HB]; [right; left |].
    destruct (decide (x = "C"%string)) as [-> | HC]; [right; right; left |].
    rewrite lookup_insert_ne in Hx by congruence.
    rewrite lookup_insert_ne in Hx by congruence.
    rewrite lookup_singleton_ne in Hx by congruence.
    discriminate.
  - intros x. discriminate.
Defined.

End QuickActionFacts.
